(** * finetune_deepseek.py: fine-tuning and generation drivers

    A shallow embedding of [src/ab/gpt/finetune_deepseek.py].  The script is
    a flat sequence of calls into an external machine-learning framework
    (transformers, peft, datasets, torch); what the script itself decides is
    - which pretrained model a version key selects ([hf_directories]),
    - the order of the calls and what happens when one of them raises,
    - the literal configuration it passes to the framework,
    - the prompt templates, the response extraction and the two output files.

    The embedding keeps exactly that: the framework is an interface (a type
    class of operations that may raise), the script is written over it in a
    state-and-exception monad whose state is the disk, the framework's own
    hidden state and the trace of calls made so far. *)

From Stdlib Require Import String Ascii QArith Qcanon Qround.
From stdpp Require Import gmap strings list pretty.
From Equations Require Import Equations.

Local Open Scope string_scope.
Local Open Scope list_scope.
Local Open Scope nat_scope.

(** ** Python strings

    A Python [str] is modelled as a [string], a sequence of characters with
    codes below 256 (text outside Latin-1 is not represented); the operations
    on it that the script uses ([split], [strip], indexing from the end) are
    defined on the list of its characters. *)

Module PyStr.

Abbreviation chars := (list ascii).

Definition of_string : string -> chars := list_ascii_of_string.
Definition to_string : chars -> string := string_of_list_ascii.

(** [str.isspace] on the code points below 256. *)
Definition isspace (c : ascii) : bool :=
  let n := nat_of_ascii c in
  ((9 <=? n) && (n <=? 13)) || ((28 <=? n) && (n <=? 32))
  || (n =? 133) || (n =? 160).

(** [s.startswith(p)], returning what follows the prefix. *)
Fixpoint strip_prefix (p s : chars) : option chars :=
  match p, s with
  | [], _ => Some s
  | a :: p', b :: s' => if decide (a = b) then strip_prefix p' s' else None
  | _ :: _, [] => None
  end.

(** [s.find(sep)] together with the two slices around the match: the text
    before the first occurrence of [sep] and the text after it. *)
Fixpoint cut (sep s : chars) : option (chars * chars) :=
  match strip_prefix sep s with
  | Some rest => Some ([], rest)
  | None =>
      match s with
      | [] => None
      | c :: s' =>
          match cut sep s' with
          | Some (a, rest) => Some (c :: a, rest)
          | None => None
          end
      end
  end.

(** [s.split(sep)] for a non-empty [sep]: cut at the first occurrence and
    go on with what follows it.  (Python raises [ValueError] on an empty
    separator; [split_pieces] then stops at once, and [py_split] below
    raises.) *)
Equations split_pieces (sep s : chars) : list chars by wf (length s) lt :=
  split_pieces sep s with cut sep s := {
    | None => [s]
    | Some (a, rest) with decide (length rest < length s) := {
        | left _ => a :: split_pieces sep rest
        | right _ => [s] } }.

(** [s.lstrip()], [s.rstrip()] and [s.strip()] with no argument. *)
Fixpoint lstrip (s : chars) : chars :=
  match s with
  | [] => []
  | c :: s' => if isspace c then lstrip s' else s
  end.

Definition rstrip (s : chars) : chars := rev (lstrip (rev s)).

Definition strip (s : chars) : chars := rstrip (lstrip s).

(** "The last occurrence of [sep] in [s]", as [s.rfind(sep)] computes it:
    the largest index at which [sep] starts. *)
Fixpoint last_occurrence (sep s : chars) : option nat :=
  match s with
  | [] => match sep with [] => Some 0 | _ => None end
  | _ :: s' =>
      match last_occurrence sep s' with
      | Some i => Some (S i)
      | None => match strip_prefix sep s with Some _ => Some 0 | None => None end
      end
  end.

(** [sep] occurs in [s]. *)
Definition occurs (sep s : chars) : Prop := exists a b, s = a ++ sep ++ b.

(** A separator is unbordered when no proper non-empty prefix of it is also
    a suffix of it: two occurrences of it can then never overlap. *)
Definition unbordered (sep : chars) : Prop :=
  Forall (fun k => take k sep <> drop (length sep - k) sep)
         (seq 1 (length sep - 1)).

End PyStr.

(** ** Python values and exceptions *)

(** The exceptions the script can meet.  [RuntimeError] stands for whatever
    the framework raises from inside (out of memory, no CUDA device, a
    missing adapter directory, ...). *)
Inductive exn :=
| ValueError (msg : string)
| KeyError (key : string)
| TypeError (msg : string)
| AttributeError (msg : string)
| IndexError (msg : string)
| FileNotFoundError (path : string)
| FileExistsError (path : string)
| IsADirectoryError (path : string)
| RuntimeError (msg : string).

Inductive result (A : Type) : Type :=
| Ok (a : A)
| Raise (e : exn).
Arguments Ok {A} a.
Arguments Raise {A} e.

Definition rbind {A B} (m : result A) (f : A -> result B) : result B :=
  match m with
  | Ok a => f a
  | Raise e => Raise e
  end.

Notation "'let!' x := m 'in' k" := (rbind m (fun x => k))
  (at level 10, x name, m at level 100, k at level 200, only parsing).

Set Warnings "-register-all".

(** What [json.load] returns.  A Python dict keeps its keys in insertion
    order, so an object is an association list (with distinct keys). *)
Inductive json :=
| JNull
| JBool (b : bool)
| JInt (n : Z)
| JFloat (lit : string)
| JStr (s : string)
| JArr (items : list json)
| JObj (fields : list (string * json)).

Definition nl : string := String (ascii_of_nat 10) EmptyString.

(** [str(e)] for the message printed by the cache fallback. *)
Definition exn_str (e : exn) : string :=
  match e with
  | ValueError m | TypeError m | AttributeError m | IndexError m
  | RuntimeError m => m
  | KeyError k => "'" +:+ k +:+ "'"
  | FileNotFoundError p | FileExistsError p | IsADirectoryError p => p
  end.

Fixpoint assoc_get (key : string) (fields : list (string * json)) : option json :=
  match fields with
  | [] => None
  | (k, v) :: rest => if decide (k = key) then Some v else assoc_get key rest
  end.

(** [d[key] = v] on a dict: an existing key keeps its place. *)
Fixpoint assoc_set (key : string) (v : json) (fields : list (string * json))
  : list (string * json) :=
  match fields with
  | [] => [(key, v)]
  | (k, x) :: rest =>
      if decide (k = key) then (k, v) :: rest else (k, x) :: assoc_set key v rest
  end.

(** [v[key]] with a string key. *)
Definition getitem (v : json) (key : string) : result json :=
  match v with
  | JObj fields =>
      match assoc_get key fields with
      | Some x => Ok x
      | None => Raise (KeyError key)
      end
  | JArr _ => Raise (TypeError "list indices must be integers or slices, not str")
  | JStr _ => Raise (TypeError "string indices must be integers")
  | _ => Raise (TypeError "object is not subscriptable")
  end.

(** [v[key] = x] with a string key. *)
Definition setitem (v : json) (key : string) (x : json) : result json :=
  match v with
  | JObj fields => Ok (JObj (assoc_set key x fields))
  | _ => Raise (TypeError "object does not support item assignment")
  end.

(** [v.keys()]. *)
Definition dict_keys (v : json) : result (list string) :=
  match v with
  | JObj fields => Ok (fields.*1)
  | _ => Raise (AttributeError "object has no attribute 'keys'")
  end.

Fixpoint string_chars (s : string) : list string :=
  match s with
  | EmptyString => []
  | String c s' => String c EmptyString :: string_chars s'
  end.

(** The items [for ... in enumerate(v)] goes through: the elements of a
    list, the keys of a dict, the characters of a string. *)
Definition py_iter (v : json) : result (list json) :=
  match v with
  | JArr items => Ok items
  | JObj fields => Ok (JStr <$> fields.*1)
  | JStr s => Ok (JStr <$> string_chars s)
  | _ => Raise (TypeError "object is not iterable")
  end.

(** [len(v)]. *)
Definition py_len (v : json) : result nat :=
  match v with
  | JArr items => Ok (length items)
  | JObj fields => Ok (length fields)
  | JStr s => Ok (String.length s)
  | _ => Raise (TypeError "object has no len()")
  end.

(** [l[-1]] and [l[0]]. *)
Definition py_last {A} (l : list A) : result A :=
  match last l with
  | Some x => Ok x
  | None => Raise (IndexError "list index out of range")
  end.

Definition py_first {A} (l : list A) : result A :=
  match l with
  | x :: _ => Ok x
  | [] => Raise (IndexError "index out of range")
  end.

(** [s.split(sep)] and [s.strip()] on strings. *)
Definition py_split (sep s : string) : result (list string) :=
  match sep with
  | EmptyString => Raise (ValueError "empty separator")
  | _ => Ok (PyStr.to_string <$>
               PyStr.split_pieces (PyStr.of_string sep) (PyStr.of_string s))
  end.

Definition py_strip (s : string) : string :=
  PyStr.to_string (PyStr.strip (PyStr.of_string s)).

(** [sep in s]. *)
Definition str_contains (sep s : string) : Prop :=
  exists a b, s = a +:+ sep +:+ b.

(** [sep in s] as a truth value: whether [s.find(sep)] finds something. *)
Definition py_in (sep s : string) : bool :=
  match PyStr.cut (PyStr.of_string sep) (PyStr.of_string s) with
  | Some _ => true
  | None => false
  end.

(** The text of [s] after the last occurrence of [sep], when there is one:
    [s[s.rfind(sep) + len(sep):]]. *)
Definition substring_after_last (sep s : string) : option string :=
  match PyStr.last_occurrence (PyStr.of_string sep) (PyStr.of_string s) with
  | Some i => Some (PyStr.to_string (drop (i + String.length sep) (PyStr.of_string s)))
  | None => None
  end.

(** The response-section marker of both prompt templates. *)
Definition response_marker : string := "### Response:".

(** Line 264: [response_text.split("### Response:")[-1].strip()]. *)
Definition extract_response (response_text : string) : result string :=
  let! pieces := py_split response_marker response_text in
  let! piece := py_last pieces in
  Ok (py_strip piece).

(** ** Version keys and the configuration tables *)

(** A version key is a Python number: an int, or a float (given by the
    rational it holds).  A dict looks numbers up by value, so [3.0] finds
    the entry stored under [3]; formatting keeps the two apart. *)
Inductive version_key :=
| VInt (n : Z)
| VFloat (q : Qc).

Definition key_value (k : version_key) : Qc :=
  match k with
  | VInt n => Q2Qc (inject_Z n)
  | VFloat q => q
  end.

(** A dict display: later entries replace earlier ones with an equal key. *)
Definition dict_of (entries : list (version_key * string)) : gmap Qc string :=
  foldl (fun m kv => <[key_value kv.1 := kv.2]> m) ∅ entries.

(** Lines 55-64, the table of [main]. *)
Definition hf_directories_main : gmap Qc string :=
  dict_of
    [ (VInt 1, "deepseek-ai/DeepSeek-Coder-V2-Lite-Base");
      (VInt 2, "deepseek-ai/deepseek-coder-1.3b-base");
      (VInt 3, "deepseek-ai/deepseek-coder-1.3b-base");
      (VFloat (Q2Qc 3.5), "deepseek-ai/deepseek-coder-1.3b-base");
      (VInt 4, "deepseek-ai/DeepSeek-R1-Distill-Qwen-7B");
      (VInt 5, "deepseek-ai/deepseek-coder-7b-base-v1.5");
      (VInt 6, "deepseek-ai/deepseek-math-7b-base");
      (VInt 7, "deepseek-ai/deepseek-coder-7b-instruct-v1.5") ].

(** Lines 206-215, the table of [generating_response_cycle_model_finetuned]. *)
Definition hf_directories_gen : gmap Qc string :=
  dict_of
    [ (VInt 1, "deepseek-ai/DeepSeek-Coder-V2-Lite-Base");
      (VInt 2, "deepseek-ai/deepseek-coder-1.3b-base");
      (VInt 3, "deepseek-ai/deepseek-coder-1.3b-base");
      (VFloat (Q2Qc 3.5), "deepseek-ai/deepseek-coder-1.3b-base");
      (VInt 4, "deepseek-ai/DeepSeek-R1-Distill-Qwen-7B");
      (VInt 5, "deepseek-ai/deepseek-coder-7b-base-v1.5");
      (VInt 6, "deepseek-ai/deepseek-math-7b-base");
      (VInt 7, "deepseek-ai/deepseek-coder-7b-instruct-v1.5") ].

(** [hf_directories.get(tuned_model_version)]. *)
Definition dict_get (table : gmap Qc string) (k : version_key) : option string :=
  table !! key_value k.

(** ** Configuration objects passed to the framework

    Float literals of the source are kept as the decimal fractions written
    there. *)

Module LoraConfig.
Record t := mk {
  r : Z;
  lora_alpha : Z;
  target_modules : list string;
  lora_dropout : Q;
  bias : string;
  task_type : string }.
End LoraConfig.

Module TrainingArguments.
Record t := mk {
  num_train_epochs : Z;
  warmup_steps : Z;
  optim : string;
  learning_rate : Q;
  logging_steps : Z;
  max_grad_norm : Q;
  per_device_train_batch_size : Z;
  per_device_eval_batch_size : Z;
  gradient_accumulation_steps : Z;
  lr_scheduler_type : string;
  gradient_checkpointing : bool;
  fp16 : bool;
  eval_strategy : string;
  save_strategy : string;
  output_dir : string;
  logging_dir : string;
  weight_decay : Q;
  save_total_limit : Z;
  load_best_model_at_end : bool }.
End TrainingArguments.

Module BitsAndBytesConfig.
Record t := mk {
  load_in_8bit : bool;
  bnb_8bit_compute_dtype : option string }.
End BitsAndBytesConfig.

(** Keyword arguments of [AutoModelForCausalLM.from_pretrained]. *)
Module ModelLoad.
Record t := mk {
  trust_remote_code : bool;
  device_map : string;
  quantization_config : BitsAndBytesConfig.t }.
End ModelLoad.

(** Keyword arguments of a tokenizer call. *)
Module TokCall.
Record t := mk {
  truncation : bool;
  max_length : option Z;
  padding : bool;
  return_tensors : option string }.
End TokCall.

Module DataCollatorForSeq2Seq.
Record t := mk {
  pad_to_multiple_of : Z;
  return_tensors : string;
  padding : bool }.
End DataCollatorForSeq2Seq.

Inductive callback :=
| EarlyStoppingCallback (early_stopping_patience : Z).

(** ** The framework interface *)

(** The objects of the framework that the script only passes around. *)
Class FrameworkTypes := {
  TokImpl : Type;      (* vocabulary and merges of a loaded tokenizer *)
  Model : Type;        (* handle of a loaded model *)
  Encoding : Type;     (* what a tokenizer call returns *)
  OutputRow : Type;    (* one row of the tensor [model.generate] returns *)
  TrainerT : Type;     (* a [Trainer] *)
  Metrics : Type;      (* what [trainer.evaluate()] returns *)
  Env : Type           (* everything hidden: devices, network, model caches,
                          adapter and checkpoint directories, generator
                          states of numpy and random *)
}.

Section Script.
Context {FT : FrameworkTypes}.

(** A tokenizer object with the attributes the script reads or assigns. *)
Record Tokenizer := mkTokenizer {
  tok_impl : TokImpl;
  add_eos_token : bool;
  pad_token_id : option Z;
  padding_side : string;
  model_max_length : Z }.

(** A tokenized collection: each row keeps its source record next to the
    encoding that [map] added. *)
Definition TokenizedDataset : Type := list (json * Encoding).

(** A [DatasetDict]: split name to rows. *)
Definition DatasetDict : Type := list (string * list json).

(** What the script keeps on disk itself. *)
Inductive node :=
| File (text : string)
| DatasetDir (rows : TokenizedDataset).

(** The calls into the framework, each with the arguments the script
    passes. *)
Inductive fcall : Type -> Type :=
| AutoTokenizer_from_pretrained (name : string) : fcall Tokenizer
| AutoModelForCausalLM_from_pretrained (name : string) (opts : ModelLoad.t)
  : fcall Model
| load_dataset (fmt : string) (data_files : string) : fcall DatasetDict
| Dataset_shuffle (rows : list json) (seed : Z) : fcall (list json)
| Dataset_train_test_split (rows : list json) (test_size : Q) : fcall DatasetDict
| os_cpu_count : fcall (option Z)
| Dataset_map (rows : list json) (f : json -> result Encoding) (num_proc : Z)
  : fcall TokenizedDataset
| Model_train_mode (m : Model) : fcall unit
| prepare_model_for_kbit_training (m : Model) : fcall Model
| get_peft_model (m : Model) (c : LoraConfig.t) : fcall Model
| Trainer_new (m : Model) (args : TrainingArguments.t)
    (train_dataset eval_dataset : TokenizedDataset)
    (collator_tokenizer : Tokenizer) (data_collator : DataCollatorForSeq2Seq.t)
    (callbacks : list callback) : fcall TrainerT
| Trainer_train (t : TrainerT) : fcall unit
| Trainer_evaluate (t : TrainerT) : fcall Metrics
| Model_save_pretrained (m : Model) (dir : string) : fcall unit
| Tokenizer_save_pretrained (tok : Tokenizer) (dir : string) : fcall unit
| PeftModel_from_pretrained (m : Model) (dir : string) : fcall Model
| random_shuffle (l : list json) : fcall (list json)
| BatchEncoding_to (enc : Encoding) (device : string) : fcall Encoding
| Model_generate (m : Model) (inputs : Encoding) (max_new_tokens : Z)
    (pad : option Z) : fcall (list OutputRow).

(** The framework itself.  A call reads the disk and the hidden state and
    returns a result or raises; it changes only the hidden state.  The
    tokenizer, [json] and formatting functions are pure. *)
Class Framework := {
  handle : forall {A}, fcall A -> gmap string node -> Env -> result A * Env;
  tokenizer_call : Tokenizer -> string -> TokCall.t -> result Encoding;
  tokenizer_decode : Tokenizer -> OutputRow -> bool -> result string;
  json_loads : string -> result json;
  json_dumps : option nat -> json -> string;
  repr : json -> string;              (* [str(v)] of a value that is not a str *)
  float_repr : Qc -> string;          (* [str(x)] of a float *)
  metrics_str : Metrics -> string;
  device : string                     (* [str(device)], fixed at import *)
}.
Context {F : Framework}.

(** ** State, trace and the monad of the script *)

Inductive event :=
| EvPrint (line : string)
| EvCall {A} (c : fcall A)
| EvLoadFromDisk (path : string)
| EvSaveToDisk (path : string)
| EvOpen (path : string) (mode : string)
| EvWrite (path : string) (text : string).

Record World := mkWorld {
  disk : gmap string node;
  env : Env;
  trace : list event }.

Definition M (A : Type) : Type := World -> result A * World.

Definition mret {A} (a : A) : M A := fun w => (Ok a, w).

Definition mbind {A B} (m : M A) (f : A -> M B) : M B :=
  fun w => match m w with
           | (Ok a, w') => f a w'
           | (Raise e, w') => (Raise e, w')
           end.

Definition raise {A} (e : exn) : M A := fun w => (Raise e, w).

Definition lift {A} (x : result A) : M A := fun w => (x, w).

(** [try: body except Exception as e: handler(e)]. *)
Definition try_except {A} (body : M A) (handler : exn -> M A) : M A :=
  fun w => match body w with
           | (Ok a, w') => (Ok a, w')
           | (Raise e, w') => handler e w'
           end.

Definition emit (ev : event) : M unit :=
  fun w => (Ok tt, mkWorld (disk w) (env w) (trace w ++ [ev])).

Definition print (line : string) : M unit := emit (EvPrint line).

Definition call {A} (c : fcall A) : M A :=
  fun w => let '(x, e) := handle c (disk w) (env w) in
           (x, mkWorld (disk w) e (trace w ++ [EvCall c])).

Notation "x <- m ;; k" := (mbind m (fun x => k))
  (at level 100, m at next level, right associativity).
Notation "m ;; k" := (mbind m (fun _ => k))
  (at level 100, right associativity).

(** *** The script's own files *)

(** [datasets.load_from_disk(path)]: the path must hold a saved dataset. *)
Definition load_from_disk (path : string) : M TokenizedDataset :=
  fun w =>
    let w' := mkWorld (disk w) (env w) (trace w ++ [EvLoadFromDisk path]) in
    match disk w !! path with
    | Some (DatasetDir rows) => (Ok rows, w')
    | _ => (Raise (FileNotFoundError path), w')
    end.

(** [dataset.save_to_disk(path)]: creates or replaces the directory; fails
    when a plain file is in the way. *)
Definition save_to_disk (rows : TokenizedDataset) (path : string) : M unit :=
  fun w =>
    let tr := trace w ++ [EvSaveToDisk path] in
    match disk w !! path with
    | Some (File _) => (Raise (FileExistsError path), mkWorld (disk w) (env w) tr)
    | _ => (Ok tt, mkWorld (<[path := DatasetDir rows]> (disk w)) (env w) tr)
    end.

(** [with open(path, "r") as f: f.read()]. *)
Definition read_text (path : string) : M string :=
  fun w =>
    let w' := mkWorld (disk w) (env w) (trace w ++ [EvOpen path "r"]) in
    match disk w !! path with
    | Some (File text) => (Ok text, w')
    | Some (DatasetDir _) => (Raise (IsADirectoryError path), w')
    | None => (Raise (FileNotFoundError path), w')
    end.

(** [open(path, "w")]: creates the file or empties it.  (The disk is a
    flat map from paths to contents: the directory of a path is taken to
    exist.) *)
Definition open_w (path : string) : M unit :=
  fun w =>
    let tr := trace w ++ [EvOpen path "w"] in
    match disk w !! path with
    | Some (DatasetDir _) => (Raise (IsADirectoryError path), mkWorld (disk w) (env w) tr)
    | _ => (Ok tt, mkWorld (<[path := File ""]> (disk w)) (env w) tr)
    end.

(** [f.write(text)] on the file opened at [path]: what is written is on
    disk once the [with] block is left, normally or by an exception. *)
Definition file_text (d : gmap string node) (path : string) : string :=
  match d !! path with
  | Some (File text) => text
  | _ => ""
  end.

Definition write (path text : string) : M unit :=
  fun w =>
    (Ok tt, mkWorld (<[path := File (file_text (disk w) path +:+ text)]> (disk w))
                    (env w) (trace w ++ [EvWrite path text])).

(** *** Model resolution (lines 66-68 and 217-219) *)

(** [f"{tuned_model_version}"]. *)
Definition version_str (k : version_key) : string :=
  match k with
  | VInt n => pretty n
  | VFloat q => float_repr q
  end.

Definition resolve (table : gmap Qc string) (tuned_model_version : version_key)
  : M string :=
  match dict_get table tuned_model_version with
  | None => raise (ValueError ("Unknown model version: " +:+ version_str tuned_model_version))
  | Some hf_directory => mret hf_directory
  end.

(** *** Prompt for fine-tuning (lines 22-44) *)

(** A value inside an f-string. *)
Definition py_format (v : json) : string :=
  match v with
  | JStr s => s
  | _ => repr v
  end.

Definition create_prompt (data_point : json) : result string :=
  let! question := getitem data_point "question" in
  let! answer := getitem data_point "answer" in
  Ok (nl +:+ "        ### Input:" +:+ nl +:+
      "        " +:+ py_format question +:+ nl +:+
      nl +:+
      "        ### Response:" +:+ nl +:+
      "        " +:+ py_format answer +:+ nl +:+
      "    ").

Definition tokenize (prompt : string) (tokenizer : Tokenizer) : result Encoding :=
  tokenizer_call tokenizer prompt
    (TokCall.mk true (Some (model_max_length tokenizer)) false None).

(** *** Dataset preparation (lines 95-120) *)

Definition cache_dir (k : version_key) : string :=
  "Finetuned_models/tuned_model_v" +:+ version_str k.
Definition train_cache_path (k : version_key) : string :=
  cache_dir k +:+ "/tokenized_train_dataset".
Definition val_cache_path (k : version_key) : string :=
  cache_dir k +:+ "/tokenized_val_dataset".

(** [dataset_dict[name]]. *)
Fixpoint split_of (name : string) (d : DatasetDict) : result (list json) :=
  match d with
  | [] => Raise (KeyError name)
  | (k, rows) :: rest => if decide (k = name) then Ok rows else split_of name rest
  end.

(** [os.cpu_count() // 2]. *)
Definition half_cpu_count (cpus : option Z) : result Z :=
  match cpus with
  | Some n => Ok (n / 2)%Z
  | None => Raise (TypeError "unsupported operand type(s) for //: 'NoneType' and 'int'")
  end.

(** The body of the [except] branch, lines 104-120. *)
Definition build_datasets (tokenizer : Tokenizer) (tuned_model_version : version_key)
    (dataset_path : string) : M (TokenizedDataset * TokenizedDataset) :=
  dataset <- call (load_dataset "json" dataset_path);;
  rows <- lift (split_of "train" dataset);;
  shuffled_dataset <- call (Dataset_shuffle rows 42);;
  first_split <- call (Dataset_train_test_split shuffled_dataset 0.2);;
  train_dataset <- lift (split_of "train" first_split);;
  second_split <- call (Dataset_train_test_split shuffled_dataset 0.2);;
  eval_dataset <- lift (split_of "test" second_split);;
  cpus <- call os_cpu_count;;
  num_proc <- lift (half_cpu_count cpus);;
  let to_tokens := fun data_point =>
    let! prompt := create_prompt data_point in tokenize prompt tokenizer in
  tokenized_train_dataset <- call (Dataset_map train_dataset to_tokens num_proc);;
  tokenized_val_dataset <- call (Dataset_map eval_dataset to_tokens num_proc);;
  save_to_disk tokenized_train_dataset (train_cache_path tuned_model_version);;
  save_to_disk tokenized_val_dataset (val_cache_path tuned_model_version);;
  print "Datasets have been processed and saved.";;
  mret (tokenized_train_dataset, tokenized_val_dataset).

(** The [try] branch, lines 97-101. *)
Definition load_cached_datasets (tuned_model_version : version_key)
  : M (TokenizedDataset * TokenizedDataset) :=
  tokenized_train_dataset <- load_from_disk (train_cache_path tuned_model_version);;
  tokenized_val_dataset <- load_from_disk (val_cache_path tuned_model_version);;
  print "Datasets loaded successfully.";;
  mret (tokenized_train_dataset, tokenized_val_dataset).

Definition prepare_datasets (tokenizer : Tokenizer) (tuned_model_version : version_key)
    (dataset_path : string) : M (TokenizedDataset * TokenizedDataset) :=
  try_except
    (load_cached_datasets tuned_model_version)
    (fun e =>
       print ("Dataset loading failed: " +:+ exn_str e);;
       build_datasets tokenizer tuned_model_version dataset_path).

(** *** The fine-tuning driver (lines 46-198) *)

Definition peft_config : LoraConfig.t :=
  LoraConfig.mk 32 32 ["q_proj"; "k_proj"; "v_proj"; "o_proj"] 0.05 "none" "CAUSAL_LM".

Definition training_args (tuned_model_version : version_key) : TrainingArguments.t :=
  {| TrainingArguments.num_train_epochs := 35;
     TrainingArguments.warmup_steps := 100;
     TrainingArguments.optim := "adamw_torch";
     TrainingArguments.learning_rate := 1e-5;
     TrainingArguments.logging_steps := 10;
     TrainingArguments.max_grad_norm := 1.0;
     TrainingArguments.per_device_train_batch_size := 1;
     TrainingArguments.per_device_eval_batch_size := 1;
     TrainingArguments.gradient_accumulation_steps := 8;
     TrainingArguments.lr_scheduler_type := "cosine";
     TrainingArguments.gradient_checkpointing := false;
     TrainingArguments.fp16 := true;
     TrainingArguments.eval_strategy := "epoch";
     TrainingArguments.save_strategy := "epoch";
     TrainingArguments.output_dir := "./" +:+ cache_dir tuned_model_version +:+ "/output";
     TrainingArguments.logging_dir := "./" +:+ cache_dir tuned_model_version +:+ "/logs";
     TrainingArguments.weight_decay := 0.01;
     TrainingArguments.save_total_limit := 3;
     TrainingArguments.load_best_model_at_end := true |}.

Definition main (tuned_model_version : version_key) (dataset_path : string) : M unit :=
  hf_directory <- resolve hf_directories_main tuned_model_version;;
  print ("Using model: " +:+ hf_directory);;
  tokenizer <- call (AutoTokenizer_from_pretrained hf_directory);;
  let tokenizer :=
    mkTokenizer (tok_impl tokenizer) true (Some 0%Z) "right" (model_max_length tokenizer) in
  let quantization_config_8bit := BitsAndBytesConfig.mk true (Some "float16") in
  model <- call (AutoModelForCausalLM_from_pretrained hf_directory
                   (ModelLoad.mk true "auto" quantization_config_8bit));;
  datasets <- prepare_datasets tokenizer tuned_model_version dataset_path;;
  let tokenized_train_dataset := datasets.1 in
  let tokenized_val_dataset := datasets.2 in
  call (Model_train_mode model);;
  model <- call (prepare_model_for_kbit_training model);;
  model <- call (get_peft_model model peft_config);;
  trainer <- call (Trainer_new model (training_args tuned_model_version)
                     tokenized_train_dataset tokenized_val_dataset
                     tokenizer (DataCollatorForSeq2Seq.mk 8 "pt" true)
                     [EarlyStoppingCallback 2]);;
  print ("Using device: " +:+ device);;
  call (Trainer_train trainer);;
  eval_results <- call (Trainer_evaluate trainer);;
  print ("Evaluation results: " +:+ metrics_str eval_results);;
  call (Model_save_pretrained model ("./" +:+ cache_dir tuned_model_version +:+ "/model"));;
  call (Tokenizer_save_pretrained tokenizer
          ("./" +:+ cache_dir tuned_model_version +:+ "/tokenizer")).

(** *** The generation driver (lines 205-282) *)

Definition indent12 : string := "            ".

(** Lines 244-256: the prompt of one record.  The fields are read in the
    order the f-string mentions them. *)
Definition render_eval_prompt (entry : json) : result string :=
  let! hyperparameters := getitem entry "prm" in
  let! names := dict_keys hyperparameters in
  let prm_names := String.concat ", " names in
  let! metric := getitem entry "metric" in
  let! task := getitem entry "task" in
  let! dataset := getitem entry "dataset" in
  let! transform_code := getitem entry "transform_code" in
  let! accuracy := getitem entry "accuracy" in
  let! epoch := getitem entry "epoch" in
  let! nn_code := getitem entry "nn_code" in
  Ok (nl +:+
      indent12 +:+ "### Input:" +:+ nl +:+
      indent12 +:+ "Generate only the values (don't provide any explanation) of the hyperparameters ("
        +:+ prm_names +:+ ") of a " +:+ nl +:+
      indent12 +:+ "given model: " +:+ py_format metric +:+ " for the task: "
        +:+ py_format task +:+ " on dataset: " +:+ py_format dataset +:+ ", " +:+ nl +:+
      indent12 +:+ "with transformation: " +:+ py_format transform_code
        +:+ ", so that the model achieves accuracy = " +:+ py_format accuracy +:+ " " +:+ nl +:+
      indent12 +:+ "with number of training epochs = " +:+ py_format epoch +:+ ". " +:+ nl +:+
      indent12 +:+ "Code of that model:" +:+ nl +:+ " " +:+ py_format nn_code +:+ nl +:+
      nl +:+
      indent12 +:+ "### Response:" +:+ nl +:+
      indent12).

(** Lines 258-264: ask the model and keep what follows the last marker. *)
Definition generate_response (model : Model) (tokenizer : Tokenizer)
    (eval_prompt : string) : M string :=
  batch <- lift (tokenizer_call tokenizer eval_prompt (TokCall.mk false None false (Some "pt")));;
  model_input <- call (BatchEncoding_to batch "cuda");;
  output <- call (Model_generate model model_input 150 (pad_token_id tokenizer));;
  row <- lift (py_first output);;
  response_text <- lift (tokenizer_decode tokenizer row true);;
  lift (extract_response response_text).

(** Lines 267-269: the block of one record in the log file. *)
Definition log_header (i : nat) : string := "Model #" +:+ pretty (i + 1) +:+ nl.
Definition log_prompt (eval_prompt : string) : string :=
  "Prompt:" +:+ nl +:+ eval_prompt +:+ nl.
Definition log_response (response_text : string) : string :=
  "Response:" +:+ nl +:+ response_text +:+ nl +:+ nl.
Definition log_block (i : nat) (eval_prompt response_text : string) : string :=
  log_header i +:+ (log_prompt eval_prompt +:+ log_response response_text).

(** Lines 244-275: the body of the loop for the record [entry] at index
    [i]; it returns the record with its [Response]. *)
Definition loop_body (model : Model) (tokenizer : Tokenizer) (logs_file : string)
    (data_len : nat) (i : nat) (entry : json) : M json :=
  eval_prompt <- lift (render_eval_prompt entry);;
  response_text <- generate_response model tokenizer eval_prompt;;
  write logs_file (log_header i);;
  write logs_file (log_prompt eval_prompt);;
  write logs_file (log_response response_text);;
  entry <- lift (setitem entry "Response" (JStr response_text));;
  print ("Got " +:+ pretty (i + 1) +:+ " responses out of " +:+ pretty data_len);;
  mret entry.

(** Lines 243-275: [for i, entry in enumerate(data)], appending to
    [processed_data]. *)
Fixpoint generation_loop (model : Model) (tokenizer : Tokenizer) (logs_file : string)
    (data_len : nat) (i : nat) (entries : list json) (processed_data : list json)
  : M (list json) :=
  match entries with
  | [] => mret processed_data
  | entry :: rest =>
      entry' <- loop_body model tokenizer logs_file data_len i entry;;
      generation_loop model tokenizer logs_file data_len (S i) rest
        (processed_data ++ [entry'])
  end.

(** [random.shuffle(data)]: exchanges items by integer index, which only a
    list supports; with fewer than two items nothing is exchanged. *)
Definition py_random_shuffle (data : json) : M json :=
  match data with
  | JArr items => items' <- call (random_shuffle items);; mret (JArr items')
  | JObj fields =>
      if decide (length fields <= 1) then mret data
      else raise (KeyError "integer index")
  | JStr s =>
      if decide (String.length s <= 1) then mret data
      else raise (TypeError "'str' object does not support item assignment")
  | _ => raise (TypeError "object has no len()")
  end.

Definition generating_response_cycle_model_finetuned
    (tuned_model_version : version_key)
    (input_file_path output_file_path logs_file : string) : M unit :=
  hf_directory <- resolve hf_directories_gen tuned_model_version;;
  print ("Using model: " +:+ hf_directory);;
  let quantization_config_8bit := BitsAndBytesConfig.mk true None in
  model <- call (AutoModelForCausalLM_from_pretrained hf_directory
                   (ModelLoad.mk true "auto" quantization_config_8bit));;
  tokenizer <- call (AutoTokenizer_from_pretrained hf_directory);;
  let output_dir := "./" +:+ cache_dir tuned_model_version +:+ "/model" in
  model <- call (PeftModel_from_pretrained model output_dir);;
  text <- read_text input_file_path;;
  data <- lift (json_loads text);;
  data_len <- lift (py_len data);;
  data <- py_random_shuffle data;;
  open_w logs_file;;
  entries <- lift (py_iter data);;
  processed_data <- generation_loop model tokenizer logs_file data_len 0 entries [];;
  print ("All responses are saved in " +:+ logs_file);;
  open_w output_file_path;;
  write output_file_path (json_dumps (Some 4) (JArr processed_data));;
  print ("All hyperparameters have been successfully saved to " +:+ output_file_path).

End Script.

(** ** A small executable framework

    A stand-in for the real framework, used to run the script on concrete
    inputs.  It follows the documented behaviour of the calls where the
    script's results depend on it:
    - [Dataset.shuffle(seed=s)] is a function of the seed;
    - [Dataset.train_test_split(test_size=t)], called with no seed, shuffles
      with the process-wide generator (here: rotates by the generator state
      and advances it), puts [ceil(t * n)] rows in "test" and the others in
      "train";
    - [random.shuffle] permutes with the process-wide generator;
    - [Dataset.map] refuses [num_proc <= 0].
    Files are read in a toy format: one record per character, the character
    [!] giving a record that lacks most fields. *)

Module Ref.

#[export] Instance types : FrameworkTypes := {|
  TokImpl := unit;
  Model := string;
  Encoding := string;
  OutputRow := string;
  TrainerT := unit;
  Metrics := unit;
  Env := nat |}.

Definition record_of_char (c : string) : json :=
  if decide (c = "!") then JObj [ ("prm", JObj []); ("metric", JStr "acc") ] else
  JObj [ ("question", JStr c); ("answer", JStr c);
         ("prm", JObj [("lr", JFloat "0.01"); ("momentum", JFloat "0.9")]);
         ("metric", JStr "acc"); ("task", JStr "img-classification");
         ("dataset", JStr "cifar-10"); ("transform_code", JStr "norm");
         ("accuracy", JFloat "0.8"); ("epoch", JInt 5); ("nn_code", JStr c) ].

Definition parse (text : string) : list json :=
  record_of_char <$> string_chars text.

Definition test_count (test_size : Q) (n : nat) : nat :=
  Z.to_nat (Qceiling (test_size * inject_Z (Z.of_nat n))).

Fixpoint map_rows (f : json -> result string) (rows : list json)
  : result (list (json * string)) :=
  match rows with
  | [] => Ok []
  | row :: rest =>
      let! enc := f row in
      let! tail := map_rows f rest in
      Ok ((row, enc) :: tail)
  end.

Definition ref_handle {A : Type} (c : fcall A) (d : gmap string node) (e : nat)
  : result A * nat :=
  match c in fcall T return result T * nat with
  | AutoTokenizer_from_pretrained name => (Ok (mkTokenizer tt false None "left" 4096), e)
  | AutoModelForCausalLM_from_pretrained name opts => (Ok name, e)
  | load_dataset fmt data_files =>
      match d !! data_files with
      | Some (File text) => (Ok [("train", parse text)], e)
      | _ => (Raise (FileNotFoundError data_files), e)
      end
  | Dataset_shuffle rows seed => (Ok (rotate (Z.to_nat seed) rows), e)
  | Dataset_train_test_split rows test_size =>
      let shuffled := rotate e rows in
      let n_test := test_count test_size (length rows) in
      (Ok [("train", drop n_test shuffled); ("test", take n_test shuffled)], S e)
  | os_cpu_count => (Ok (Some 8%Z), e)
  | Dataset_map rows f num_proc =>
      if decide (num_proc <= 0)%Z
      then (Raise (ValueError "num_proc must be an integer > 0."), e)
      else (map_rows f rows, e)
  | Model_train_mode m => (Ok tt, e)
  | prepare_model_for_kbit_training m => (Ok m, e)
  | get_peft_model m c => (Ok m, e)
  | Trainer_new m args train_dataset eval_dataset tok collator callbacks => (Ok tt, e)
  | Trainer_train t => (Ok tt, e)
  | Trainer_evaluate t => (Ok tt, e)
  | Model_save_pretrained m dir => (Ok tt, e)
  | Tokenizer_save_pretrained tok dir => (Ok tt, e)
  | PeftModel_from_pretrained m dir => (Ok m, e)
  | random_shuffle l => (Ok (rotate e l), S e)
  | BatchEncoding_to enc dev => (Ok enc, e)
  | Model_generate m inputs max_new_tokens pad => (Ok [inputs +:+ " lr=0.01 "], e)
  end.

Definition dumps_compact (v : json) : string :=
  match v with
  | JArr items => "[" +:+ pretty (length items) +:+ " records]"
  | _ => "value"
  end.

#[export] Instance framework : Framework := {|
  handle := @ref_handle;
  tokenizer_call := fun tok text opts => Ok text;
  tokenizer_decode := fun tok row skip_special_tokens => Ok row;
  json_loads := fun text => Ok (JArr (parse text));
  json_dumps := fun indent v => dumps_compact v;
  repr := fun v => match v with JInt n => pretty n | JFloat lit => lit | _ => "?" end;
  float_repr := fun q => pretty (Qnum (this q)) +:+ "/" +:+ pretty (Zpos (Qden (this q)));
  metrics_str := fun m => "{}";
  device := "cpu" |}.

(** A disk with a five-record dataset and a three-record input file. *)
Definition disk0 : gmap string node :=
  {[ "Dataset/LEMUR_prepared_2.json" := File "abcde";
     "Dataset/LEMUR_raw_2_500.json" := File "xyz";
     "Dataset/incomplete.json" := File "ab!c" ]}.

Definition world0 (seed : nat) : World := mkWorld disk0 seed [].

(** The tokenizer as [main] configures it. *)
Definition tokenizer0 : Tokenizer := mkTokenizer tt true (Some 0%Z) "right" 4096.

End Ref.

(** ** Vocabulary of the properties *)

Section Vocabulary.
Context {FT : FrameworkTypes} {F : Framework}.

(** [w'] is [w] after some more events, each satisfying [P]. *)
Definition extends (P : event -> Prop) (w w' : World) : Prop :=
  exists evs, trace w' = trace w ++ evs /\ Forall P evs.

Definition emits {A} (P : event -> Prop) (m : M A) : Prop :=
  forall w, extends P w (m w).2.

(** The training configuration as the specification lists it. *)
Definition fixed_training_args (a : TrainingArguments.t) : Prop :=
  TrainingArguments.num_train_epochs a = 35%Z /\
  TrainingArguments.warmup_steps a = 100%Z /\
  TrainingArguments.lr_scheduler_type a = "cosine" /\
  (TrainingArguments.learning_rate a == 1 # 100000)%Q /\
  TrainingArguments.per_device_train_batch_size a = 1%Z /\
  TrainingArguments.gradient_accumulation_steps a = 8%Z /\
  TrainingArguments.fp16 a = true /\
  (TrainingArguments.max_grad_norm a == 1)%Q /\
  (TrainingArguments.weight_decay a == 1 # 100)%Q /\
  TrainingArguments.eval_strategy a = "epoch" /\
  TrainingArguments.save_strategy a = "epoch" /\
  TrainingArguments.save_total_limit a = 3%Z /\
  TrainingArguments.load_best_model_at_end a = true.

(** The adapter configuration as the specification lists it. *)
Definition fixed_adapter (c : LoraConfig.t) : Prop :=
  LoraConfig.r c = 32%Z /\
  LoraConfig.lora_alpha c = 32%Z /\
  (LoraConfig.lora_dropout c == 5 # 100)%Q /\
  LoraConfig.bias c = "none" /\
  LoraConfig.target_modules c = ["q_proj"; "k_proj"; "v_proj"; "o_proj"].

(** A framework call that, if it builds a trainer or attaches an adapter,
    does so with the fixed configuration. *)
Definition configured (ev : event) : Prop :=
  match ev with
  | EvCall c =>
      match c with
      | Trainer_new _ args _ _ _ _ callbacks =>
          fixed_training_args args /\ callbacks = [EarlyStoppingCallback 2]
      | get_peft_model _ c => fixed_adapter c
      | _ => True
      end
  | _ => True
  end.

Definition constructs_trainer (ev : event) : Prop :=
  match ev with
  | EvCall c => match c with Trainer_new _ _ _ _ _ _ _ => True | _ => False end
  | _ => False
  end.

Definition attaches_adapter (ev : event) : Prop :=
  match ev with
  | EvCall c => match c with get_peft_model _ _ => True | _ => False end
  | _ => False
  end.

(** The calls of [main] that carry configuration, with exactly the objects
    [main] builds. *)
Definition main_call (k : version_key) (ev : event) : Prop :=
  match ev with
  | EvCall c =>
      match c with
      | Trainer_new _ args _ _ _ data_collator callbacks =>
          args = training_args k /\
          data_collator = DataCollatorForSeq2Seq.mk 8 "pt" true /\
          callbacks = [EarlyStoppingCallback 2]
      | get_peft_model _ c => c = peft_config
      | _ => True
      end
  | _ => True
  end.

(** A run of [m] that returns has made a call satisfying [Q]. *)
Definition performs {A} (Q : event -> Prop) (m : M A) : Prop :=
  forall w a w', m w = (Ok a, w') ->
    exists evs, trace w' = trace w ++ evs /\ Exists Q evs.

(** An event that does not write any file but, possibly, [path]. *)
Definition writes_at_most (path : string) (ev : event) : Prop :=
  match ev with
  | EvOpen p mode => mode = "w" -> p = path
  | EvWrite p _ => p = path
  | EvSaveToDisk _ => False
  | _ => True
  end.

(** The two cache directories of version [k] hold [tr] and [va]. *)
Definition cached (d : gmap string node) (k : version_key)
    (tr va : TokenizedDataset) : Prop :=
  d !! train_cache_path k = Some (DatasetDir tr) /\
  d !! val_cache_path k = Some (DatasetDir va).

(** [w] with more events in its trace. *)
Definition after (w : World) (evs : list event) : World :=
  mkWorld (disk w) (env w) (trace w ++ evs).

(** What a cache hit leaves in the trace. *)
Definition cache_hit_events (k : version_key) : list event :=
  [ EvLoadFromDisk (train_cache_path k);
    EvLoadFromDisk (val_cache_path k);
    EvPrint "Datasets loaded successfully." ].

(** What a failed attempt to load the cache leaves in the trace. *)
Definition cache_miss_events (k : version_key) (evs : list event) : Prop :=
  evs = [ EvLoadFromDisk (train_cache_path k);
          EvPrint ("Dataset loading failed: " +:+ train_cache_path k) ] \/
  evs = [ EvLoadFromDisk (train_cache_path k);
          EvLoadFromDisk (val_cache_path k);
          EvPrint ("Dataset loading failed: " +:+ val_cache_path k) ].

(** An event that is not a write into [path]. *)
Definition no_write_to (path : string) (ev : event) : Prop :=
  match ev with
  | EvWrite p _ => p <> path
  | EvSaveToDisk p => p <> path
  | _ => True
  end.

(** [m] leaves the files alone. *)
Definition keeps_disk {A} (m : M A) : Prop :=
  forall w, disk (m w).2 = disk w.

(** [random.shuffle] returns a rearrangement of its argument. *)
Definition shuffle_permutes : Prop :=
  forall l d e l' e', handle (random_shuffle l) d e = (Ok l', e') -> l' ≡ₚ l.

(** The log blocks of the records [entries], numbered from [i]. *)
Inductive log_blocks : nat -> list json -> list string -> Prop :=
| log_blocks_nil i : log_blocks i [] []
| log_blocks_cons i entry eval_prompt response_text entries blocks :
    render_eval_prompt entry = Ok eval_prompt ->
    log_blocks (S i) entries blocks ->
    log_blocks i (entry :: entries) (log_block i eval_prompt response_text :: blocks).

(** The text of consecutive blocks. *)
Definition join_blocks (blocks : list string) : string :=
  foldr String.append "" blocks.

(** [out_entry] is [entry] with a string under [Response]. *)
Definition augmented (entry out_entry : json) : Prop :=
  exists response_text,
    setitem entry "Response" (JStr response_text) = Ok out_entry /\
    getitem out_entry "Response" = Ok (JStr response_text).

End Vocabulary.

(** ** Trimmed text *)

(** A text made of whitespace only (the empty text included). *)
Definition blank (s : string) : Prop :=
  Forall (fun c => PyStr.isspace c = true) (PyStr.of_string s).

(** "[r] is [s] with the surrounding whitespace trimmed", said without
    [strip]: [s] is [r] between two blank texts, and [r] neither begins nor
    ends with a whitespace character. *)
Definition trimmed (s r : string) : Prop :=
  (exists a b, s = a +:+ r +:+ b /\ blank a /\ blank b) /\
  (forall c t, PyStr.of_string r = c :: t -> PyStr.isspace c = false) /\
  (forall c, last (PyStr.of_string r) = Some c -> PyStr.isspace c = false).

(** ** More vocabulary *)

Section MoreVocabulary.
Context {FT : FrameworkTypes} {F : Framework}.

(** [m] changes no file outside the paths in [S]. *)
Definition touches_only {A} (S : string -> Prop) (m : M A) : Prop :=
  forall w p, ~ S p -> disk (m w).2 !! p = disk w !! p.

(** The directory of the adapter of version [k]. *)
Definition adapter_dir (k : version_key) : string :=
  "./" +:+ cache_dir k +:+ "/model".

(** A request for a continuation. *)
Definition is_generate (ev : event) : bool :=
  match ev with
  | EvCall c => match c with Model_generate _ _ _ _ => true | _ => false end
  | _ => false
  end.

(** The events the generation driver for version [k] can leave in a trace,
    with the arguments it passes. *)
Definition gen_event (k : version_key) (ev : event) : Prop :=
  match ev with
  | EvCall c =>
      match c with
      | AutoModelForCausalLM_from_pretrained _ opts =>
          opts = ModelLoad.mk true "auto" (BitsAndBytesConfig.mk true None)
      | AutoTokenizer_from_pretrained _ => True
      | PeftModel_from_pretrained _ dir => dir = adapter_dir k
      | random_shuffle _ => True
      | BatchEncoding_to _ dev => dev = "cuda"
      | Model_generate _ _ max_new_tokens _ => max_new_tokens = 150%Z
      | _ => False
      end
  | EvLoadFromDisk _ | EvSaveToDisk _ => False
  | _ => True
  end.

(** What happens before the loop starts: no continuation is requested and
    nothing is written. *)
Definition setup_event (ev : event) : Prop :=
  match ev with
  | EvPrint _ | EvOpen _ _ => True
  | EvCall c =>
      match c with
      | AutoModelForCausalLM_from_pretrained _ _
      | AutoTokenizer_from_pretrained _
      | PeftModel_from_pretrained _ _
      | random_shuffle _ => True
      | _ => False
      end
  | _ => False
  end.

(** A record the generation prompt can be rendered from. *)
Definition well_formed_entry (entry : json) : Prop :=
  exists fields prm,
    entry = JObj fields /\
    assoc_get "prm" fields = Some (JObj prm) /\
    Forall (fun key => is_Some (assoc_get key fields))
      ["metric"; "task"; "dataset"; "transform_code"; "accuracy"; "epoch"; "nn_code"].

(** [out_entry] has the fields of [entry], [Response] apart. *)
Definition same_other_fields (entry out_entry : json) : Prop :=
  forall key, key <> "Response" -> getitem out_entry key = getitem entry key.

(** A call that saves a model, into [dir]. *)
Definition saves_model_to (dir : string) (ev : event) : Prop :=
  match ev with
  | EvCall c => match c with Model_save_pretrained _ d => d = dir | _ => False end
  | _ => False
  end.

(** A call that, if it loads an adapter, loads it from [dir]. *)
Definition loads_adapter_from (dir : string) (ev : event) : Prop :=
  match ev with
  | EvCall c => match c with PeftModel_from_pretrained _ d => d = dir | _ => True end
  | _ => True
  end.

(** A call that, if it builds a trainer, gives it collections satisfying [Q]. *)
Definition trainer_datasets (Q : TokenizedDataset -> TokenizedDataset -> Prop)
    (ev : event) : Prop :=
  match ev with
  | EvCall c => match c with Trainer_new _ _ tr va _ _ _ => Q tr va | _ => True end
  | _ => True
  end.

(** The input file cannot be used: it is missing, a directory, or not JSON. *)
Definition unusable_input (d : gmap string node) (path : string) : Prop :=
  match d !! path with
  | Some (File text) => exists e, json_loads text = Raise e
  | _ => True
  end.

(** The loading of an adapter from [dir]. *)
Definition is_adapter_load (dir : string) (ev : event) : bool :=
  match ev with
  | EvCall c =>
      match c with
      | PeftModel_from_pretrained _ d => bool_decide (d = dir)
      | _ => false
      end
  | _ => false
  end.

(** The sending of an input to the device "cuda". *)
Definition is_to_cuda (ev : event) : bool :=
  match ev with
  | EvCall c =>
      match c with
      | BatchEncoding_to _ dev => bool_decide (dev = "cuda")
      | _ => false
      end
  | _ => false
  end.

(** A request for a continuation is a request to [model]. *)
Definition generates_with (model : Model) (ev : event) : Prop :=
  match ev with
  | EvCall c => match c with Model_generate m _ _ _ => m = model | _ => True end
  | _ => True
  end.

(** What [random.shuffle] can leave in the trace: its own call. *)
Definition shuffle_event (ev : event) : Prop :=
  match ev with
  | EvCall c => match c with random_shuffle _ => True | _ => False end
  | _ => False
  end.



(** What a model object says about itself in a hidden state of the
    framework: [model.is_loaded_in_8bit] and
    [model.is_gradient_checkpointing]. *)
Record ModelAttributes := {
  is_loaded_in_8bit : Model -> Env -> bool;
  is_gradient_checkpointing : Model -> Env -> bool }.

(** A call of the dataset library or of [os], or [model.train()]: none of
    them changes how a model was loaded. *)
Definition data_or_mode_call {A} (c : fcall A) : Prop :=
  match c with
  | load_dataset _ _ | Dataset_shuffle _ _ | Dataset_train_test_split _ _
  | os_cpu_count | Dataset_map _ _ _ | Model_train_mode _ => True
  | _ => False
  end.

(** The behaviour of peft and transformers that decides whether training
    runs with gradient checkpointing, as their documentation gives it (the
    libraries are not part of the script):
    - a model loaded with [load_in_8bit=True] says so;
    - dataset calls and [model.train()] leave that alone;
    - [prepare_model_for_kbit_training(model)], called with its defaults
      ([use_gradient_checkpointing=True]) on a model loaded in 8 bit, enables
      gradient checkpointing on the model it returns;
    - [get_peft_model] hands that on to the model it returns;
    - [Trainer(...)] switches checkpointing on when its arguments ask for
      it and never switches it off. *)
Record peft_defaults (attrs : ModelAttributes) : Prop := {
  load_in_8bit_marks :
    forall name opts d e m e',
      handle (AutoModelForCausalLM_from_pretrained name opts) d e = (Ok m, e') ->
      BitsAndBytesConfig.load_in_8bit (ModelLoad.quantization_config opts) = true ->
      is_loaded_in_8bit attrs m e' = true;
  data_calls_keep_8bit :
    forall A (c : fcall A) d e r e' m,
      data_or_mode_call c ->
      handle c d e = (r, e') ->
      is_loaded_in_8bit attrs m e = true -> is_loaded_in_8bit attrs m e' = true;
  prepare_enables_checkpointing :
    forall m d e m' e',
      handle (prepare_model_for_kbit_training m) d e = (Ok m', e') ->
      is_loaded_in_8bit attrs m e = true ->
      is_gradient_checkpointing attrs m' e' = true;
  adapter_keeps_checkpointing :
    forall m c d e m' e',
      handle (get_peft_model m c) d e = (Ok m', e') ->
      is_gradient_checkpointing attrs m e = true ->
      is_gradient_checkpointing attrs m' e' = true;
  trainer_keeps_checkpointing :
    forall m args tr va tok collator callbacks d e t e',
      handle (Trainer_new m args tr va tok collator callbacks) d e = (Ok t, e') ->
      is_gradient_checkpointing attrs m e = true ->
      is_gradient_checkpointing attrs m e' = true }.

(** [m] keeps [P] true of the hidden state. *)
Definition env_keeps {A} (P : Env -> Prop) (m : M A) : Prop :=
  forall w, P (env w) -> P (env (m w).2).

End MoreVocabulary.

(** ** The drivers in parts

    The two drivers cut at the points the properties speak of: [main] at
    the call of [trainer.train()], the generation driver before and after
    its loop.  That the parts, put together, are the drivers is
    [main_decomposed] and [generation_decomposed] below. *)

Section DriverParts.
Context {FT : FrameworkTypes} {F : Framework}.

Local Notation "x <- m ;; k" := (mbind m (fun x => k))
  (at level 100, m at next level, right associativity).
Local Notation "m ;; k" := (mbind m (fun _ => k))
  (at level 100, right associativity).

(** Lines 66-179 of [main]: everything up to the call of
    [trainer.train()].  It hands on the tokenizer, the model with its
    adapter and the trainer. *)
Definition main_until_training (tuned_model_version : version_key)
    (dataset_path : string) : M (Tokenizer * Model * TrainerT) :=
  hf_directory <- resolve hf_directories_main tuned_model_version;;
  print ("Using model: " +:+ hf_directory);;
  tokenizer <- call (AutoTokenizer_from_pretrained hf_directory);;
  let tokenizer :=
    mkTokenizer (tok_impl tokenizer) true (Some 0%Z) "right" (model_max_length tokenizer) in
  let quantization_config_8bit := BitsAndBytesConfig.mk true (Some "float16") in
  model <- call (AutoModelForCausalLM_from_pretrained hf_directory
                   (ModelLoad.mk true "auto" quantization_config_8bit));;
  datasets <- prepare_datasets tokenizer tuned_model_version dataset_path;;
  let tokenized_train_dataset := datasets.1 in
  let tokenized_val_dataset := datasets.2 in
  call (Model_train_mode model);;
  model <- call (prepare_model_for_kbit_training model);;
  model <- call (get_peft_model model peft_config);;
  trainer <- call (Trainer_new model (training_args tuned_model_version)
                     tokenized_train_dataset tokenized_val_dataset
                     tokenizer (DataCollatorForSeq2Seq.mk 8 "pt" true)
                     [EarlyStoppingCallback 2]);;
  print ("Using device: " +:+ device);;
  mret (tokenizer, model, trainer).

(** Lines 182-198 of [main]: training, evaluation, saving. *)
Definition main_from_training (tuned_model_version : version_key)
    (tokenizer : Tokenizer) (model : Model) (trainer : TrainerT) : M unit :=
  call (Trainer_train trainer);;
  eval_results <- call (Trainer_evaluate trainer);;
  print ("Evaluation results: " +:+ metrics_str eval_results);;
  call (Model_save_pretrained model ("./" +:+ cache_dir tuned_model_version +:+ "/model"));;
  call (Tokenizer_save_pretrained tokenizer
          ("./" +:+ cache_dir tuned_model_version +:+ "/tokenizer")).

(** Lines 217-243 of the generation driver: everything before the first
    turn of the loop.  It hands the loop the model with its adapter, the
    tokenizer, the number of records and the records in shuffled order. *)
Definition generation_setup (tuned_model_version : version_key)
    (input_file_path logs_file : string) : M (Model * Tokenizer * nat * list json) :=
  hf_directory <- resolve hf_directories_gen tuned_model_version;;
  print ("Using model: " +:+ hf_directory);;
  let quantization_config_8bit := BitsAndBytesConfig.mk true None in
  model <- call (AutoModelForCausalLM_from_pretrained hf_directory
                   (ModelLoad.mk true "auto" quantization_config_8bit));;
  tokenizer <- call (AutoTokenizer_from_pretrained hf_directory);;
  let output_dir := "./" +:+ cache_dir tuned_model_version +:+ "/model" in
  model <- call (PeftModel_from_pretrained model output_dir);;
  text <- read_text input_file_path;;
  data <- lift (json_loads text);;
  data_len <- lift (py_len data);;
  data <- py_random_shuffle data;;
  open_w logs_file;;
  entries <- lift (py_iter data);;
  mret (model, tokenizer, data_len, entries).

(** Lines 277-282: what follows the loop. *)
Definition generation_finish (output_file_path logs_file : string)
    (processed_data : list json) : M unit :=
  print ("All responses are saved in " +:+ logs_file);;
  open_w output_file_path;;
  write output_file_path (json_dumps (Some 4) (JArr processed_data));;
  print ("All hyperparameters have been successfully saved to " +:+ output_file_path).

End DriverParts.

(** ** A second executable framework, with model attributes

    Like [Ref], but a model is a record of what peft and transformers read
    off it: whether it was loaded in 8 bit, whether gradient checkpointing is
    enabled, which adapter it carries.  [prepare_model_for_kbit_training]
    enables checkpointing on a model loaded in 8 bit, [get_peft_model]
    attaches the adapter, and a trainer is the model it trains, with
    checkpointing switched on as well when the training arguments ask for
    it. *)

Module PeftRef.

Record model_state := mk_model {
  model_name : string;
  loaded_in_8bit : bool;
  gradient_checkpointing : bool;
  adapter : option LoraConfig.t }.

#[export] Instance peft_types : FrameworkTypes := {|
  TokImpl := unit;
  Model := model_state;
  Encoding := string;
  OutputRow := string;
  TrainerT := model_state;
  Metrics := unit;
  Env := nat |}.

Definition peft_handle {A : Type} (c : fcall A) (d : gmap string node) (e : nat)
  : result A * nat :=
  match c in fcall T return result T * nat with
  | AutoTokenizer_from_pretrained name => (Ok (mkTokenizer tt false None "left" 4096), e)
  | AutoModelForCausalLM_from_pretrained name opts =>
      (Ok (mk_model name
             (BitsAndBytesConfig.load_in_8bit (ModelLoad.quantization_config opts))
             false None), e)
  | load_dataset fmt data_files =>
      match d !! data_files with
      | Some (File text) => (Ok [("train", Ref.parse text)], e)
      | _ => (Raise (FileNotFoundError data_files), e)
      end
  | Dataset_shuffle rows seed => (Ok (rotate (Z.to_nat seed) rows), e)
  | Dataset_train_test_split rows test_size =>
      let shuffled := rotate e rows in
      let n_test := Ref.test_count test_size (length rows) in
      (Ok [("train", drop n_test shuffled); ("test", take n_test shuffled)], S e)
  | os_cpu_count => (Ok (Some 8%Z), e)
  | Dataset_map rows f num_proc =>
      if decide (num_proc <= 0)%Z
      then (Raise (ValueError "num_proc must be an integer > 0."), e)
      else (Ref.map_rows f rows, e)
  | Model_train_mode m => (Ok tt, e)
  | prepare_model_for_kbit_training m =>
      (Ok (mk_model (model_name m) (loaded_in_8bit m)
             (gradient_checkpointing m || loaded_in_8bit m) (adapter m)), e)
  | get_peft_model m c =>
      (Ok (mk_model (model_name m) (loaded_in_8bit m) (gradient_checkpointing m)
             (Some c)), e)
  | Trainer_new m args train_dataset eval_dataset tok collator callbacks =>
      (Ok (mk_model (model_name m) (loaded_in_8bit m)
             (gradient_checkpointing m || TrainingArguments.gradient_checkpointing args)
             (adapter m)), e)
  | Trainer_train t => (Ok tt, e)
  | Trainer_evaluate t => (Ok tt, e)
  | Model_save_pretrained m dir => (Ok tt, e)
  | Tokenizer_save_pretrained tok dir => (Ok tt, e)
  | PeftModel_from_pretrained m dir => (Ok m, e)
  | random_shuffle l => (Ok (rotate e l), S e)
  | BatchEncoding_to enc dev => (Ok enc, e)
  | Model_generate m inputs max_new_tokens pad => (Ok [inputs +:+ " lr=0.01 "], e)
  end.

#[export] Instance peft_framework : Framework := {|
  handle := @peft_handle;
  tokenizer_call := fun tok text opts => Ok text;
  tokenizer_decode := fun tok row skip_special_tokens => Ok row;
  json_loads := fun text => Ok (JArr (Ref.parse text));
  json_dumps := fun indent v => Ref.dumps_compact v;
  repr := fun v => match v with JInt n => pretty n | JFloat lit => lit | _ => "?" end;
  float_repr := fun q => pretty (Qnum (this q)) +:+ "/" +:+ pretty (Zpos (Qden (this q)));
  metrics_str := fun m => "{}";
  device := "cpu" |}.

(** The attributes, read off the model. *)
Definition attributes : ModelAttributes := {|
  is_loaded_in_8bit := fun m _ => loaded_in_8bit m;
  is_gradient_checkpointing := fun m _ => gradient_checkpointing m |}.

(** A disk with a five-record dataset and no cache. *)
Definition peft_world0 : World :=
  mkWorld {[ "Dataset/LEMUR_prepared_2.json" := File "abcde" ]} 0 [].

End PeftRef.

(** * Properties *)

(** ** The string operations *)

Module PyStrFacts.
Import PyStr.

Lemma strip_prefix_Some p s r : strip_prefix p s = Some r <-> s = p ++ r.
Proof.
  revert s; induction p as [|a p IH]; intros [|b s]; simpl;
    try (split; congruence).
  destruct (decide (a = b)) as [->|Hne].
  - rewrite IH. split; congruence.
  - split; congruence.
Qed.

Lemma cut_Some sep s a r :
  cut sep s = Some (a, r) ->
  s = a ++ sep ++ r /\
  forall a' r', s = a' ++ sep ++ r' -> length a <= length a'.
Proof.
  revert a; induction s as [|c s IH]; intros a; simpl.
  - destruct (strip_prefix sep []) as [rest|] eqn:E; [|discriminate].
    intros [= <- <-]. apply strip_prefix_Some in E. split; [done|simpl; lia].
  - destruct (strip_prefix sep (c :: s)) as [rest|] eqn:E.
    + intros [= <- <-]. apply strip_prefix_Some in E. split; [done|simpl; lia].
    + destruct (cut sep s) as [[a0 r0]|] eqn:E0; [|discriminate].
      intros [= <- <-]. destruct (IH _ eq_refl) as [-> Hmin].
      split; [done|]. intros [|c' a'] r' Heq.
      * simpl in Heq. apply strip_prefix_Some in Heq. congruence.
      * simpl in Heq. injection Heq as -> Heq. apply Hmin in Heq. simpl; lia.
Qed.

Lemma cut_None sep s : cut sep s = None <-> ~ occurs sep s.
Proof.
  induction s as [|c s IH]; simpl.
  - destruct (strip_prefix sep []) as [rest|] eqn:E.
    + apply strip_prefix_Some in E. split; [discriminate|].
      intros H; destruct H. by exists [], rest.
    + split; [|done]. intros _ (a & b & Heq).
      destruct a; [|discriminate]. simpl in Heq.
      apply strip_prefix_Some in Heq. congruence.
  - destruct (strip_prefix sep (c :: s)) as [rest|] eqn:E.
    + apply strip_prefix_Some in E. split; [discriminate|].
      intros H; destruct H. by exists [], rest.
    + destruct (cut sep s) as [[a0 r0]|] eqn:E0.
      * split; [discriminate|]. intros H; destruct H.
        apply cut_Some in E0 as [-> _]. by exists (c :: a0), r0.
      * split; [|done]. intros _ (a & b & Heq). destruct a as [|c' a].
        -- simpl in Heq. apply strip_prefix_Some in Heq. congruence.
        -- simpl in Heq. injection Heq as -> Heq.
           apply (proj1 IH eq_refl). by exists a, b.
Qed.

Lemma split_pieces_unfold sep s :
  sep <> [] ->
  split_pieces sep s =
    match cut sep s with
    | None => [s]
    | Some (a, rest) => a :: split_pieces sep rest
    end.
Proof.
  intros Hsep. simp split_pieces.
  destruct (cut sep s) as [[a rest]|] eqn:E; simpl; [|done].
  destruct (decide (length rest < length s)) as [Hlt|Hge]; simpl; [done|].
  exfalso. apply cut_Some in E as [-> _]. apply Hge.
  rewrite !length_app. destruct sep; [done|simpl; lia].
Qed.

Lemma split_pieces_last_is_Some sep s : is_Some (last (split_pieces sep s)).
Proof.
  simp split_pieces. destruct (cut sep s) as [[a rest]|]; simpl; [|by eexists].
  destruct (decide (length rest < length s)); simpl; [|by eexists].
  rewrite last_cons. destruct (last (split_pieces sep rest)); by eexists.
Qed.

(** Two occurrences of an unbordered separator do not overlap. *)
Lemma unbordered_no_overlap sep a r pre post :
  unbordered sep ->
  a ++ sep ++ r = pre ++ sep ++ post ->
  length a < length pre ->
  length a + length sep <= length pre.
Proof.
  intros Hub Heq Hlt.
  destruct (decide (length a + length sep <= length pre)) as [|Hov]; [done|].
  exfalso.
  set (d := length pre - length a).
  assert (Hd : 0 < d < length sep) by (unfold d; lia).
  assert (H1 : drop (length a) (a ++ sep ++ r) = sep ++ r)
    by (by rewrite drop_app_length).
  rewrite Heq in H1.
  rewrite <- (take_drop (length a) pre) in H1 at 1.
  rewrite <- app_assoc in H1.
  rewrite drop_app_length' in H1 by (rewrite length_take; lia).
  assert (H2 : drop d (drop (length a) pre ++ sep ++ post) = sep ++ post).
  { rewrite drop_app_length'; [done|]. rewrite length_drop. done. }
  rewrite H1 in H2. rewrite drop_app_le in H2 by lia.
  assert (H3 : take (length sep - d) (drop d sep ++ r) = drop d sep).
  { rewrite take_app_length'; [done|]. rewrite length_drop. done. }
  rewrite H2 in H3. rewrite take_app_le in H3 by lia.
  unfold unbordered in Hub. rewrite Forall_forall in Hub.
  apply (Hub (length sep - d)).
  - apply elem_of_seq. lia.
  - rewrite H3. f_equal. lia.
Qed.

(** The last piece of a split is what follows the last occurrence. *)
Lemma split_pieces_last_after sep s pre post :
  sep <> [] -> unbordered sep ->
  s = pre ++ sep ++ post ->
  (forall pre' post', s = pre' ++ sep ++ post' -> length pre' <= length pre) ->
  last (split_pieces sep s) = Some post.
Proof.
  intros Hsep Hub. remember (length s) as n eqn:Hn.
  revert s pre Hn. induction (lt_wf n) as [n _ IH]. intros s pre -> Hs Hlast.
  rewrite split_pieces_unfold by done.
  destruct (cut sep s) as [[a rest]|] eqn:E.
  2:{ apply cut_None in E. destruct E. by exists pre, post. }
  apply cut_Some in E as [Hs' Hfirst].
  assert (Hsl : 0 < length sep) by (destruct sep; [done|simpl; lia]).
  pose proof (Hfirst _ _ Hs) as Hle.
  destruct (split_pieces_last_is_Some sep rest) as [x Hx].
  rewrite last_cons, Hx.
  destruct (decide (length a = length pre)) as [Hal|Hal].
  - assert (a = pre /\ rest = post) as [-> ->].
    { rewrite Hs in Hs'. apply app_inj_1 in Hs' as [-> H2]; [|done].
      by apply app_inv_head in H2 as ->. }
    rewrite split_pieces_unfold in Hx by done.
    destruct (cut sep post) as [[a2 r2]|] eqn:E2; [|by injection Hx as ->].
    apply cut_Some in E2 as [-> _].
    specialize (Hlast (pre ++ sep ++ a2) r2).
    rewrite Hs, <- !app_assoc in Hlast. specialize (Hlast eq_refl).
    rewrite !length_app in Hlast. lia.
  - assert (Hov : length a + length sep <= length pre).
    { eapply unbordered_no_overlap; [done| |lia]. by rewrite <- Hs', <- Hs. }
    assert (Hpre : pre = a ++ sep ++ drop (length a + length sep) pre).
    { rewrite <- (take_drop (length a + length sep) pre) at 1.
      rewrite app_assoc. f_equal.
      assert (Ht : take (length a + length sep) s = a ++ sep).
      { rewrite Hs', app_assoc. rewrite take_app_length'; [done|].
        by rewrite length_app. }
      rewrite Hs in Ht. by rewrite take_app_le in Ht by lia. }
    set (pre2 := drop (length a + length sep) pre) in *.
    assert (Hrest : rest = pre2 ++ sep ++ post).
    { rewrite Hs, Hpre, <- !app_assoc in Hs'.
      apply app_inv_head in Hs'. by apply app_inv_head in Hs'. }
    rewrite <- Hx. eapply (IH (length rest)); [|done|exact Hrest|].
    + rewrite Hs', !length_app. lia.
    + intros pre' post' Heq.
      specialize (Hlast (a ++ sep ++ pre') post').
      rewrite Hs', Heq, <- !app_assoc in Hlast. specialize (Hlast eq_refl).
      rewrite Hpre in Hlast. rewrite !length_app in Hlast. lia.
Qed.

(** With no occurrence at all, [split] returns the text itself. *)
Lemma split_pieces_absent sep s :
  ~ occurs sep s -> split_pieces sep s = [s].
Proof.
  intros Hno. apply cut_None in Hno. simp split_pieces. by rewrite Hno.
Qed.

(** The last piece never contains the separator. *)
Lemma split_pieces_last_free sep s x :
  sep <> [] -> last (split_pieces sep s) = Some x -> ~ occurs sep x.
Proof.
  intros Hsep. remember (length s) as n eqn:Hn.
  revert s Hn. induction (lt_wf n) as [n _ IH]. intros s ->.
  rewrite split_pieces_unfold by done.
  destruct (cut sep s) as [[a rest]|] eqn:E.
  - destruct (split_pieces_last_is_Some sep rest) as [y Hy].
    rewrite last_cons, Hy. intros [= <-].
    apply cut_Some in E as [-> _].
    eapply (IH (length rest)); [|done|done].
    rewrite !length_app. destruct sep; [done|simpl; lia].
  - intros [= <-]. by apply cut_None.
Qed.

Lemma last_occurrence_None sep s :
  sep <> [] -> last_occurrence sep s = None -> ~ occurs sep s.
Proof.
  intros Hsep. induction s as [|c s IH]; simpl.
  - intros _ (a & b & Heq). destruct a, sep; done.
  - destruct (last_occurrence sep s); [done|].
    destruct (strip_prefix sep (c :: s)) eqn:E; [done|].
    intros _ ([|c' a] & b & Heq); simpl in Heq.
    + apply strip_prefix_Some in Heq. congruence.
    + injection Heq as -> Heq. apply IH; [done|]. by exists a, b.
Qed.

Lemma last_occurrence_Some sep s i :
  sep <> [] -> last_occurrence sep s = Some i ->
  exists pre post,
    s = pre ++ sep ++ post /\ length pre = i /\
    forall pre' post', s = pre' ++ sep ++ post' -> length pre' <= i.
Proof.
  intros Hsep. revert i.
  induction s as [|c s IH]; intros i; simpl.
  - destruct sep; done.
  - destruct (last_occurrence sep s) as [i'|] eqn:E.
    + intros [= <-]. destruct (IH _ eq_refl) as (pre & post & -> & <- & Hmax).
      exists (c :: pre), post. split_and!; [done..|].
      intros [|c' pre'] post' Heq; simpl in *; [lia|].
      injection Heq as -> Heq. apply Hmax in Heq. lia.
    + destruct (strip_prefix sep (c :: s)) as [r|] eqn:E2; [|done].
      intros [= <-]. apply strip_prefix_Some in E2.
      exists [], r. split_and!; [done..|].
      intros [|c' pre'] post' Heq; simpl in *; [lia|].
      injection Heq as -> Heq. destruct (last_occurrence_None _ _ Hsep E). by exists pre', post'.
Qed.

(** [s.split(sep)[-1]] is [s[s.rfind(sep) + len(sep):]] when [sep] occurs. *)
Lemma split_pieces_last_rfind sep s i :
  sep <> [] -> unbordered sep ->
  last_occurrence sep s = Some i ->
  last (split_pieces sep s) = Some (drop (i + length sep) s).
Proof.
  intros Hsep Hub Hi.
  destruct (last_occurrence_Some _ _ _ Hsep Hi) as (pre & post & Hs & <- & Hmax).
  rewrite (split_pieces_last_after sep s pre post) by done.
  f_equal. rewrite Hs, app_assoc.
  rewrite drop_app_length'; [done|]. by rewrite length_app.
Qed.

Lemma lstrip_spec s :
  exists w, s = w ++ lstrip s /\ forallb isspace w = true /\
            (forall c t, lstrip s = c :: t -> isspace c = false).
Proof.
  induction s as [|c s (w & Hs & Hw & Hhd)]; simpl.
  - exists []. split_and!; done.
  - destruct (isspace c) eqn:E.
    + exists (c :: w). simpl. rewrite E, Hw. split_and!; [congruence|done..].
    + exists []. split_and!; [done..|]. by intros ?? [= <- <-].
Qed.

Lemma rstrip_spec s :
  exists w, s = rstrip s ++ w /\ forallb isspace w = true /\
            (forall c, last (rstrip s) = Some c -> isspace c = false).
Proof.
  unfold rstrip. destruct (lstrip_spec (rev s)) as (w & Hs & Hw & Hhd).
  exists (rev w). split_and!.
  - rewrite <- rev_app_distr, <- Hs. by rewrite rev_involutive.
  - rewrite forallb_forall in *. intros c Hc. apply Hw. by apply in_rev.
  - intros c Hc. destruct (lstrip (rev s)) as [|c' t] eqn:E; [done|].
    simpl in Hc. rewrite last_snoc in Hc. injection Hc as <-. by eapply Hhd.
Qed.

(** [strip] removes a run of whitespace at each end and nothing else. *)
Lemma strip_spec s :
  exists a b, s = a ++ strip s ++ b /\
              forallb isspace a = true /\ forallb isspace b = true.
Proof.
  unfold strip. destruct (lstrip_spec s) as (a & Hs & Ha & _).
  destruct (rstrip_spec (lstrip s)) as (b & Hs' & Hb & _).
  exists a, b. split_and!; [|done..]. by rewrite <- Hs', <- Hs.
Qed.

Lemma strip_preserves_absent sep s : ~ occurs sep s -> ~ occurs sep (strip s).
Proof.
  intros Hno (x & y & Heq). apply Hno.
  destruct (strip_spec s) as (a & b & Hs & _).
  exists (a ++ x), (y ++ b). rewrite Hs at 1. rewrite Heq.
  by rewrite <- !app_assoc.
Qed.

Lemma of_string_app (a b : string) :
  of_string (a +:+ b) = of_string a ++ of_string b.
Proof. induction a as [|c a IH]; simpl; [done|]. by rewrite IH. Qed.

Lemma of_string_length (a : string) : length (of_string a) = String.length a.
Proof. induction a as [|c a IH]; simpl; [done|]. by rewrite IH. Qed.

Lemma of_to_string (l : chars) : of_string (to_string l) = l.
Proof. apply list_ascii_of_string_of_list_ascii. Qed.

Lemma to_of_string (s : string) : to_string (of_string s) = s.
Proof. apply string_of_list_ascii_of_string. Qed.

End PyStrFacts.

(** ** More on the string operations *)

Module PyStrMore.
Import PyStr PyStrFacts.

(** With an unbordered separator, an occurrence followed by separator-free
    text is the last one. *)
Lemma split_pieces_last_tail_free sep s pre post :
  sep <> [] -> unbordered sep ->
  s = pre ++ sep ++ post -> ~ occurs sep post ->
  last (split_pieces sep s) = Some post.
Proof.
  intros Hsep Hub Hs Hfree.
  apply (split_pieces_last_after sep s pre post); [done..|].
  intros pre' post' Hs'.
  destruct (decide (length pre' <= length pre)) as [|Hgt]; [done|].
  exfalso. apply Hfree.
  assert (Hov : length pre + length sep <= length pre').
  { eapply unbordered_no_overlap; [done| |lia]. by rewrite <- Hs, <- Hs'. }
  exists (drop (length pre + length sep) pre'), post'.
  assert (H : drop (length pre + length sep) s = post).
  { rewrite Hs, app_assoc. rewrite drop_app_length'; [done|]. by rewrite length_app. }
  rewrite <- H, Hs'. by rewrite drop_app_le.
Qed.

Lemma lstrip_spaces w : forallb isspace w = true -> lstrip w = [].
Proof.
  induction w as [|c w IH]; simpl; [done|].
  destruct (isspace c); [done|discriminate].
Qed.

Lemma lstrip_app_spaces w s : forallb isspace w = true -> lstrip (w ++ s) = lstrip s.
Proof.
  induction w as [|c w IH]; simpl; [done|].
  destruct (isspace c); [done|discriminate].
Qed.

Lemma lstrip_fixed c t : isspace c = false -> lstrip (c :: t) = c :: t.
Proof. intros H. simpl. by rewrite H. Qed.

Lemma rstrip_app_spaces s w : forallb isspace w = true -> rstrip (s ++ w) = rstrip s.
Proof.
  intros Hw. unfold rstrip. rewrite rev_app_distr, lstrip_app_spaces; [done|].
  rewrite forallb_forall in *. intros c Hc. apply Hw. by apply in_rev.
Qed.

Lemma rstrip_fixed s c : last s = Some c -> isspace c = false -> rstrip s = s.
Proof.
  intros Hlast Hc. unfold rstrip.
  destruct (rev s) as [|c' t] eqn:E.
  - apply (f_equal (@rev _)) in E. rewrite rev_involutive in E. by subst.
  - assert (c' = c) as ->.
    { apply (f_equal (@rev _)) in E. rewrite rev_involutive in E. simpl in E.
      subst s. rewrite last_snoc in Hlast. congruence. }
    rewrite lstrip_fixed by done. rewrite <- E. apply rev_involutive.
Qed.

(** Stripping keeps a leading character that is not whitespace. *)
Lemma rstrip_head c t : isspace c = false -> exists t', rstrip (c :: t) = c :: t'.
Proof.
  intros Hc. destruct (rstrip_spec (c :: t)) as (w & Hs & Hw & _).
  destruct (rstrip (c :: t)) as [|c' t'] eqn:E.
  - simpl in Hs. subst w. simpl in Hw. by rewrite Hc in Hw.
  - injection Hs as <- _. eauto.
Qed.

Lemma strip_no_leading_space s c t : strip s = c :: t -> isspace c = false.
Proof.
  unfold strip. destruct (lstrip_spec s) as (w & _ & _ & Hhd).
  destruct (lstrip s) as [|c0 t0] eqn:E; [done|].
  pose proof (Hhd _ _ eq_refl) as Hc0.
  destruct (rstrip_head c0 t0 Hc0) as [t' ->]. by intros [= <- _].
Qed.

Lemma strip_no_trailing_space s c : last (strip s) = Some c -> isspace c = false.
Proof.
  unfold strip. destruct (rstrip_spec (lstrip s)) as (w & _ & _ & Hlast). apply Hlast.
Qed.

Lemma strip_idemp s : strip (strip s) = strip s.
Proof.
  destruct (strip s) as [|c t] eqn:E; [done|].
  pose proof (strip_no_leading_space _ _ _ E) as Hc.
  unfold strip. rewrite lstrip_fixed by done.
  destruct (last (c :: t)) as [c'|] eqn:El; [|by apply last_None in El].
  apply (rstrip_fixed _ c'); [done|].
  apply (strip_no_trailing_space s). by rewrite E.
Qed.

(** Whitespace around a text does not change what [strip] returns. *)
Lemma strip_app_spaces w1 s w2 :
  forallb isspace w1 = true -> forallb isspace w2 = true ->
  strip (w1 ++ s ++ w2) = strip s.
Proof.
  intros H1 H2. unfold strip. rewrite lstrip_app_spaces by done.
  destruct (lstrip_spec s) as (a & Hs & Ha & Hhd).
  destruct (lstrip s) as [|c t] eqn:E.
  - rewrite app_nil_r in Hs. subst a. rewrite lstrip_spaces; [done|].
    rewrite forallb_app. by rewrite Ha, H2.
  - rewrite Hs at 1. rewrite <- app_assoc, lstrip_app_spaces by done.
    simpl app. rewrite lstrip_fixed by eauto.
    change (c :: t ++ w2) with ((c :: t) ++ w2).
    by rewrite rstrip_app_spaces.
Qed.

(** An occurrence of a separator that begins with a non-blank character
    cannot begin inside leading whitespace. *)
Lemma occurs_after_spaces sep c0 w s :
  head sep = Some c0 -> isspace c0 = false ->
  forallb isspace w = true ->
  occurs sep (w ++ s) -> occurs sep s.
Proof.
  intros Hhd Hc0. induction w as [|x w IH]; simpl; [done|].
  destruct (isspace x) eqn:Hx; [|discriminate]. intros Hw ([|y a] & b & Heq).
  - destruct sep as [|c sep]; [done|]. simpl in *. congruence.
  - simpl in Heq. injection Heq as _ Heq. apply IH; [done|]. by exists a, b.
Qed.

Lemma occurs_rev sep s : occurs sep s -> occurs (rev sep) (rev s).
Proof.
  intros (a & b & ->). exists (rev b), (rev a).
  by rewrite !rev_app_distr, <- app_assoc.
Qed.

(** Nor can one that ends with a non-blank character end inside trailing
    whitespace. *)
Lemma occurs_before_spaces sep c0 w s :
  last sep = Some c0 -> isspace c0 = false ->
  forallb isspace w = true ->
  occurs sep (s ++ w) -> occurs sep s.
Proof.
  intros Hlast Hc0 Hw Hocc.
  apply occurs_rev in Hocc. rewrite rev_app_distr in Hocc.
  apply (occurs_after_spaces _ c0) in Hocc.
  - apply occurs_rev in Hocc. by rewrite !rev_involutive in Hocc.
  - destruct (rev sep) as [|c t] eqn:E.
    + apply (f_equal (@rev _)) in E. rewrite rev_involutive in E. by subst.
    + apply (f_equal (@rev _)) in E. rewrite rev_involutive in E. simpl in E.
      subst sep. rewrite last_snoc in Hlast. simpl. congruence.
  - done.
  - rewrite forallb_forall in *. intros c Hc. apply Hw. by apply in_rev.
Qed.

End PyStrMore.

(** ** Running the definitions *)

Example extract_response_ex1 :
  extract_response ("### Input: x" +:+ nl +:+ "### Response:" +:+ nl +:+ " lr=0.1 " +:+ nl)
  = Ok "lr=0.1".
Proof. reflexivity. Qed.

Example extract_response_ex2 : extract_response "  no marker here " = Ok "no marker here".
Proof. reflexivity. Qed.

Example dict_get_ex1 : dict_get hf_directories_main (VInt 4)
                       = Some "deepseek-ai/DeepSeek-R1-Distill-Qwen-7B".
Proof. vm_compute. reflexivity. Qed.

Example dict_get_ex2 : dict_get hf_directories_main (VFloat (Q2Qc 3.5))
                       = Some "deepseek-ai/deepseek-coder-1.3b-base".
Proof. vm_compute. reflexivity. Qed.

Example dict_get_ex3 : dict_get hf_directories_gen (VInt 8) = None.
Proof. vm_compute. reflexivity. Qed.

(** ** Response extraction (line 264) *)

Section Extraction.
Import PyStr PyStrFacts PyStrMore.

Lemma response_marker_unbordered : unbordered (of_string response_marker).
Proof. apply (bool_decide_unpack _). vm_compute. exact I. Qed.

Lemma response_marker_nonempty : of_string response_marker <> [].
Proof. discriminate. Qed.

Lemma py_in_spec sep s : py_in sep s = true <-> str_contains sep s.
Proof.
  unfold py_in, str_contains.
  destruct (cut (of_string sep) (of_string s)) as [[a r]|] eqn:E.
  - split; [intros _|done]. apply cut_Some in E as [E _].
    exists (to_string a), (to_string r).
    rewrite <- (to_of_string s), E, <- (to_of_string sep).
    rewrite <- (of_to_string a) at 1. rewrite <- (of_to_string r) at 1.
    by rewrite <- !of_string_app, !to_of_string.
  - split; [done|]. intros (a & b & ->). apply cut_None in E. destruct E.
    exists (of_string a), (of_string b). by rewrite !of_string_app.
Qed.

Lemma py_in_false sep s : py_in sep s = false <-> ~ str_contains sep s.
Proof. rewrite <- py_in_spec. by destruct (py_in sep s). Qed.

Lemma py_split_response_marker s :
  py_split response_marker s =
  Ok (to_string <$> split_pieces (of_string response_marker) (of_string s)).
Proof. reflexivity. Qed.

(** The extraction never raises: it returns the last piece, stripped. *)
Lemma extract_response_last decoded :
  exists x, last (split_pieces (of_string response_marker) (of_string decoded)) = Some x /\
            extract_response decoded = Ok (to_string (strip x)).
Proof.
  destruct (split_pieces_last_is_Some (of_string response_marker) (of_string decoded))
    as [x Hx].
  exists x. split; [done|].
  unfold extract_response. rewrite py_split_response_marker.
  unfold py_last, rbind. rewrite fmap_last, Hx. simpl. unfold py_strip. by rewrite of_to_string.
Qed.

Lemma occurs_str_contains sep s :
  occurs (of_string sep) (of_string s) -> str_contains sep s.
Proof.
  intros (a & b & Heq). exists (to_string a), (to_string b).
  rewrite <- (to_of_string s), Heq, <- (to_of_string sep).
  rewrite <- (of_to_string a) at 1. rewrite <- (of_to_string b) at 1.
  by rewrite <- !of_string_app, !to_of_string.
Qed.

Lemma str_contains_occurs sep s :
  str_contains sep s -> occurs (of_string sep) (of_string s).
Proof.
  intros (a & b & ->). exists (of_string a), (of_string b). by rewrite !of_string_app.
Qed.

Lemma to_string_app (a b : chars) : to_string (a ++ b) = to_string a +:+ to_string b.
Proof. induction a as [|c a IH]; simpl; [done|]. by rewrite IH. Qed.

Lemma forallb_Forall_isspace w :
  forallb isspace w = true <-> Forall (fun c => isspace c = true) w.
Proof.
  rewrite forallb_forall, Forall_forall. split; intros H c Hc; apply H.
  - by apply list_elem_of_In.
  - by apply list_elem_of_In.
Qed.

(** A text with no whitespace at either end is left as it is. *)
Lemma strip_fixed r :
  (forall c t, r = c :: t -> isspace c = false) ->
  (forall c, last r = Some c -> isspace c = false) ->
  strip r = r.
Proof.
  intros Hhd Hlast. unfold strip. destruct r as [|c t]; [done|].
  rewrite lstrip_fixed by eauto.
  destruct (last (c :: t)) as [c'|] eqn:El; [|by apply last_None in El].
  apply (rstrip_fixed _ c'); eauto.
Qed.

(** [strip] trims. *)
Lemma py_strip_trimmed s : trimmed s (py_strip s).
Proof.
  unfold trimmed, py_strip. split_and!.
  - destruct (strip_spec (of_string s)) as (a & b & Hs & Ha & Hb).
    exists (to_string a), (to_string b). split_and!.
    + rewrite <- !to_string_app, <- Hs. by rewrite to_of_string.
    + unfold blank. rewrite of_to_string. by apply forallb_Forall_isspace.
    + unfold blank. rewrite of_to_string. by apply forallb_Forall_isspace.
  - intros c t. rewrite of_to_string. apply strip_no_leading_space.
  - intros c. rewrite of_to_string. apply strip_no_trailing_space.
Qed.

(** And nothing else is the text trimmed. *)
Lemma trimmed_unique s r : trimmed s r -> r = py_strip s.
Proof.
  intros ((a & b & -> & Ha & Hb) & Hhd & Hlast). unfold py_strip.
  rewrite !of_string_app.
  rewrite strip_app_spaces by (by apply forallb_Forall_isspace).
  rewrite strip_fixed by done. by rewrite to_of_string.
Qed.

(** What [substring_after_last] returns is preceded by the separator and
    does not contain it again. *)
Lemma substring_after_last_spec sep s tail :
  sep <> "" ->
  substring_after_last sep s = Some tail ->
  exists pre, s = pre +:+ sep +:+ tail /\ ~ str_contains sep tail.
Proof.
  intros Hsep. unfold substring_after_last.
  destruct (last_occurrence _ _) as [i|] eqn:Hi; [|done]. intros [= <-].
  assert (Hne : of_string sep <> []) by (by destruct sep).
  destruct (last_occurrence_Some _ _ _ Hne Hi) as (pre & post & Hs & <- & Hmax).
  assert (Hdrop : drop (length pre + String.length sep) (of_string s) = post).
  { rewrite Hs, app_assoc, drop_app_length'; [done|].
    by rewrite length_app, of_string_length. }
  rewrite Hdrop. exists (to_string pre). split.
  - rewrite <- (to_of_string s) at 1. rewrite Hs, !to_string_app.
    by rewrite to_of_string.
  - intros Hc%str_contains_occurs. rewrite of_to_string in Hc.
    destruct Hc as (x & y & ->).
    specialize (Hmax (pre ++ of_string sep ++ x) y).
    rewrite Hs, <- !app_assoc in Hmax. specialize (Hmax eq_refl).
    rewrite !length_app in Hmax. destruct (of_string sep); [done|simpl in Hmax; lia].
Qed.

Lemma substring_after_last_Some sep s :
  sep <> "" -> str_contains sep s -> is_Some (substring_after_last sep s).
Proof.
  intros Hsep Hc%str_contains_occurs. unfold substring_after_last.
  destruct (last_occurrence _ _) eqn:E; [by eexists|].
  apply last_occurrence_None in E; [done|by destruct sep].
Qed.

(** C6: for every decoded output the extraction returns a string [r] that
    does not contain the marker "### Response:".  When the marker occurs in
    the output, there is a text after its last occurrence: the output is
    some text, the marker, and that text [tail], in which the marker does not
    occur again; and [r] is [tail] with the surrounding whitespace trimmed,
    that is, [tail] is [r] between two runs of whitespace and [r] has no
    whitespace at either end, which determines [r]. *)
Theorem extract_response_after_last_marker (decoded : string) :
  exists r,
    extract_response decoded = Ok r /\
    ~ str_contains response_marker r /\
    py_in response_marker r = false /\
    (str_contains response_marker decoded ->
       is_Some (substring_after_last response_marker decoded)) /\
    forall tail,
      substring_after_last response_marker decoded = Some tail ->
      (exists pre, decoded = pre +:+ response_marker +:+ tail /\
                   ~ str_contains response_marker tail) /\
      r = py_strip tail /\
      trimmed tail r /\
      (forall r', trimmed tail r' -> r' = r).
Proof.
  destruct (extract_response_last decoded) as (x & Hx & Hr).
  assert (Hfree : ~ str_contains response_marker (to_string (strip x))).
  { intros (a & b & Heq).
    apply (strip_preserves_absent (of_string response_marker) x).
    - eapply split_pieces_last_free; [apply response_marker_nonempty|done].
    - exists (of_string a), (of_string b).
      rewrite <- (of_to_string (strip x)), Heq. by rewrite !of_string_app. }
  eexists. split_and!; [done|done|by apply py_in_false| |].
  { by apply substring_after_last_Some. }
  intros tail Htail.
  assert (Hrt : to_string (strip x) = py_strip tail).
  { unfold substring_after_last in Htail.
    destruct (last_occurrence _ _) as [i|] eqn:Hi; [|done]. injection Htail as <-.
    rewrite (split_pieces_last_rfind _ _ i) in Hx;
      [|apply response_marker_nonempty|apply response_marker_unbordered|done].
    injection Hx as <-. unfold py_strip. by rewrite of_to_string. }
  split_and!.
  - by apply substring_after_last_spec.
  - done.
  - rewrite Hrt. apply py_strip_trimmed.
  - intros r' Hr'. rewrite Hrt. by apply trimmed_unique.
Qed.

Lemma extract_response_after_last_marker_witness :
  substring_after_last response_marker
    ("### Response: draft ### Response:" +:+ nl +:+ " lr=0.1 ")
  = Some (nl +:+ " lr=0.1 ") /\
  extract_response ("### Response: draft ### Response:" +:+ nl +:+ " lr=0.1 ")
  = Ok "lr=0.1" /\
  trimmed (nl +:+ " lr=0.1 ") "lr=0.1".
Proof.
  assert (Hlast : substring_after_last response_marker
            ("### Response: draft ### Response:" +:+ nl +:+ " lr=0.1 ")
          = Some (nl +:+ " lr=0.1 ")) by reflexivity.
  destruct (extract_response_after_last_marker
              ("### Response: draft ### Response:" +:+ nl +:+ " lr=0.1 "))
    as (r & Hr & _ & _ & _ & Htail).
  destruct (Htail _ Hlast) as (_ & Heq & Htrim & _).
  assert (Hv : r = "lr=0.1") by (rewrite Heq; reflexivity).
  rewrite Hv in Hr, Htrim. split_and!; [exact Hlast|exact Hr|exact Htrim].
Defined.

(** C10: when the decoded output does not contain the marker
    "### Response:", the extraction does not raise and returns the whole
    decoded output with the surrounding whitespace trimmed: the output is
    what is returned between two runs of whitespace, what is returned has no
    whitespace at either end, and nothing else is the output trimmed. *)
Theorem extract_response_without_marker (decoded : string) :
  ~ str_contains response_marker decoded ->
  py_in response_marker decoded = false /\
  extract_response decoded = Ok (py_strip decoded) /\
  trimmed decoded (py_strip decoded) /\
  (forall r, trimmed decoded r -> r = py_strip decoded).
Proof.
  intros Hno.
  split_and!; [by apply py_in_false| |apply py_strip_trimmed|apply trimmed_unique].
  destruct (extract_response_last decoded) as (x & Hx & ->).
  rewrite split_pieces_absent in Hx.
  - by injection Hx as <-.
  - intros Hocc. by apply Hno, occurs_str_contains.
Qed.

Lemma extract_response_without_marker_witness :
  extract_response "  lr=0.01, momentum=0.9  " = Ok "lr=0.01, momentum=0.9" /\
  trimmed "  lr=0.01, momentum=0.9  " "lr=0.01, momentum=0.9".
Proof.
  assert (Hno : ~ str_contains response_marker "  lr=0.01, momentum=0.9  ")
    by (apply py_in_false; vm_compute; reflexivity).
  destruct (extract_response_without_marker "  lr=0.01, momentum=0.9  " Hno)
    as (_ & Hr & Htrim & _).
  split; [exact Hr|exact Htrim].
Defined.

End Extraction.

(** ** The monad of the script *)

Section MonadFacts.
Context {FT : FrameworkTypes} {F : Framework}.

Lemma mbind_Ok {A B} (m : M A) (f : A -> M B) w b w' :
  mbind m f w = (Ok b, w') ->
  exists a w1, m w = (Ok a, w1) /\ f a w1 = (Ok b, w').
Proof.
  unfold mbind. destruct (m w) as [[a|e] w1]; [|discriminate]. eauto.
Qed.

Lemma mbind_Raise {A B} (m : M A) (f : A -> M B) w e w' :
  mbind m f w = (Raise e, w') ->
  m w = (Raise e, w') \/
  exists a w1, m w = (Ok a, w1) /\ f a w1 = (Raise e, w').
Proof.
  unfold mbind. destruct (m w) as [[a|e0] w1]; [eauto|].
  intros [= -> ->]. by left.
Qed.

Lemma lift_inv {A} (x : result A) w r w' :
  lift x w = (r, w') -> x = r /\ w' = w.
Proof. by intros [= -> ->]. Qed.

Lemma call_inv {A} (c : fcall A) w r w' :
  call c w = (r, w') ->
  exists e, handle c (disk w) (env w) = (r, e) /\
            w' = mkWorld (disk w) e (trace w ++ [EvCall c]).
Proof.
  unfold call. destruct (handle c (disk w) (env w)) as [x e].
  intros [= -> <-]. eauto.
Qed.

Lemma print_inv line w r w' :
  print line w = (r, w') ->
  r = Ok tt /\ w' = mkWorld (disk w) (env w) (trace w ++ [EvPrint line]).
Proof. by intros [= <- <-]. Qed.

Lemma write_inv path text w r w' :
  write path text w = (r, w') ->
  r = Ok tt /\
  w' = mkWorld (<[path := File (file_text (disk w) path +:+ text)]> (disk w))
               (env w) (trace w ++ [EvWrite path text]).
Proof. by intros [= <- <-]. Qed.

Lemma save_to_disk_Ok rows path w w' :
  save_to_disk rows path w = (Ok tt, w') ->
  w' = mkWorld (<[path := DatasetDir rows]> (disk w)) (env w)
               (trace w ++ [EvSaveToDisk path]).
Proof.
  unfold save_to_disk. destruct (disk w !! path) as [[]|]; by intros [= <-].
Qed.

Lemma open_w_Ok path w w' :
  open_w path w = (Ok tt, w') ->
  w' = mkWorld (<[path := File ""]> (disk w)) (env w) (trace w ++ [EvOpen path "w"]).
Proof.
  unfold open_w. destruct (disk w !! path) as [[]|]; by intros [= <-].
Qed.

Lemma open_w_Raise path w e w' :
  open_w path w = (Raise e, w') ->
  w' = mkWorld (disk w) (env w) (trace w ++ [EvOpen path "w"]).
Proof.
  unfold open_w. destruct (disk w !! path) as [[]|]; by intros [= <-].
Qed.

Lemma read_text_inv path w r w' :
  read_text path w = (r, w') ->
  w' = mkWorld (disk w) (env w) (trace w ++ [EvOpen path "r"]) /\
  (forall text, r = Ok text -> disk w !! path = Some (File text)).
Proof.
  unfold read_text. destruct (disk w !! path) as [[]|]; intros [= <- <-];
    (split; [done|]); by intros ? [= <-].
Qed.

Lemma resolve_inv table k w r w' : resolve table k w = (r, w') -> w' = w.
Proof. unfold resolve. destruct (dict_get table k); by intros [= _ <-]. Qed.

Lemma string_app_inv_head (a b c : string) : a +:+ b = a +:+ c -> b = c.
Proof. apply String.app_inj. Qed.

Lemma string_app_assoc (a b c : string) : (a +:+ b) +:+ c = a +:+ (b +:+ c).
Proof.
  induction a as [|x a IH]; [done|].
  change (String x ((a +:+ b) +:+ c) = String x (a +:+ (b +:+ c))).
  by rewrite IH.
Qed.

Lemma cache_paths_differ k : train_cache_path k <> val_cache_path k.
Proof. intros H. apply string_app_inv_head in H. discriminate. Qed.

End MonadFacts.

(** Takes the first step of a sequence that returned. *)
Ltac step_ok H :=
  let a := fresh "a" in
  let w1 := fresh "w" in
  let H1 := fresh "Hstep" in
  apply mbind_Ok in H as (a & w1 & H1 & H);
  first
    [ apply call_inv in H1 as (? & H1 & ->)
    | apply lift_inv in H1 as (H1 & ->)
    | apply print_inv in H1 as (_ & ->)
    | apply write_inv in H1 as (_ & ->)
    | destruct a; apply save_to_disk_Ok in H1 as ->
    | destruct a; apply open_w_Ok in H1 as ->
    | apply resolve_inv in H1 as ->
    | idtac ].

(** ** Model resolution *)

Lemma hf_directories_same : hf_directories_gen = hf_directories_main.
Proof. reflexivity. Qed.

Section Resolution.
Context {FT : FrameworkTypes} {F : Framework}.

(** C9: the table of the fine-tuning driver and the table of the generation
    driver resolve every version key alike: both give the same model
    identifier, or both raise the unknown-version error. *)
Theorem drivers_resolve_alike (k : version_key) (w : World) :
  dict_get hf_directories_main k = dict_get hf_directories_gen k /\
  resolve hf_directories_main k w = resolve hf_directories_gen k w /\
  ((exists hf_directory,
       resolve hf_directories_main k w = (Ok hf_directory, w) /\
       resolve hf_directories_gen k w = (Ok hf_directory, w)) \/
   (resolve hf_directories_main k w
      = (Raise (ValueError ("Unknown model version: " +:+ version_str k)), w) /\
    resolve hf_directories_gen k w
      = (Raise (ValueError ("Unknown model version: " +:+ version_str k)), w))).
Proof.
  rewrite hf_directories_same. split_and!; [done..|].
  unfold resolve. destruct (dict_get hf_directories_main k) as [hf|].
  - left. by exists hf.
  - by right.
Qed.

(** C2: for a version key that is not in the table, both drivers raise the
    unknown-version error at once: no call into the framework is made, no
    file is touched and nothing is printed (the state, trace included, is
    the one they started from). *)
Theorem unknown_version_fails_first (k : version_key) :
  dict_get hf_directories_main k = None ->
  (forall dataset_path w,
      main k dataset_path w
      = (Raise (ValueError ("Unknown model version: " +:+ version_str k)), w)) /\
  (forall input_file_path output_file_path logs_file w,
      generating_response_cycle_model_finetuned
        k input_file_path output_file_path logs_file w
      = (Raise (ValueError ("Unknown model version: " +:+ version_str k)), w)).
Proof.
  intros Hk. split.
  - intros dataset_path w. unfold main, mbind, resolve. by rewrite Hk.
  - intros i o l w. unfold generating_response_cycle_model_finetuned, mbind, resolve.
    by rewrite hf_directories_same, Hk.
Qed.

End Resolution.

Section ResolutionRun.
Import Ref.

Lemma unknown_version_fails_first_witness :
  dict_get hf_directories_main (VInt 8) = None /\
  main (VInt 8) "Dataset/LEMUR_prepared_2.json" (Ref.world0 0)
  = (Raise (ValueError "Unknown model version: 8"), Ref.world0 0).
Proof.
  assert (H : dict_get hf_directories_main (VInt 8) = None)
    by (vm_compute; reflexivity).
  split; [exact H|].
  apply (proj1 (unknown_version_fails_first (VInt 8) H)).
Defined.

End ResolutionRun.

(** ** Traces *)

Section TraceFacts.
Context {FT : FrameworkTypes} {F : Framework}.
Implicit Types P Q : event -> Prop.

Lemma extends_refl P w : extends P w w.
Proof. exists []. by rewrite app_nil_r. Qed.

Lemma extends_trans P w1 w2 w3 :
  extends P w1 w2 -> extends P w2 w3 -> extends P w1 w3.
Proof.
  intros (evs1 & H1 & HP1) (evs2 & H2 & HP2). exists (evs1 ++ evs2).
  split; [by rewrite H2, H1, app_assoc|by apply Forall_app].
Qed.

Lemma extends_one P w d e ev :
  P ev -> extends P w (mkWorld d e (trace w ++ [ev])).
Proof. intros HP. exists [ev]. split; [done|by apply Forall_singleton]. Qed.

Lemma extends_impl P Q w w' :
  (forall ev, P ev -> Q ev) -> extends P w w' -> extends Q w w'.
Proof.
  intros HPQ (evs & H & HP). exists evs. split; [done|].
  by eapply Forall_impl.
Qed.

Lemma emits_mret {A} P (a : A) : emits P (mret a).
Proof. intros w. apply extends_refl. Qed.

Lemma emits_raise {A} P e : emits P (raise (A:=A) e).
Proof. intros w. apply extends_refl. Qed.

Lemma emits_lift {A} P (x : result A) : emits P (lift x).
Proof. intros w. apply extends_refl. Qed.

Lemma emits_mbind {A B} P (m : M A) (f : A -> M B) :
  emits P m -> (forall a, emits P (f a)) -> emits P (mbind m f).
Proof.
  intros Hm Hf w. unfold mbind. specialize (Hm w).
  destruct (m w) as [[a|e] w1]; simpl in *; [|done].
  eapply extends_trans; [done|apply Hf].
Qed.

Lemma emits_try_except {A} P (body : M A) handler :
  emits P body -> (forall e, emits P (handler e)) -> emits P (try_except body handler).
Proof.
  intros Hm Hf w. unfold try_except. specialize (Hm w).
  destruct (body w) as [[a|e] w1]; simpl in *; [done|].
  eapply extends_trans; [done|apply Hf].
Qed.

Lemma emits_print P line : P (EvPrint line) -> emits P (print line).
Proof. intros HP w. by apply extends_one. Qed.

Lemma emits_call {A} P (c : fcall A) : P (EvCall c) -> emits P (call c).
Proof.
  intros HP w. unfold call. destruct (handle c (disk w) (env w)).
  by apply extends_one.
Qed.

Lemma emits_load_from_disk P path :
  P (EvLoadFromDisk path) -> emits P (load_from_disk path).
Proof.
  intros HP w. unfold load_from_disk.
  destruct (disk w !! path) as [[]|]; by apply extends_one.
Qed.

Lemma emits_save_to_disk P rows path :
  P (EvSaveToDisk path) -> emits P (save_to_disk rows path).
Proof.
  intros HP w. unfold save_to_disk.
  destruct (disk w !! path) as [[]|]; by apply extends_one.
Qed.

Lemma emits_read_text P path : P (EvOpen path "r") -> emits P (read_text path).
Proof.
  intros HP w. unfold read_text.
  destruct (disk w !! path) as [[]|]; by apply extends_one.
Qed.

Lemma emits_open_w P path : P (EvOpen path "w") -> emits P (open_w path).
Proof.
  intros HP w. unfold open_w.
  destruct (disk w !! path) as [[]|]; by apply extends_one.
Qed.

Lemma emits_write P path text : P (EvWrite path text) -> emits P (write path text).
Proof. intros HP w. by apply extends_one. Qed.

Lemma emits_resolve P table k : emits P (resolve table k).
Proof.
  unfold resolve. destruct (dict_get table k); [apply emits_mret|apply emits_raise].
Qed.

Lemma performs_call {A} Q (c : fcall A) : Q (EvCall c) -> performs Q (call c).
Proof.
  intros HQ w a w' (e & _ & ->)%call_inv. exists [EvCall c].
  split; [done|by apply Exists_cons_hd].
Qed.

(** The call is made by the first part of a sequence. *)
Lemma performs_mbind_l {A B} Q (m : M A) (f : A -> M B) :
  performs Q m -> (forall a, emits (fun _ => True) (f a)) -> performs Q (mbind m f).
Proof.
  intros Hm Hf w b w' (a & w1 & H1 & H2)%mbind_Ok.
  destruct (Hm _ _ _ H1) as (evs1 & Ht1 & HQ).
  destruct (Hf a w1) as (evs2 & Ht2 & _). rewrite H2 in Ht2. simpl in Ht2.
  exists (evs1 ++ evs2). split; [by rewrite Ht2, Ht1, app_assoc|].
  apply Exists_app. by left.
Qed.

(** The call is made by what follows. *)
Lemma performs_mbind_r {A B} Q (m : M A) (f : A -> M B) :
  emits (fun _ => True) m -> (forall a, performs Q (f a)) -> performs Q (mbind m f).
Proof.
  intros Hm Hf w b w' (a & w1 & H1 & H2)%mbind_Ok.
  destruct (Hm w) as (evs1 & Ht1 & _). rewrite H1 in Ht1. simpl in Ht1.
  destruct (Hf _ _ _ _ H2) as (evs2 & Ht2 & HQ).
  exists (evs1 ++ evs2). split; [by rewrite Ht2, Ht1, app_assoc|].
  apply Exists_app. by right.
Qed.

End TraceFacts.

(** Follows the structure of a script through [emits]. *)
Ltac emits_structure :=
  repeat first
    [ apply emits_mbind; [|intros ?]
    | apply emits_try_except; [|intros ?]
    | apply emits_mret
    | apply emits_raise
    | apply emits_lift
    | apply emits_resolve
    | apply emits_print
    | apply emits_call
    | apply emits_load_from_disk
    | apply emits_save_to_disk
    | apply emits_read_text
    | apply emits_open_w
    | apply emits_write ].

(** ** The drivers and their parts *)

Section DriverPartsFacts.
Context {FT : FrameworkTypes} {F : Framework}.

Lemma mbind_assoc {A B C} (m : M A) (f : A -> M B) (g : B -> M C) w :
  mbind (mbind m f) g w = mbind m (fun a => mbind (f a) g) w.
Proof. unfold mbind. by destruct (m w) as [[a|e] w1]. Qed.

Lemma mbind_ext {A B} (m : M A) (f g : A -> M B) w :
  (forall a w1, f a w1 = g a w1) -> mbind m f w = mbind m g w.
Proof. intros H. unfold mbind. destruct (m w) as [[a|e] w1]; [apply H|done]. Qed.

(** Follows two scripts that differ only in how their steps are grouped. *)
Local Ltac regroup :=
  repeat (rewrite mbind_assoc; apply mbind_ext; intros ? ?); reflexivity.

(** [main] is its two parts, one after the other. *)
Lemma main_decomposed k path w :
  main k path w =
  mbind (main_until_training k path)
        (fun x => main_from_training k x.1.1 x.1.2 x.2) w.
Proof.
  symmetry. unfold main, main_until_training, main_from_training. cbv zeta. regroup.
Qed.

(** The generation driver is its setup, its loop and what follows. *)
Lemma generation_decomposed k inp out logs w :
  generating_response_cycle_model_finetuned k inp out logs w =
  mbind (generation_setup k inp logs)
        (fun x =>
           mbind (generation_loop x.1.1.1 x.1.1.2 logs x.1.2 0 x.2 [])
                 (fun processed_data => generation_finish out logs processed_data)) w.
Proof.
  symmetry. unfold generating_response_cycle_model_finetuned, generation_setup,
    generation_finish. cbv zeta. regroup.
Qed.

Lemma resolve_Ok table k w hf w' :
  resolve table k w = (Ok hf, w') -> dict_get table k = Some hf /\ w' = w.
Proof.
  unfold resolve. destruct (dict_get table k); [|done]. by intros [= -> ->].
Qed.

(** A first part of [main] that returns: the calls it has made, each in the
    hidden state the one before left. *)
Lemma main_until_training_Ok k path w tok model trainer w_t :
  main_until_training k path w = (Ok (tok, model, trainer), w_t) ->
  exists hf tok0 e1 base e2 w_p tr va w_d e3 prepared e4 e5,
    dict_get hf_directories_main k = Some hf /\
    handle (AutoTokenizer_from_pretrained hf) (disk w) (env w) = (Ok tok0, e1) /\
    tok = mkTokenizer (tok_impl tok0) true (Some 0%Z) "right" (model_max_length tok0) /\
    handle (AutoModelForCausalLM_from_pretrained hf
              (ModelLoad.mk true "auto" (BitsAndBytesConfig.mk true (Some "float16"))))
           (disk w) e1 = (Ok base, e2) /\
    disk w_p = disk w /\ env w_p = e2 /\
    trace w_p = trace w ++
      [ EvPrint ("Using model: " +:+ hf);
        EvCall (AutoTokenizer_from_pretrained hf);
        EvCall (AutoModelForCausalLM_from_pretrained hf
                  (ModelLoad.mk true "auto" (BitsAndBytesConfig.mk true (Some "float16")))) ] /\
    prepare_datasets tok k path w_p = (Ok (tr, va), w_d) /\
    handle (Model_train_mode base) (disk w_d) (env w_d) = (Ok tt, e3) /\
    handle (prepare_model_for_kbit_training base) (disk w_d) e3 = (Ok prepared, e4) /\
    handle (get_peft_model prepared peft_config) (disk w_d) e4 = (Ok model, e5) /\
    handle (Trainer_new model (training_args k) tr va tok
              (DataCollatorForSeq2Seq.mk 8 "pt" true) [EarlyStoppingCallback 2])
           (disk w_d) e5 = (Ok trainer, env w_t) /\
    disk w_t = disk w_d /\
    trace w_t = trace w_d ++
      [ EvCall (Model_train_mode base);
        EvCall (prepare_model_for_kbit_training base);
        EvCall (get_peft_model prepared peft_config);
        EvCall (Trainer_new model (training_args k) tr va tok
                  (DataCollatorForSeq2Seq.mk 8 "pt" true) [EarlyStoppingCallback 2]);
        EvPrint ("Using device: " +:+ device) ].
Proof.
  intros H. unfold main_until_training in H.
  apply mbind_Ok in H as (hf & w1 & [Hhf ->]%resolve_Ok & H).
  apply mbind_Ok in H as ([] & w1 & [_ ->]%print_inv & H).
  apply mbind_Ok in H as (tok0 & w1 & (e1 & Htok & ->)%call_inv & H).
  apply mbind_Ok in H as (base & w1 & (e2 & Hbase & ->)%call_inv & H).
  apply mbind_Ok in H as ([tr va] & w_d & Hprep & H).
  apply mbind_Ok in H as ([] & w1 & (e3 & Hmode & ->)%call_inv & H).
  apply mbind_Ok in H as (prepared & w1 & (e4 & Hprepare & ->)%call_inv & H).
  apply mbind_Ok in H as (model' & w1 & (e5 & Hpeft & ->)%call_inv & H).
  apply mbind_Ok in H as (trainer' & w1 & (e6 & Htrainer & ->)%call_inv & H).
  apply mbind_Ok in H as ([] & w1 & [_ ->]%print_inv & H).
  injection H as <- <- <- <-.
  do 13 eexists. split_and!; try eassumption; try reflexivity.
  - simpl. by rewrite <- !app_assoc.
  - simpl. by rewrite <- !app_assoc.
Qed.

(** The second part of [main], when it returns. *)
Lemma main_from_training_Ok k tok model trainer w_t w' :
  main_from_training k tok model trainer w_t = (Ok tt, w') ->
  exists w_a eval_results,
    call (Trainer_train trainer) w_t = (Ok tt, w_a) /\
    trace w' = trace w_t ++
      [ EvCall (Trainer_train trainer);
        EvCall (Trainer_evaluate trainer);
        EvPrint ("Evaluation results: " +:+ metrics_str eval_results);
        EvCall (Model_save_pretrained model (adapter_dir k));
        EvCall (Tokenizer_save_pretrained tok ("./" +:+ cache_dir k +:+ "/tokenizer")) ].
Proof.
  intros H. unfold main_from_training in H.
  apply mbind_Ok in H as ([] & w1 & Htrain & H).
  pose proof Htrain as Htrain'.
  apply call_inv in Htrain as (? & _ & ->).
  apply mbind_Ok in H as (eval_results & w1 & (? & _ & ->)%call_inv & H).
  apply mbind_Ok in H as ([] & w1 & [_ ->]%print_inv & H).
  apply mbind_Ok in H as ([] & w1 & (? & _ & ->)%call_inv & H).
  apply call_inv in H as (? & _ & ->).
  do 2 eexists. split; [exact Htrain'|]. simpl. by rewrite <- !app_assoc.
Qed.

Lemma main_Ok_parts k path w w' :
  main k path w = (Ok tt, w') ->
  exists tok model trainer w_t,
    main_until_training k path w = (Ok (tok, model, trainer), w_t) /\
    main_from_training k tok model trainer w_t = (Ok tt, w').
Proof.
  intros H. rewrite main_decomposed in H.
  apply mbind_Ok in H as ([[tok model] trainer] & w_t & Hsetup & H).
  by exists tok, model, trainer, w_t.
Qed.

End DriverPartsFacts.

(** ** The fine-tuning driver *)

Section FineTuning.
Context {FT : FrameworkTypes} {F : Framework}.

Lemma training_args_fixed k : fixed_training_args (training_args k).
Proof. unfold fixed_training_args. simpl. split_and!; reflexivity. Qed.

Lemma peft_config_fixed : fixed_adapter peft_config.
Proof. unfold fixed_adapter. simpl. split_and!; reflexivity. Qed.

Lemma build_datasets_emits P tok k path :
  (forall ev, main_call k ev -> P ev) ->
  (forall path, P (EvSaveToDisk path)) ->
  emits P (build_datasets tok k path).
Proof.
  intros HP Hsave. unfold build_datasets.
  emits_structure; first [apply Hsave|by apply HP].
Qed.

Lemma prepare_datasets_emits P tok k path :
  (forall ev, main_call k ev -> P ev) ->
  (forall path, P (EvSaveToDisk path)) ->
  (forall path, P (EvLoadFromDisk path)) ->
  emits P (prepare_datasets tok k path).
Proof.
  intros HP Hsave Hload. unfold prepare_datasets, load_cached_datasets.
  emits_structure;
    first [apply Hload|by apply HP|by apply build_datasets_emits].
Qed.

(** Every call [main] makes to attach an adapter or to build a trainer
    carries [peft_config], [training_args] and the early-stopping callback. *)
Lemma main_emits_main_call k path : emits (main_call k) (main k path).
Proof.
  unfold main. emits_structure; done.
Qed.

Lemma main_emits_any k path : emits (fun _ => True) (main k path).
Proof.
  intros w. eapply extends_impl; [|apply main_emits_main_call]. done.
Qed.

Lemma prepare_datasets_emits_any tok k path :
  emits (fun _ => True) (prepare_datasets tok k path).
Proof. by apply prepare_datasets_emits. Qed.

(** A run of [main] that returns has attached the adapter. *)
Lemma main_performs_adapter k path : performs attaches_adapter (main k path).
Proof.
  unfold main.
  do 7 (apply performs_mbind_r;
        [first [apply prepare_datasets_emits_any|emits_structure; done]|intros ?]).
  apply performs_mbind_l; [by apply performs_call|].
  intros ?. emits_structure; done.
Qed.

(** A run of [main] that returns has built the trainer. *)
Lemma main_performs_trainer k path : performs constructs_trainer (main k path).
Proof.
  unfold main.
  do 8 (apply performs_mbind_r;
        [first [apply prepare_datasets_emits_any|emits_structure; done]|intros ?]).
  apply performs_mbind_l; [by apply performs_call|].
  intros ?. emits_structure; done.
Qed.

Lemma main_call_configured k ev : main_call k ev -> configured ev.
Proof.
  destruct ev as [|A c| | | |]; simpl; try done.
  destruct c; try done.
  - intros ->. apply peft_config_fixed.
  - intros (-> & _ & ->). split; [apply training_args_fixed|done].
Qed.

(** C8: whenever [main] attaches an adapter or builds a trainer it passes
    the fixed configuration (35 epochs, 100 warmup steps, cosine schedule,
    learning rate 1e-5, batch size 1 with 8 accumulation steps, fp16, gradient
    norm 1.0, weight decay 0.01, evaluation and saving per epoch, at most 3
    checkpoints, best model restored, early stopping with patience 2; adapter
    rank 32, alpha 32, dropout 0.05, no bias, the four attention
    projections); and a run of [main] that returns has done both. *)
Theorem main_uses_fixed_configuration (k : version_key) (dataset_path : string)
    (w : World) :
  fixed_training_args (training_args k) /\
  fixed_adapter peft_config /\
  extends configured w (main k dataset_path w).2 /\
  (forall w', main k dataset_path w = (Ok tt, w') ->
     exists evs, trace w' = trace w ++ evs /\
                 Forall configured evs /\
                 Exists attaches_adapter evs /\
                 Exists constructs_trainer evs).
Proof.
  assert (Hext : extends configured w (main k dataset_path w).2).
  { eapply extends_impl; [apply main_call_configured|apply main_emits_main_call]. }
  split_and!; [apply training_args_fixed|apply peft_config_fixed|done|].
  intros w' Hrun. destruct Hext as (evs & Htr & Hcfg).
  rewrite Hrun in Htr. simpl in Htr.
  destruct (main_performs_adapter k dataset_path _ _ _ Hrun) as (evs1 & Htr1 & H1).
  destruct (main_performs_trainer k dataset_path _ _ _ Hrun) as (evs2 & Htr2 & H2).
  rewrite Htr in Htr1, Htr2.
  apply app_inv_head in Htr1 as <-. apply app_inv_head in Htr2 as <-.
  by exists evs.
Qed.

End FineTuning.


(** ** Dataset preparation *)

Section DatasetPreparation.
Context {FT : FrameworkTypes} {F : Framework}.

Lemma prepare_datasets_hit tok k path w tr va :
  cached (disk w) k tr va ->
  prepare_datasets tok k path w = (Ok (tr, va), after w (cache_hit_events k)).
Proof.
  intros [Htr Hva].
  unfold prepare_datasets, try_except, load_cached_datasets, mbind, load_from_disk.
  simpl. rewrite Htr. simpl. rewrite Hva. simpl. unfold after, cache_hit_events.
  by rewrite <- !app_assoc.
Qed.

Lemma prepare_datasets_miss tok k path w :
  (forall tr va, ~ cached (disk w) k tr va) ->
  exists evs, cache_miss_events k evs /\
    prepare_datasets tok k path w = build_datasets tok k path (after w evs).
Proof.
  intros Hmiss.
  unfold prepare_datasets, try_except, load_cached_datasets, mbind, load_from_disk.
  simpl.
  assert (Hl : forall (A : Type) (l : list A) x y, (l ++ [x]) ++ [y] = l ++ [x; y])
    by (intros; by rewrite <- app_assoc).
  assert (Hl3 : forall (A : Type) (l : list A) x y z,
             ((l ++ [x]) ++ [y]) ++ [z] = l ++ [x; y; z])
    by (intros; by rewrite <- !app_assoc).
  destruct (disk w !! train_cache_path k) as [[text|tr]|] eqn:Htr; simpl.
  - eexists. split; [by left|]. unfold after. by rewrite Hl.
  - destruct (disk w !! val_cache_path k) as [[text|va]|] eqn:Hva; simpl.
    + eexists. split; [by right|]. unfold after. by rewrite Hl3.
    + destruct (Hmiss tr va). by split.
    + eexists. split; [by right|]. unfold after. by rewrite Hl3.
  - eexists. split; [by left|]. unfold after. by rewrite Hl.
Qed.

(** The fallback, when it returns, has put both collections on disk. *)
Lemma build_datasets_Ok tok k path w tr va w1 :
  build_datasets tok k path w = (Ok (tr, va), w1) ->
  disk w1 = <[val_cache_path k := DatasetDir va]>
              (<[train_cache_path k := DatasetDir tr]> (disk w)).
Proof.
  intros H. unfold build_datasets in H.
  do 14 step_ok H. by injection H as <- <- <-.
Qed.

(** The fallback takes its training rows from one call of
    [train_test_split] and its validation rows from a second call, made in
    the hidden state the first one left. *)
Lemma build_datasets_two_splits tok k path w tr va w1 :
  build_datasets tok k path w = (Ok (tr, va), w1) ->
  exists rows h1 first_split h2 second_split h3 train_rows eval_rows,
    handle (Dataset_train_test_split rows 0.2) (disk w) h1 = (Ok first_split, h2) /\
    handle (Dataset_train_test_split rows 0.2) (disk w) h2 = (Ok second_split, h3) /\
    split_of "train" first_split = Ok train_rows /\
    split_of "test" second_split = Ok eval_rows /\
    (exists f n h h', handle (Dataset_map train_rows f n) (disk w) h = (Ok tr, h')) /\
    (exists f n h h', handle (Dataset_map eval_rows f n) (disk w) h = (Ok va, h')).
Proof.
  intros H. unfold build_datasets in H.
  do 14 step_ok H. injection H as <- <- <-. simpl in *.
  match goal with
  | H1 : handle (Dataset_train_test_split ?r _) _ ?h1 = (Ok ?s1, ?h2),
    H2 : handle (Dataset_train_test_split ?r _) _ ?h2 = (Ok ?s2, ?h3) |- _ =>
      exists r, h1, s1, h2, s2, h3
  end.
  do 2 eexists. split_and!; [eassumption..| |]; do 4 eexists; eassumption.
Qed.

Lemma prepare_datasets_Ok tok k path w tr va w1 :
  prepare_datasets tok k path w = (Ok (tr, va), w1) ->
  cached (disk w1) k tr va.
Proof.
  intros H.
  assert (Hmiss : (forall tr va, ~ cached (disk w) k tr va) -> cached (disk w1) k tr va).
  { intros Hno. destruct (prepare_datasets_miss tok k path w Hno) as (evs & _ & Heq).
    rewrite Heq in H. apply build_datasets_Ok in H. rewrite H. split.
    - rewrite lookup_insert_ne by (symmetry; apply cache_paths_differ).
      apply lookup_insert_eq.
    - apply lookup_insert_eq. }
  destruct (disk w !! train_cache_path k) as [[text|tr0]|] eqn:Htr.
  - apply Hmiss. intros ?? [??]. congruence.
  - destruct (disk w !! val_cache_path k) as [[text|va0]|] eqn:Hva.
    + apply Hmiss. intros ?? [??]. congruence.
    + rewrite (prepare_datasets_hit _ _ _ _ tr0 va0) in H by done.
      by injection H as <- <- <-.
    + apply Hmiss. intros ?? [??]. congruence.
  - apply Hmiss. intros ?? [??]. congruence.
Qed.



End DatasetPreparation.

(** ** The generation driver *)

Section Generation.
Context {FT : FrameworkTypes} {F : Framework}.

Lemma keeps_disk_mbind {A B} (m : M A) (f : A -> M B) :
  keeps_disk m -> (forall a, keeps_disk (f a)) -> keeps_disk (mbind m f).
Proof.
  intros Hm Hf w. unfold mbind. specialize (Hm w).
  destruct (m w) as [[a|e] w1]; simpl in *; [|done].
  by rewrite Hf.
Qed.

Lemma keeps_disk_lift {A} (x : result A) : keeps_disk (lift x).
Proof. done. Qed.

Lemma keeps_disk_call {A} (c : fcall A) : keeps_disk (call c).
Proof. intros w. unfold call. by destruct (handle c (disk w) (env w)). Qed.

Lemma keeps_disk_print line : keeps_disk (print line).
Proof. done. Qed.

Lemma generate_response_keeps_disk model tok eval_prompt :
  keeps_disk (generate_response model tok eval_prompt).
Proof.
  unfold generate_response.
  repeat first [ apply keeps_disk_mbind; [|intros ?]
               | apply keeps_disk_lift | apply keeps_disk_call ].
Qed.

Lemma generate_response_emits P model tok eval_prompt :
  (forall A (c : fcall A), P (EvCall c)) ->
  emits P (generate_response model tok eval_prompt).
Proof. intros HP. unfold generate_response. emits_structure; apply HP. Qed.

Lemma file_text_insert (d : gmap string node) path text :
  file_text (<[path := File text]> d) path = text.
Proof. unfold file_text. by rewrite lookup_insert_eq. Qed.

Lemma render_eval_prompt_dict entry eval_prompt :
  render_eval_prompt entry = Ok eval_prompt -> exists fields, entry = JObj fields.
Proof. destruct entry; try discriminate. eauto. Qed.

Lemma assoc_get_set key v fields : assoc_get key (assoc_set key v fields) = Some v.
Proof.
  induction fields as [|[k x] rest IH]; simpl.
  - by rewrite decide_True.
  - destruct (decide (k = key)) as [->|Hne]; simpl.
    + by rewrite decide_True.
    + by rewrite decide_False.
Qed.

Lemma setitem_augmented entry response_text out :
  setitem entry "Response" (JStr response_text) = Ok out -> augmented entry out.
Proof.
  intros H. exists response_text. split; [done|].
  destruct entry; try discriminate. injection H as <-.
  simpl. by rewrite assoc_get_set.
Qed.

(** One turn of the loop that completes: one block more in the log. *)
Lemma loop_body_Ok model tok logs n i entry w out w' :
  loop_body model tok logs n i entry w = (Ok out, w') ->
  exists eval_prompt response_text evs,
    render_eval_prompt entry = Ok eval_prompt /\
    augmented entry out /\
    disk w' = <[logs := File (file_text (disk w) logs
                              +:+ log_block i eval_prompt response_text)]> (disk w) /\
    trace w' = trace w ++ evs /\ Forall (writes_at_most logs) evs.
Proof.
  intros H. unfold loop_body in H.
  step_ok H. rename a into eval_prompt.
  step_ok H. rename a into response_text.
  pose proof (generate_response_keeps_disk model tok eval_prompt w) as Hd.
  destruct (generate_response_emits (writes_at_most logs) model tok eval_prompt
              (fun _ _ => I) w) as (evs & Htr & Hevs).
  rewrite Hstep0 in Hd, Htr. simpl in Hd, Htr.
  do 5 step_ok H. injection H as <- <-.
  exists eval_prompt, response_text,
    (evs ++ [EvWrite logs (log_header i); EvWrite logs (log_prompt eval_prompt);
             EvWrite logs (log_response response_text);
             EvPrint ("Got " +:+ pretty (i + 1) +:+ " responses out of " +:+ pretty n)]).
  split_and!.
  - done.
  - by eapply setitem_augmented.
  - simpl. rewrite !file_text_insert, !insert_insert_eq, Hd.
    unfold log_block. by rewrite !string_app_assoc.
  - simpl. rewrite Htr. by rewrite <- !app_assoc.
  - apply Forall_app. split; [done|]. repeat constructor.
Qed.

(** One turn of the loop that raises: nothing was written. *)
Lemma loop_body_Raise model tok logs n i entry w e w' :
  loop_body model tok logs n i entry w = (Raise e, w') ->
  disk w' = disk w /\ extends (writes_at_most logs) w w'.
Proof.
  intros H. unfold loop_body in H.
  apply mbind_Raise in H as [H|(eval_prompt & w1 & H1 & H)].
  { apply lift_inv in H as (_ & ->). split; [done|apply extends_refl]. }
  apply lift_inv in H1 as (Hprompt & ->).
  pose proof (generate_response_keeps_disk model tok eval_prompt w) as Hd.
  pose proof (generate_response_emits (writes_at_most logs) model tok eval_prompt
                (fun _ _ => I) w) as Hext.
  apply mbind_Raise in H as [H|(response_text & w1 & H1 & H)].
  { rewrite H in Hd, Hext. done. }
  exfalso.
  apply mbind_Raise in H as [H|(? & ? & _ & H)]; [by apply write_inv in H as [? _]|].
  apply mbind_Raise in H as [H|(? & ? & _ & H)]; [by apply write_inv in H as [? _]|].
  apply mbind_Raise in H as [H|(? & ? & _ & H)]; [by apply write_inv in H as [? _]|].
  destruct (render_eval_prompt_dict _ _ Hprompt) as [fields ->].
  apply mbind_Raise in H as [H|(? & ? & _ & H)]; [by apply lift_inv in H as [? _]|].
  apply mbind_Raise in H as [H|(? & ? & _ & H)]; [by apply print_inv in H as [? _]|].
  discriminate.
Qed.

Lemma string_app_nil_r (a : string) : a +:+ "" = a.
Proof.
  induction a as [|x a IH]; [done|].
  change (String x (a +:+ "") = String x a). by rewrite IH.
Qed.

(** The loop, when it completes, has handled every record in order. *)
Lemma generation_loop_Ok model tok logs n entries :
  forall i acc w t0 res w',
    disk w !! logs = Some (File t0) ->
    generation_loop model tok logs n i entries acc w = (Ok res, w') ->
    exists outs blocks evs,
      res = acc ++ outs /\
      Forall2 augmented entries outs /\
      log_blocks i entries blocks /\
      disk w' = <[logs := File (t0 +:+ join_blocks blocks)]> (disk w) /\
      trace w' = trace w ++ evs /\ Forall (writes_at_most logs) evs.
Proof.
  induction entries as [|entry rest IH]; intros i acc w t0 res w' Hlog H; simpl in H.
  - injection H as <- <-. exists [], [], [].
    rewrite !app_nil_r. split_and!; [done|constructor|constructor| |done|constructor].
    simpl. rewrite string_app_nil_r. symmetry. by apply insert_id.
  - apply mbind_Ok in H as (out & w1 & Hbody & H).
    apply loop_body_Ok in Hbody
      as (eval_prompt & response_text & evs1 & Hprompt & Haug & Hd1 & Htr1 & Hev1).
    assert (Ht0 : file_text (disk w) logs = t0) by (unfold file_text; by rewrite Hlog).
    rewrite Ht0 in Hd1.
    eapply IH in H as (outs & blocks & evs2 & -> & Hall & Hblocks & Hd & Htr & Hev);
      [|by rewrite Hd1, lookup_insert_eq].
    exists (out :: outs), (log_block i eval_prompt response_text :: blocks),
      (evs1 ++ evs2).
    split_and!.
    + by rewrite <- app_assoc.
    + by constructor.
    + by econstructor.
    + rewrite Hd, Hd1, insert_insert_eq. simpl. by rewrite string_app_assoc.
    + by rewrite Htr, Htr1, app_assoc.
    + by apply Forall_app.
Qed.

(** The loop, when it raises, stops at the record whose turn raised: the
    records before it were handled, their blocks are in the log, and nothing
    else was written. *)
Lemma generation_loop_Raise model tok logs n entries :
  forall i acc w t0 e w',
    disk w !! logs = Some (File t0) ->
    generation_loop model tok logs n i entries acc w = (Raise e, w') ->
    exists handled failing rest blocks res_mid w_mid,
      entries = handled ++ failing :: rest /\
      generation_loop model tok logs n i handled acc w = (Ok res_mid, w_mid) /\
      loop_body model tok logs n (i + length handled) failing w_mid = (Raise e, w') /\
      log_blocks i handled blocks /\
      disk w' = <[logs := File (t0 +:+ join_blocks blocks)]> (disk w) /\
      extends (writes_at_most logs) w w'.
Proof.
  induction entries as [|entry rest IH]; intros i acc w t0 e w' Hlog H; simpl in H.
  - discriminate.
  - apply mbind_Raise in H as [H|(out & w1 & Hbody & H)].
    + exists [], entry, rest, [], acc, w. simpl. rewrite Nat.add_0_r.
      destruct (loop_body_Raise _ _ _ _ _ _ _ _ _ H) as [Hd Hext].
      split_and!; [done|done|done|constructor| |done].
      rewrite Hd, string_app_nil_r. symmetry. by apply insert_id.
    + pose proof Hbody as Hbody'.
      apply loop_body_Ok in Hbody
        as (eval_prompt & response_text & evs1 & Hprompt & Haug & Hd1 & Htr1 & Hev1).
      assert (Ht0 : file_text (disk w) logs = t0) by (unfold file_text; by rewrite Hlog).
      rewrite Ht0 in Hd1.
      eapply IH in H
        as (handled & failing & rest' & blocks & res_mid & w_mid
            & -> & Hloop & Hfail & Hblocks & Hd & Hext);
        [|by rewrite Hd1, lookup_insert_eq].
      exists (entry :: handled), failing, rest',
        (log_block i eval_prompt response_text :: blocks), res_mid, w_mid.
      split_and!.
      * done.
      * simpl. unfold mbind. by rewrite Hbody'.
      * simpl. by rewrite <- Nat.add_succ_comm.
      * by econstructor.
      * rewrite Hd, Hd1, insert_insert_eq. simpl. by rewrite string_app_assoc.
      * eapply extends_trans; [|done]. by exists evs1.
Qed.

Lemma py_random_shuffle_inv P data w r w1 :
  (forall A (c : fcall A), P (EvCall c)) ->
  py_random_shuffle data w = (r, w1) ->
  disk w1 = disk w /\ extends P w w1.
Proof.
  intros HP H. unfold py_random_shuffle in H.
  destruct data as [| | | |s| items |fields].
  1-4: injection H as <- <-; split; [done|apply extends_refl].
  - destruct (decide _); injection H as <- <-; (split; [done|apply extends_refl]).
  - unfold mbind in H. destruct (call (random_shuffle items) w) as [[a|e] w2] eqn:E;
      apply call_inv in E as (? & _ & ->); injection H as <- <-;
      (split; [done|by apply extends_one]).
  - destruct (decide _); injection H as <- <-; (split; [done|apply extends_refl]).
Qed.

Lemma py_random_shuffle_Ok data w data' w1 records :
  shuffle_permutes ->
  py_random_shuffle data w = (Ok data', w1) ->
  py_iter data = Ok records ->
  exists shuffled, py_iter data' = Ok shuffled /\ shuffled ≡ₚ records.
Proof.
  intros Hperm H Hiter. unfold py_random_shuffle in H.
  destruct data as [| | | |s| items |fields]; try discriminate.
  - destruct (decide _); [|discriminate]. injection H as <- <-. by exists records.
  - apply mbind_Ok in H as (items' & w2 & Hcall & H). injection H as <- <-.
    apply call_inv in Hcall as (? & Hcall & ->). apply Hperm in Hcall.
    injection Hiter as <-. by exists items'.
  - destruct (decide _); [|discriminate]. injection H as <- <-. by exists records.
Qed.

Lemma string_chars_length s : length (string_chars s) = String.length s.
Proof. induction s as [|c s IH]; simpl; [done|]. by rewrite IH. Qed.

Lemma py_len_iter data n :
  py_len data = Ok n -> exists records, py_iter data = Ok records /\ length records = n.
Proof.
  destruct data as [| | | |s| items |fields]; try discriminate; intros [= <-];
    eexists; (split; [done|]).
  - by rewrite length_fmap, string_chars_length.
  - done.
  - by rewrite !length_fmap.
Qed.

(** C5: a run of the generation driver that returns has read the input
    collection, handled a rearrangement of its records one by one, and
    written the output file once, as its last file operation: the file holds
    [json.dumps(processed_data, indent=4)], where [processed_data] has one
    record per input record, each the input record with a string stored
    under [Response]; before that, nothing but the log file was written.
    (That [random.shuffle] rearranges is the assumption on the framework.) *)
Theorem generation_output_complete (k : version_key)
    (input_file_path output_file_path logs_file : string) (w w' : World) :
  shuffle_permutes ->
  generating_response_cycle_model_finetuned
    k input_file_path output_file_path logs_file w = (Ok tt, w') ->
  exists text data records shuffled processed_data evs,
    disk w !! input_file_path = Some (File text) /\
    json_loads text = Ok data /\
    py_iter data = Ok records /\
    py_len data = Ok (length records) /\
    shuffled ≡ₚ records /\
    Forall2 augmented shuffled processed_data /\
    length processed_data = length records /\
    disk w' !! output_file_path
      = Some (File (json_dumps (Some 4) (JArr processed_data))) /\
    trace w' = trace w ++ evs ++
      [ EvOpen output_file_path "w";
        EvWrite output_file_path (json_dumps (Some 4) (JArr processed_data));
        EvPrint ("All hyperparameters have been successfully saved to "
                 +:+ output_file_path) ] /\
    Forall (writes_at_most logs_file) evs.
Proof.
  intros Hperm H. unfold generating_response_cycle_model_finetuned in H.
  do 5 step_ok H.
  apply mbind_Ok in H as (text & w1 & Hread & H).
  apply read_text_inv in Hread as [-> Hread].
  specialize (Hread _ eq_refl). simpl in Hread.
  apply mbind_Ok in H as (data & w1 & [Hdata ->]%lift_inv & H).
  apply mbind_Ok in H as (data_len & w1 & [Hlen ->]%lift_inv & H).
  destruct (py_len_iter _ _ Hlen) as (records & Hiter & <-).
  apply mbind_Ok in H as (data' & w_sh & Hshuffle & H).
  destruct (py_random_shuffle_Ok _ _ _ _ _ Hperm Hshuffle Hiter)
    as (shuffled & Hiter' & Hsh).
  apply (py_random_shuffle_inv (writes_at_most logs_file)) in Hshuffle
    as [Hd (evs_sh & Htr & Hev_sh)]; [|done].
  destruct w_sh as [d_sh e_sh t_sh]. simpl in Hd, Htr. subst d_sh t_sh.
  step_ok H.
  apply mbind_Ok in H as (entries & w1 & [Hentries ->]%lift_inv & H).
  rewrite Hiter' in Hentries. injection Hentries as <-.
  apply mbind_Ok in H as (processed_data & w_loop & Hloop & H).
  eapply (generation_loop_Ok _ _ _ _ _ _ _ _ "") in Hloop
    as (outs & blocks & evs_loop & -> & Hall & _ & Hdl & Htrl & Hev_loop);
    [|simpl; apply lookup_insert_eq].
  destruct w_loop as [d_l e_l t_l]. simpl in Hdl, Htrl. subst d_l t_l.
  apply mbind_Ok in H as ([] & w_end & [_ Hend]%print_inv & H).
  assert (Hext : extends (writes_at_most logs_file) w w_end).
  { rewrite Hend. eexists. split; [simpl; rewrite <- !app_assoc; reflexivity|].
    repeat first [ apply Forall_app; split | apply Forall_cons; split
                 | apply Forall_nil_2 | done ]. }
  destruct Hext as (evs & Htr & Hev). clear Hend.
  do 2 step_ok H. apply print_inv in H as [_ ->]. simpl.
  exists text, data, records, shuffled, outs, evs.
  split_and!; try done.
  - apply Forall2_length in Hall. rewrite <- Hall. by apply Permutation_length.
  - rewrite file_text_insert. by rewrite lookup_insert_eq.
  - rewrite Htr, <- !app_assoc. reflexivity.
Qed.

Lemma writes_at_most_no_write logs out ev :
  out <> logs -> writes_at_most logs ev -> no_write_to out ev.
Proof. intros Hne. destruct ev; simpl; try done. by intros ->. Qed.

(** Closes the case of a failure before the log file is opened. *)
Local Ltac fails_early :=
  simpl; split;
  [ intros _; split;
    [ done
    | first
        [ apply extends_refl
        | eexists; split;
          [ simpl; rewrite <- ?app_assoc; reflexivity
          | repeat first [ apply Forall_app; split | apply Forall_cons; split
                         | apply Forall_nil_2 | done ] ] ] ]
  | by left ].

(** What a run of the loop, and of the driver, that raises has left: the
    loop stopped at the record whose turn raised, with the blocks of the
    records before it in the log; the driver wrote nothing into the output
    file. *)
Lemma generation_raise_shape :
  (forall model tok logs_file data_len i entries acc w t0 e w',
      disk w !! logs_file = Some (File t0) ->
      generation_loop model tok logs_file data_len i entries acc w = (Raise e, w') ->
      exists handled failing rest blocks res_mid w_mid,
        entries = handled ++ failing :: rest /\
        generation_loop model tok logs_file data_len i handled acc w
          = (Ok res_mid, w_mid) /\
        loop_body model tok logs_file data_len (i + length handled) failing w_mid
          = (Raise e, w') /\
        disk w' = disk w_mid /\
        log_blocks i handled blocks /\
        disk w' = <[logs_file := File (t0 +:+ join_blocks blocks)]> (disk w) /\
        extends (writes_at_most logs_file) w w') /\
  (forall k input_file_path output_file_path logs_file w e w',
      generating_response_cycle_model_finetuned
        k input_file_path output_file_path logs_file w = (Raise e, w') ->
      (output_file_path <> logs_file ->
         disk w' !! output_file_path = disk w !! output_file_path /\
         extends (no_write_to output_file_path) w w') /\
      (disk w' = disk w \/
       exists entries handled blocks,
         handled `prefix_of` entries /\
         log_blocks 0 handled blocks /\
         disk w' = <[logs_file := File (join_blocks blocks)]> (disk w))).
Proof.
  split.
  { intros model tok logs n i entries acc w t0 e w' Hlog H.
    destruct (generation_loop_Raise _ _ _ _ _ _ _ _ _ _ _ Hlog H)
      as (handled & failing & rest & blocks & res_mid & w_mid
          & He & Hloop & Hfail & Hblocks & Hd & Hext).
    exists handled, failing, rest, blocks, res_mid, w_mid.
    split_and!; try done. by apply loop_body_Raise in Hfail as [? _]. }
  intros k inp out logs w e w' H.
  unfold generating_response_cycle_model_finetuned in H.
  apply mbind_Raise in H as [H|(hf & w1 & ->%resolve_inv & H)].
  { apply resolve_inv in H as ->. fails_early. }
  apply mbind_Raise in H as [H|([] & w1 & [_ ->]%print_inv & H)].
  { by apply print_inv in H as [? _]. }
  apply mbind_Raise in H as [H|(model & w1 & (? & _ & ->)%call_inv & H)].
  { apply call_inv in H as (? & _ & ->). fails_early. }
  apply mbind_Raise in H as [H|(tok & w1 & (? & _ & ->)%call_inv & H)].
  { apply call_inv in H as (? & _ & ->). fails_early. }
  apply mbind_Raise in H as [H|(model' & w1 & (? & _ & ->)%call_inv & H)].
  { apply call_inv in H as (? & _ & ->). fails_early. }
  apply mbind_Raise in H as [H|(text & w1 & [-> _]%read_text_inv & H)].
  { apply read_text_inv in H as [-> _]. fails_early. }
  apply mbind_Raise in H as [H|(data & w1 & [_ ->]%lift_inv & H)].
  { apply lift_inv in H as [_ ->]. fails_early. }
  apply mbind_Raise in H as [H|(n & w1 & [_ ->]%lift_inv & H)].
  { apply lift_inv in H as [_ ->]. fails_early. }
  assert (Hpre : forall w_sh, extends (writes_at_most logs)
            (mkWorld (disk w) x1
               (((((trace w ++ [EvPrint ("Using model: " +:+ hf)]) ++
                   [EvCall (AutoModelForCausalLM_from_pretrained hf
                              (ModelLoad.mk true "auto" (BitsAndBytesConfig.mk true None)))]) ++
                  [EvCall (AutoTokenizer_from_pretrained hf)]) ++
                 [EvCall (PeftModel_from_pretrained model ("./" +:+ cache_dir k +:+ "/model"))]) ++
                [EvOpen inp "r"])) w_sh ->
            extends (writes_at_most logs) w w_sh).
  { intros w_sh Hsh. eapply extends_trans; [|exact Hsh].
    eexists. split; [simpl; rewrite <- ?app_assoc; reflexivity|].
    repeat first [ apply Forall_cons; split | apply Forall_nil_2 | done ]. }
  apply mbind_Raise in H as [H|(data' & w_sh & Hshuffle & H)].
  { apply (py_random_shuffle_inv (writes_at_most logs)) in H as [Hd Hext]; [|done].
    apply Hpre in Hext. simpl in Hd. split; [|by left].
    intros Hne. rewrite Hd. split; [done|].
    eapply extends_impl; [|done]. intros ev. by apply writes_at_most_no_write. }
  apply (py_random_shuffle_inv (writes_at_most logs)) in Hshuffle as [Hd Hext]; [|done].
  apply Hpre in Hext. simpl in Hd. clear Hpre.
  apply mbind_Raise in H as [H|([] & w_open & Hopen & H)].
  { apply open_w_Raise in H as ->. simpl. split; [|by left].
    intros Hne. rewrite Hd. split; [done|].
    eapply extends_trans.
    - eapply extends_impl; [|exact Hext]. intros ev. by apply writes_at_most_no_write.
    - by apply extends_one. }
  apply open_w_Ok in Hopen as ->.
  assert (Hext' : extends (writes_at_most logs) w
                    (mkWorld (<[logs := File ""]> (disk w_sh)) (env w_sh)
                             (trace w_sh ++ [EvOpen logs "w"]))).
  { eapply extends_trans; [exact Hext|]. by apply extends_one. }
  apply mbind_Raise in H as [H|(entries & w1 & [_ ->]%lift_inv & H)].
  { apply lift_inv in H as [_ ->]. simpl. split.
    - intros Hne. rewrite Hd, lookup_insert_ne by done. split; [done|].
      eapply extends_impl; [|exact Hext']. intros ev. by apply writes_at_most_no_write.
    - right. exists [], [], []. split_and!; [done|constructor|by rewrite Hd]. }
  apply mbind_Raise in H as [H|(processed & w_loop & Hloop & H)].
  { eapply (generation_loop_Raise _ _ _ _ _ _ _ _ "") in H
      as (handled & failing & rest & blocks & res_mid & w_mid
          & -> & _ & _ & Hblocks & Hdl & Hextl);
      [|simpl; apply lookup_insert_eq].
    simpl in Hdl. rewrite insert_insert_eq, Hd in Hdl. split.
    - intros Hne. rewrite Hdl, lookup_insert_ne by done. split; [done|].
      eapply extends_impl; [intros ev; by apply writes_at_most_no_write|].
      eapply extends_trans; [exact Hext'|exact Hextl].
    - right. exists (handled ++ failing :: rest), handled, blocks.
      split_and!; [by apply prefix_app_r|done|done]. }
  eapply (generation_loop_Ok _ _ _ _ _ _ _ _ "") in Hloop
    as (outs & blocks & evs_loop & -> & _ & Hblocks & Hdl & Htrl & Hev_loop);
    [|simpl; apply lookup_insert_eq].
  simpl in Hdl, Htrl. rewrite insert_insert_eq, Hd in Hdl.
  assert (Hextl : extends (writes_at_most logs) w w_loop).
  { eapply extends_trans; [exact Hext'|]. by exists evs_loop. }
  apply mbind_Raise in H as [H|([] & w1 & [_ ->]%print_inv & H)].
  { by apply print_inv in H as [? _]. }
  apply mbind_Raise in H as [H|([] & w1 & ->%open_w_Ok & H)].
  { apply open_w_Raise in H as ->. simpl. split.
    - intros Hne. rewrite Hdl, lookup_insert_ne by done. split; [done|].
      eapply extends_trans.
      + eapply extends_impl; [|exact Hextl]. intros ev. by apply writes_at_most_no_write.
      + exists [EvPrint ("All responses are saved in " +:+ logs); EvOpen out "w"].
        split; [simpl; by rewrite <- app_assoc|]. by repeat constructor.
    - right. exists entries, entries, blocks. by rewrite Hdl. }
  apply mbind_Raise in H as [H|([] & w1 & [_ ->]%write_inv & H)].
  { by apply write_inv in H as [? _]. }
  by apply print_inv in H as [? _].
Qed.

End Generation.

(** ** Runs on the executable framework *)

Section Runs.
Import Ref.

(** C1: two runs of the fallback path on the same files, started with
    different states of the process-wide generator.  Both build a 4/1 split
    of the five records, but not the same one; and in the first run the
    validation record is also a training record, because "train" and "test"
    are taken from two separate unseeded calls of [train_test_split]. *)
Theorem unseeded_split_differs_between_runs :
  exists tr0 va0 w0 tr1 va1 w1,
    prepare_datasets tokenizer0 (VInt 1) "Dataset/LEMUR_prepared_2.json" (world0 0)
      = (Ok (tr0, va0), w0) /\
    prepare_datasets tokenizer0 (VInt 1) "Dataset/LEMUR_prepared_2.json" (world0 1)
      = (Ok (tr1, va1), w1) /\
    disk (world0 0) = disk (world0 1) /\
    (length tr0, length va0) = (4, 1) /\
    (length tr1, length va1) = (4, 1) /\
    tr0 <> tr1 /\ va0 <> va1 /\
    (exists row, row ∈ tr0 /\ row ∈ va0).
Proof.
  do 6 eexists.
  split; [vm_compute; reflexivity|].
  split; [vm_compute; reflexivity|].
  split_and!; [reflexivity..|discriminate|discriminate|].
  eexists. split; [|apply list_elem_of_here]. apply list_elem_of_here.
Qed.

Lemma main_uses_fixed_configuration_witness :
  exists w' evs,
    main (VInt 1) "Dataset/LEMUR_prepared_2.json" (world0 0) = (Ok tt, w') /\
    trace w' = evs /\
    Forall configured evs /\
    Exists attaches_adapter evs /\
    Exists constructs_trainer evs.
Proof.
  pose (run := main (VInt 1) "Dataset/LEMUR_prepared_2.json" (world0 0)).
  assert (H : run = (Ok tt, run.2)) by (vm_compute; reflexivity).
  destruct (proj2 (proj2 (proj2 (main_uses_fixed_configuration (VInt 1)
              "Dataset/LEMUR_prepared_2.json" (world0 0)))) _ H)
    as (evs & Htr & Hcfg & Hadapter & Htrainer).
  exists run.2, evs. split_and!; [exact H|exact Htr|done..].
Defined.

Lemma ref_shuffle_permutes : shuffle_permutes.
Proof.
  intros l d e l' e' [= <- _]. unfold rotate.
  rewrite Permutation_app_comm. by rewrite take_drop.
Qed.


Lemma generation_output_complete_witness :
  exists w' processed_data,
    generating_response_cycle_model_finetuned
      (VInt 1) "Dataset/LEMUR_raw_2_500.json" "out.json" "log.txt" (world0 1)
      = (Ok tt, w') /\
    length processed_data = 3 /\
    disk w' !! "out.json" = Some (File (json_dumps (Some 4) (JArr processed_data))).
Proof.
  pose (run := generating_response_cycle_model_finetuned
                 (VInt 1) "Dataset/LEMUR_raw_2_500.json" "out.json" "log.txt" (world0 1)).
  assert (H : run = (Ok tt, run.2)) by (vm_compute; reflexivity).
  destruct (generation_output_complete _ _ _ _ _ _ ref_shuffle_permutes H)
    as (text & data & records & shuffled & processed & evs
        & Hread & Hdata & Hiter & _ & _ & _ & Hlen & Hout & _).
  exists run.2, processed. split_and!; [exact H| |exact Hout].
  vm_compute in Hread. injection Hread as <-.
  injection Hdata as <-. injection Hiter as <-. exact Hlen.
Defined.

End Runs.

(** * Further properties *)

(** ** Prompts and response extraction together *)

Section PromptsAndExtraction.
Context {FT : FrameworkTypes} {F : Framework}.
Import PyStr PyStrFacts PyStrMore.

Lemma response_marker_head : head (of_string response_marker) = Some "#"%char.
Proof. reflexivity. Qed.

Lemma response_marker_last : last (of_string response_marker) = Some ":"%char.
Proof. reflexivity. Qed.

(** What follows the marker, when it is free of the marker, is the piece
    the extraction keeps. *)
Lemma extract_response_after_marker pre post :
  ~ str_contains response_marker post ->
  extract_response (pre +:+ response_marker +:+ post) = Ok (py_strip post).
Proof.
  intros Hfree.
  destruct (extract_response_last (pre +:+ response_marker +:+ post)) as (x & Hx & ->).
  rewrite (split_pieces_last_tail_free _ _ (of_string pre) (of_string post)) in Hx.
  - by injection Hx as <-.
  - apply response_marker_nonempty.
  - apply response_marker_unbordered.
  - by rewrite !of_string_app.
  - intros Hocc. by apply Hfree, occurs_str_contains.
Qed.

(** X1: a response, once extracted, is stable: it carries no whitespace at
    either end, and extracting from it again returns it unchanged. *)
Theorem extract_response_idempotent (decoded r : string) :
  extract_response decoded = Ok r ->
  extract_response r = Ok r /\
  py_strip r = r /\
  (forall c t, of_string r = c :: t -> isspace c = false) /\
  (forall c, last (of_string r) = Some c -> isspace c = false).
Proof.
  intros H. destruct (extract_response_last decoded) as (x & Hx & Hr).
  rewrite Hr in H. injection H as <-.
  assert (Hstrip : py_strip (to_string (strip x)) = to_string (strip x)).
  { unfold py_strip. by rewrite of_to_string, strip_idemp. }
  split_and!.
  - destruct (extract_response_last (to_string (strip x))) as (y & Hy & ->).
    rewrite of_to_string in Hy. rewrite split_pieces_absent in Hy.
    + injection Hy as <-. by rewrite strip_idemp.
    + apply strip_preserves_absent.
      eapply split_pieces_last_free; [apply response_marker_nonempty|done].
  - done.
  - intros c t. rewrite of_to_string. apply strip_no_leading_space.
  - intros c. rewrite of_to_string. apply strip_no_trailing_space.
Qed.

Lemma extract_response_idempotent_witness :
  extract_response "lr=0.1" = Ok "lr=0.1".
Proof.
  apply (extract_response_idempotent
           ("### Response:" +:+ nl +:+ "  lr=0.1  ") "lr=0.1").
  reflexivity.
Defined.

Lemma app_suffix_step (a b suf : string) :
  (exists pre, b = pre +:+ suf) -> exists pre, a +:+ b = pre +:+ suf.
Proof. intros [pre ->]. exists (a +:+ pre). by rewrite string_app_assoc. Qed.

(** The generation prompt ends with the marker, a line break and the
    indentation of the template. *)
Lemma render_eval_prompt_ends entry eval_prompt :
  render_eval_prompt entry = Ok eval_prompt ->
  exists pre, eval_prompt = pre +:+ response_marker +:+ (nl +:+ indent12).
Proof.
  intros H. unfold render_eval_prompt, rbind in H.
  repeat match type of H with
         | context [match ?x with Ok _ => _ | Raise _ => _ end] =>
             destruct x; [|discriminate]
         end.
  injection H as <-.
  repeat first [ by exists "" | apply app_suffix_step ].
Qed.

(** X2: when the decoded output of the model is the generation prompt
    followed by a continuation that does not repeat the marker, the response
    the driver keeps is that continuation with the surrounding whitespace
    trimmed; whatever the fields of the record contain, the marker
    included. *)
Theorem extract_response_of_prompt_continuation (entry : json)
    (eval_prompt continuation : string) :
  render_eval_prompt entry = Ok eval_prompt ->
  ~ str_contains response_marker continuation ->
  extract_response (eval_prompt +:+ continuation) = Ok (py_strip continuation) /\
  trimmed continuation (py_strip continuation).
Proof.
  intros Hprompt Hfree. split; [|apply py_strip_trimmed].
  destruct (render_eval_prompt_ends _ _ Hprompt) as [pre ->].
  rewrite !string_app_assoc.
  rewrite <- (string_app_assoc nl indent12 continuation).
  rewrite extract_response_after_marker.
  - reflexivity.
  - intros Hc%py_in_spec. apply Hfree, occurs_str_contains.
    apply py_in_spec in Hc as (a & b & Hc).
    apply (occurs_after_spaces _ "#"%char (of_string (nl +:+ indent12)));
      [apply response_marker_head|done|done|].
    exists (of_string a), (of_string b). by rewrite <- !of_string_app, <- Hc.
Qed.

(** The fine-tuning prompt ends with the marker and the answer, set between
    a line break with indentation and a line break with indentation. *)
Lemma create_prompt_ends data_point prompt answer :
  create_prompt data_point = Ok prompt ->
  getitem data_point "answer" = Ok answer ->
  exists pre,
    prompt = pre +:+ response_marker
             +:+ ((nl +:+ "        ") +:+ py_format answer +:+ (nl +:+ "    ")).
Proof.
  intros H Hans. unfold create_prompt, rbind in H. rewrite Hans in H.
  destruct (getitem data_point "question"); [|discriminate].
  injection H as <-. rewrite !string_app_assoc.
  repeat first [ by exists "        " | apply app_suffix_step ].
Qed.

(** X3: the two templates agree on the marker: extracting the response from
    a fine-tuning prompt gives back the answer it was built from, with the
    surrounding whitespace trimmed, provided the answer does not itself
    contain the marker. *)
Theorem extract_response_of_training_prompt (data_point answer : json)
    (prompt : string) :
  create_prompt data_point = Ok prompt ->
  getitem data_point "answer" = Ok answer ->
  ~ str_contains response_marker (py_format answer) ->
  extract_response prompt = Ok (py_strip (py_format answer)) /\
  trimmed (py_format answer) (py_strip (py_format answer)).
Proof.
  intros Hprompt Hans Hfree. split; [|apply py_strip_trimmed].
  destruct (create_prompt_ends _ _ _ Hprompt Hans) as [pre ->].
  rewrite extract_response_after_marker.
  - f_equal. unfold py_strip. f_equal. rewrite !of_string_app.
    by apply strip_app_spaces.
  - intros (a & b & Hc). apply Hfree, occurs_str_contains.
    apply (occurs_before_spaces _ ":"%char (of_string (nl +:+ "    ")));
      [apply response_marker_last|done|done|].
    apply (occurs_after_spaces _ "#"%char (of_string (nl +:+ "        ")));
      [apply response_marker_head|done|done|].
    exists (of_string a), (of_string b).
    rewrite <- !of_string_app. by rewrite Hc.
Qed.

End PromptsAndExtraction.

(** ** More on the generation driver *)

Section GenerationMore.
Context {FT : FrameworkTypes} {F : Framework}.

Lemma touches_only_keeps {A} S (m : M A) : keeps_disk m -> touches_only S m.
Proof. intros H w p _. by rewrite H. Qed.

Lemma touches_only_mbind {A B} S (m : M A) (f : A -> M B) :
  touches_only S m -> (forall a, touches_only S (f a)) -> touches_only S (mbind m f).
Proof.
  intros Hm Hf w p Hp. unfold mbind. specialize (Hm w p Hp).
  destruct (m w) as [[a|e] w1]; simpl in *; [|done].
  by rewrite Hf.
Qed.

Lemma touches_only_open_w S path : S path -> touches_only S (open_w path).
Proof.
  intros HS w p Hp. unfold open_w.
  destruct (disk w !! path) as [[]|]; simpl; try done;
    apply lookup_insert_ne; by intros ->.
Qed.

Lemma touches_only_write S path text : S path -> touches_only S (write path text).
Proof. intros HS w p Hp. simpl. apply lookup_insert_ne. by intros ->. Qed.

Lemma keeps_disk_resolve table k : keeps_disk (resolve table k).
Proof. intros w. unfold resolve. by destruct (dict_get table k). Qed.

Lemma keeps_disk_read_text path : keeps_disk (read_text path).
Proof. intros w. unfold read_text. by destruct (disk w !! path) as [[]|]. Qed.

Lemma keeps_disk_py_random_shuffle data : keeps_disk (py_random_shuffle data).
Proof.
  intros w. destruct (py_random_shuffle data w) as [r w1] eqn:E.
  by apply (py_random_shuffle_inv (fun _ => True)) in E as [? _].
Qed.

Lemma loop_body_touches_only model tok logs n i entry :
  touches_only (fun p => p = logs) (loop_body model tok logs n i entry).
Proof.
  unfold loop_body.
  repeat first
    [ apply touches_only_mbind; [|intros ?]
    | apply touches_only_write; reflexivity
    | apply touches_only_keeps;
      first [ apply generate_response_keeps_disk | apply keeps_disk_lift
            | apply keeps_disk_print | apply keeps_disk_call | done ] ].
Qed.

Lemma generation_loop_touches_only model tok logs n entries :
  forall i acc, touches_only (fun p => p = logs)
                  (generation_loop model tok logs n i entries acc).
Proof.
  induction entries as [|entry rest IH]; intros i acc; simpl.
  - by apply touches_only_keeps.
  - apply touches_only_mbind; [apply loop_body_touches_only|]. intros ?. apply IH.
Qed.

Lemma touches_only_weaken {A} (S S' : string -> Prop) (m : M A) :
  (forall p, S p -> S' p) -> touches_only S m -> touches_only S' m.
Proof. intros HS Hm w p Hp. apply Hm. intros ?. by apply Hp, HS. Qed.

(** X4: whatever its outcome, the generation driver changes no file other
    than the log file and the output file; the input file in particular is
    left as it was (when it is neither of the two). *)
Theorem generation_touches_only_its_outputs (k : version_key)
    (input_file_path output_file_path logs_file : string) (w : World) (p : string) :
  p <> logs_file -> p <> output_file_path ->
  disk (generating_response_cycle_model_finetuned
          k input_file_path output_file_path logs_file w).2 !! p
  = disk w !! p.
Proof.
  intros Hl Ho.
  assert (H : touches_only (fun p => p = logs_file \/ p = output_file_path)
                (generating_response_cycle_model_finetuned
                   k input_file_path output_file_path logs_file)).
  { unfold generating_response_cycle_model_finetuned.
    repeat first
      [ apply touches_only_mbind; [|intros ?]
      | apply touches_only_open_w; tauto
      | apply touches_only_write; tauto
      | eapply touches_only_weaken; [|apply generation_loop_touches_only];
        simpl; tauto
      | apply touches_only_keeps;
        first [ apply keeps_disk_lift | apply keeps_disk_print
              | apply keeps_disk_call | apply keeps_disk_resolve
              | apply keeps_disk_read_text | apply keeps_disk_py_random_shuffle ] ]. }
  apply H. tauto.
Qed.

Lemma loop_body_emits_gen_event k model tok logs n i entry :
  emits (gen_event k) (loop_body model tok logs n i entry).
Proof. unfold loop_body, generate_response. emits_structure; done. Qed.

Lemma generation_loop_emits_gen_event k model tok logs n entries :
  forall i acc, emits (gen_event k) (generation_loop model tok logs n i entries acc).
Proof.
  induction entries as [|entry rest IH]; intros i acc; simpl.
  - apply emits_mret.
  - apply emits_mbind; [apply loop_body_emits_gen_event|]. intros ?. apply IH.
Qed.

Lemma py_random_shuffle_emits P data :
  (forall l, P (EvCall (random_shuffle l))) -> emits P (py_random_shuffle data).
Proof.
  intros HP. unfold py_random_shuffle.
  destruct data; try apply emits_raise;
    try (destruct (decide _); [apply emits_mret|apply emits_raise]).
  emits_structure. apply HP.
Qed.

(** Every event of the generation driver is one of [gen_event]. *)
Lemma generation_emits_gen_event k inp out logs :
  emits (gen_event k) (generating_response_cycle_model_finetuned k inp out logs).
Proof.
  unfold generating_response_cycle_model_finetuned.
  repeat first
    [ apply emits_mbind; [|intros ?]
    | apply generation_loop_emits_gen_event
    | apply py_random_shuffle_emits; done
    | apply emits_lift | apply emits_resolve
    | apply emits_print; done | apply emits_call; done
    | apply emits_read_text; done | apply emits_open_w; done
    | apply emits_write; done ].
Qed.

(** The shape of a run of the generation driver that returns. *)
Lemma generation_Ok_inv k inp out logs w w' :
  generating_response_cycle_model_finetuned k inp out logs w = (Ok tt, w') ->
  exists model tok text data n shuffled outs w0 w1 pre,
    disk w !! inp = Some (File text) /\
    json_loads text = Ok data /\
    py_len data = Ok n /\
    (shuffle_permutes ->
     forall records, py_iter data = Ok records -> shuffled ≡ₚ records) /\
    disk w0 = <[logs := File ""]> (disk w) /\
    trace w0 = trace w ++ pre /\
    Forall setup_event pre /\
    generation_loop model tok logs n 0 shuffled [] w0 = (Ok outs, w1) /\
    disk w' = <[out := File (json_dumps (Some 4) (JArr outs))]> (disk w1) /\
    trace w' = trace w1 ++
      [ EvPrint ("All responses are saved in " +:+ logs);
        EvOpen out "w";
        EvWrite out (json_dumps (Some 4) (JArr outs));
        EvPrint ("All hyperparameters have been successfully saved to " +:+ out) ].
Proof.
  intros H. unfold generating_response_cycle_model_finetuned in H.
  apply mbind_Ok in H as (hf & w1 & ->%resolve_inv & H).
  apply mbind_Ok in H as ([] & w1 & [_ ->]%print_inv & H).
  apply mbind_Ok in H as (model & w1 & (? & _ & ->)%call_inv & H).
  apply mbind_Ok in H as (tok & w1 & (? & _ & ->)%call_inv & H).
  apply mbind_Ok in H as (model' & w1 & (? & _ & ->)%call_inv & H).
  apply mbind_Ok in H as (text & w1 & Hread & H).
  apply read_text_inv in Hread as [-> Hread].
  specialize (Hread _ eq_refl). simpl in Hread.
  apply mbind_Ok in H as (data & w1 & [Hdata ->]%lift_inv & H).
  apply mbind_Ok in H as (n & w1 & [Hlen ->]%lift_inv & H).
  apply mbind_Ok in H as (data' & w_sh & Hshuffle & H).
  pose proof (keeps_disk_py_random_shuffle data) as Hd.
  pose proof (py_random_shuffle_emits setup_event data (fun _ => I)) as Hext.
  match type of Hshuffle with _ ?W = _ => specialize (Hd W); specialize (Hext W) end.
  rewrite Hshuffle in Hd, Hext. simpl in Hd, Hext.
  destruct Hext as (evs_sh & Htr & Hev_sh).
  apply mbind_Ok in H as ([] & w0 & ->%open_w_Ok & H).
  apply mbind_Ok in H as (shuffled & w1 & [Hiter' ->]%lift_inv & H).
  apply mbind_Ok in H as (outs & w_loop & Hloop & H).
  apply mbind_Ok in H as ([] & w1 & [_ ->]%print_inv & H).
  apply mbind_Ok in H as ([] & w1 & ->%open_w_Ok & H).
  apply mbind_Ok in H as ([] & w1 & [_ ->]%write_inv & H).
  apply print_inv in H as [_ ->].
  exists model', tok, text, data, n, shuffled, outs. do 2 eexists.
  exists ([EvPrint ("Using model: " +:+ hf);
           EvCall (AutoModelForCausalLM_from_pretrained hf
                     (ModelLoad.mk true "auto" (BitsAndBytesConfig.mk true None)));
           EvCall (AutoTokenizer_from_pretrained hf);
           EvCall (PeftModel_from_pretrained model ("./" +:+ cache_dir k +:+ "/model"));
           EvOpen inp "r"] ++ evs_sh ++ [EvOpen logs "w"]).
  split_and!; [done|done|done| | | | |exact Hloop| |].
  - intros Hperm records Hiter.
    destruct (py_random_shuffle_Ok _ _ _ _ _ Hperm Hshuffle Hiter) as (sh & Hsh & Hp).
    rewrite Hiter' in Hsh. by injection Hsh as <-.
  - simpl. by rewrite Hd.
  - simpl. rewrite Htr. simpl. by rewrite <- !app_assoc.
  - repeat first [ apply Forall_app; split | apply Forall_cons; split
                 | apply Forall_nil_2 | done ].
  - simpl. by rewrite file_text_insert, insert_insert_eq.
  - simpl. by rewrite <- !app_assoc.
Qed.

Lemma log_blocks_length i entries blocks :
  log_blocks i entries blocks -> length blocks = length entries.
Proof. induction 1; simpl; [done|]. by f_equal. Qed.

Lemma log_blocks_rendered i entries blocks :
  log_blocks i entries blocks ->
  Forall (fun entry => exists eval_prompt, render_eval_prompt entry = Ok eval_prompt)
         entries.
Proof. induction 1; constructor; eauto. Qed.

Lemma setup_event_no_generate pre :
  Forall setup_event pre -> filter (fun ev => is_generate ev = true) pre = [].
Proof.
  induction 1 as [|ev pre Hev _ IH]; [done|].
  rewrite filter_cons, IH.
  destruct ev as [|A c| | | |]; simpl in *; try done.
  by destruct c.
Qed.

(** One turn of the loop asks the model for exactly one continuation. *)
Lemma loop_body_one_generate model tok logs n i entry w out w' :
  loop_body model tok logs n i entry w = (Ok out, w') ->
  exists evs, trace w' = trace w ++ evs /\
              length (filter (fun ev => is_generate ev = true) evs) = 1.
Proof.
  intros H. unfold loop_body in H.
  apply mbind_Ok in H as (eval_prompt & w1 & [_ ->]%lift_inv & H).
  apply mbind_Ok in H as (response_text & w1 & Hgen & H).
  unfold generate_response in Hgen.
  apply mbind_Ok in Hgen as (batch & w2 & [_ ->]%lift_inv & Hgen).
  apply mbind_Ok in Hgen as (model_input & w2 & (? & _ & ->)%call_inv & Hgen).
  apply mbind_Ok in Hgen as (output & w2 & (? & _ & ->)%call_inv & Hgen).
  apply mbind_Ok in Hgen as (row & w2 & [_ ->]%lift_inv & Hgen).
  apply mbind_Ok in Hgen as (decoded & w2 & [_ ->]%lift_inv & Hgen).
  apply lift_inv in Hgen as [_ ->].
  apply mbind_Ok in H as ([] & w1 & [_ ->]%write_inv & H).
  apply mbind_Ok in H as ([] & w1 & [_ ->]%write_inv & H).
  apply mbind_Ok in H as ([] & w1 & [_ ->]%write_inv & H).
  apply mbind_Ok in H as (entry' & w1 & [_ ->]%lift_inv & H).
  apply mbind_Ok in H as ([] & w1 & [_ ->]%print_inv & H).
  injection H as _ <-. simpl.
  eexists. split; [by rewrite <- !app_assoc|]. reflexivity.
Qed.

Lemma generation_loop_generate_count model tok logs n entries :
  forall i acc w res w',
    generation_loop model tok logs n i entries acc w = (Ok res, w') ->
    exists evs, trace w' = trace w ++ evs /\
                length (filter (fun ev => is_generate ev = true) evs) = length entries.
Proof.
  induction entries as [|entry rest IH]; intros i acc w res w' H; simpl in H.
  - injection H as _ <-. exists []. by rewrite app_nil_r.
  - apply mbind_Ok in H as (out & w1 & Hbody & H).
    apply loop_body_one_generate in Hbody as (evs1 & Htr1 & Hn1).
    apply IH in H as (evs2 & Htr2 & Hn2).
    exists (evs1 ++ evs2). split; [by rewrite Htr2, Htr1, app_assoc|].
    rewrite filter_app, length_app, Hn1, Hn2. done.
Qed.

(** X5: after a run of the generation driver that returns, the log file
    holds exactly one block per input record, in the order the records were
    handled and numbered from 1, and nothing of what it held before the run;
    when the output path is the log path, the blocks are lost: the file
    holds the JSON output alone. *)
Theorem generation_log_complete (k : version_key)
    (input_file_path output_file_path logs_file : string) (w w' : World) :
  shuffle_permutes ->
  generating_response_cycle_model_finetuned
    k input_file_path output_file_path logs_file w = (Ok tt, w') ->
  exists text data records shuffled blocks processed_data,
    disk w !! input_file_path = Some (File text) /\
    json_loads text = Ok data /\
    py_iter data = Ok records /\
    shuffled ≡ₚ records /\
    log_blocks 0 shuffled blocks /\
    length blocks = length records /\
    (output_file_path <> logs_file ->
       disk w' !! logs_file = Some (File (join_blocks blocks))) /\
    (output_file_path = logs_file ->
       disk w' !! logs_file
       = Some (File (json_dumps (Some 4) (JArr processed_data)))).
Proof.
  intros Hperm H.
  apply generation_Ok_inv in H
    as (model & tok & text & data & n & shuffled & outs & w0 & w1 & pre
        & Hread & Hdata & Hlen & Hsh & Hd0 & _ & _ & Hloop & Hd' & _).
  destruct (py_len_iter _ _ Hlen) as (records & Hiter & _).
  specialize (Hsh Hperm _ Hiter).
  eapply (generation_loop_Ok _ _ _ _ _ _ _ _ "") in Hloop
    as (outs' & blocks & evs & _ & _ & Hblocks & Hd1 & _);
    [|by rewrite Hd0, lookup_insert_eq].
  exists text, data, records, shuffled, blocks, outs.
  split_and!; try done.
  - rewrite (log_blocks_length _ _ _ Hblocks). by apply Permutation_length.
  - intros Hne. rewrite Hd', lookup_insert_ne by done.
    by rewrite Hd1, lookup_insert_eq.
  - intros ->. by rewrite Hd', lookup_insert_eq.
Qed.

Lemma assoc_get_set_ne key key' v fields :
  key <> key' -> assoc_get key (assoc_set key' v fields) = assoc_get key fields.
Proof.
  intros Hne. induction fields as [|[k x] rest IH]; simpl.
  - by rewrite decide_False by done.
  - destruct (decide (k = key')) as [->|Hk]; simpl.
    + by rewrite !decide_False by done.
    + destruct (decide (k = key)); [done|apply IH].
Qed.

Lemma augmented_same_other_fields entry out :
  augmented entry out -> same_other_fields entry out.
Proof.
  intros (r & Hset & _) key Hkey.
  destruct entry; try discriminate. injection Hset as <-.
  simpl. by rewrite assoc_get_set_ne.
Qed.

(** X6: in the output of a run that returns, every record agrees with the
    input record it comes from on every field other than [Response]: the
    driver adds or replaces that one field and changes nothing else. *)
Theorem generation_keeps_other_fields (k : version_key)
    (input_file_path output_file_path logs_file : string) (w w' : World) :
  shuffle_permutes ->
  generating_response_cycle_model_finetuned
    k input_file_path output_file_path logs_file w = (Ok tt, w') ->
  exists text data records shuffled processed_data,
    disk w !! input_file_path = Some (File text) /\
    json_loads text = Ok data /\
    py_iter data = Ok records /\
    shuffled ≡ₚ records /\
    Forall2 same_other_fields shuffled processed_data /\
    disk w' !! output_file_path
      = Some (File (json_dumps (Some 4) (JArr processed_data))).
Proof.
  intros Hperm H.
  apply generation_Ok_inv in H
    as (model & tok & text & data & n & shuffled & outs & w0 & w1 & pre
        & Hread & Hdata & Hlen & Hsh & Hd0 & _ & _ & Hloop & Hd' & _).
  destruct (py_len_iter _ _ Hlen) as (records & Hiter & _).
  specialize (Hsh Hperm _ Hiter).
  eapply (generation_loop_Ok _ _ _ _ _ _ _ _ "") in Hloop
    as (outs' & blocks & evs & -> & Hall & _);
    [|by rewrite Hd0, lookup_insert_eq].
  exists text, data, records, shuffled, outs'.
  split_and!; try done.
  - eapply Forall2_impl; [exact Hall|]. apply augmented_same_other_fields.
  - by rewrite Hd', lookup_insert_eq.
Qed.

(** A run of the generation driver that returns has asked the model for
    exactly one continuation per input record, and all its events are among
    those of [gen_event]. *)
Lemma generation_requests_counted (k : version_key)
    (input_file_path output_file_path logs_file : string) (w w' : World) :
  shuffle_permutes ->
  generating_response_cycle_model_finetuned
    k input_file_path output_file_path logs_file w = (Ok tt, w') ->
  exists text data records evs,
    disk w !! input_file_path = Some (File text) /\
    json_loads text = Ok data /\
    py_iter data = Ok records /\
    trace w' = trace w ++ evs /\
    length (filter (fun ev => is_generate ev = true) evs) = length records /\
    Forall (gen_event k) evs.
Proof.
  intros Hperm H.
  destruct (generation_emits_gen_event k input_file_path output_file_path logs_file w)
    as (evs & Htr & Hall).
  rewrite H in Htr. simpl in Htr.
  apply generation_Ok_inv in H
    as (model & tok & text & data & n & shuffled & outs & w0 & w1 & pre
        & Hread & Hdata & Hlen & Hsh & _ & Htr0 & Hpre & Hloop & _ & Htr').
  destruct (py_len_iter _ _ Hlen) as (records & Hiter & _).
  specialize (Hsh Hperm _ Hiter).
  apply generation_loop_generate_count in Hloop as (evs_loop & Htr1 & Hcount).
  exists text, data, records, evs. split_and!; try done.
  rewrite Htr', Htr1, Htr0, <- !app_assoc in Htr. apply app_inv_head in Htr as <-.
  rewrite !filter_app, !length_app, (setup_event_no_generate _ Hpre), Hcount.
  simpl. rewrite Nat.add_0_r. by apply Permutation_length.
Qed.

Lemma render_eval_prompt_well_formed entry eval_prompt :
  render_eval_prompt entry = Ok eval_prompt -> well_formed_entry entry.
Proof.
  intros H. destruct entry as [| | | | | |fields]; try discriminate.
  unfold render_eval_prompt, rbind, getitem in H.
  destruct (assoc_get "prm" fields) as [prm|] eqn:Hprm; [|discriminate].
  destruct prm as [| | | | | |prm]; try discriminate. simpl in H.
  repeat match type of H with
         | context [assoc_get ?key fields] =>
             destruct (assoc_get key fields) eqn:?; [|discriminate]
         end.
  exists fields, prm. split_and!; [done..|].
  repeat constructor; by eexists.
Qed.

Lemma well_formed_entry_renders entry :
  well_formed_entry entry -> exists eval_prompt, render_eval_prompt entry = Ok eval_prompt.
Proof.
  intros (fields & prm & -> & Hprm & Hkeys).
  repeat match goal with
         | H : Forall _ (_ :: _) |- _ => apply Forall_cons in H as [[? ?] H]
         end.
  unfold render_eval_prompt, rbind, getitem. rewrite Hprm. simpl.
  repeat match goal with
         | H : assoc_get _ fields = Some _ |- _ => rewrite H; clear H
         end.
  by eexists.
Qed.

(** X8: the prompt of a record can be rendered exactly when the record is a
    dict whose [prm] is a dict and that has the keys [metric], [task],
    [dataset], [transform_code], [accuracy], [epoch] and [nn_code]; so a run
    of the generation driver returns only if every input record is of that
    form. *)
Theorem generation_requires_well_formed_records (k : version_key)
    (input_file_path output_file_path logs_file : string) (w w' : World) :
  shuffle_permutes ->
  generating_response_cycle_model_finetuned
    k input_file_path output_file_path logs_file w = (Ok tt, w') ->
  (forall entry,
      well_formed_entry entry <->
      exists eval_prompt, render_eval_prompt entry = Ok eval_prompt) /\
  exists text data records,
    disk w !! input_file_path = Some (File text) /\
    json_loads text = Ok data /\
    py_iter data = Ok records /\
    Forall well_formed_entry records.
Proof.
  intros Hperm H. split.
  { intros entry. split; [apply well_formed_entry_renders|].
    intros [p Hp]. by eapply render_eval_prompt_well_formed. }
  apply generation_Ok_inv in H
    as (model & tok & text & data & n & shuffled & outs & w0 & w1 & pre
        & Hread & Hdata & Hlen & Hsh & Hd0 & _ & _ & Hloop & _).
  destruct (py_len_iter _ _ Hlen) as (records & Hiter & _).
  specialize (Hsh Hperm _ Hiter).
  eapply (generation_loop_Ok _ _ _ _ _ _ _ _ "") in Hloop
    as (outs' & blocks & evs & _ & _ & Hblocks & _);
    [|by rewrite Hd0, lookup_insert_eq].
  exists text, data, records. split_and!; try done.
  apply log_blocks_rendered in Hblocks.
  rewrite <- Hsh. eapply Forall_impl; [exact Hblocks|].
  intros entry [p Hp]. by eapply render_eval_prompt_well_formed.
Qed.

(** X9: when the input file is missing, is a directory or does not hold
    JSON, the generation driver raises and leaves every file as it was: the
    log file of an earlier run is not emptied. *)
Theorem generation_unusable_input_keeps_disk (k : version_key)
    (input_file_path output_file_path logs_file : string) (w : World) :
  unusable_input (disk w) input_file_path ->
  exists e w',
    generating_response_cycle_model_finetuned
      k input_file_path output_file_path logs_file w = (Raise e, w') /\
    disk w' = disk w.
Proof.
  intros Hbad. unfold unusable_input in Hbad.
  unfold generating_response_cycle_model_finetuned, mbind, resolve, print, emit,
    call, read_text, lift, mret, raise.
  destruct (dict_get hf_directories_gen k); simpl; [|by eauto].
  repeat match goal with
         | |- context [handle ?c ?d ?e] =>
             destruct (handle c d e) as [[?|?] ?]; simpl; [|by eauto]
         end.
  destruct (disk w !! input_file_path) as [[text|rows]|]; simpl; [|by eauto..].
  destruct Hbad as [err ->]. simpl. by eauto.
Qed.

End GenerationMore.

(** ** The generation driver, part by part *)

Section GenerationParts.
Context {FT : FrameworkTypes} {F : Framework}.

Lemma filter_none {A} (f : A -> bool) (l : list A) :
  Forall (fun x => f x = false) l -> filter (fun x => f x = true) l = [].
Proof.
  induction 1 as [|x l Hx _ IH]; [done|].
  rewrite filter_cons, IH. rewrite decide_False; [done|]. by rewrite Hx.
Qed.

(** Once [len(data)] has succeeded, shuffling leaves something that can be
    iterated over. *)
Lemma py_random_shuffle_iter data n w data' w1 :
  py_len data = Ok n ->
  py_random_shuffle data w = (Ok data', w1) ->
  exists entries, py_iter data' = Ok entries.
Proof.
  intros Hlen H. unfold py_random_shuffle in H.
  destruct data as [| | | |s| items |fields]; try discriminate.
  - destruct (decide _); [|discriminate]. injection H as <- <-. by eexists.
  - apply mbind_Ok in H as (items' & w2 & _ & H). injection H as <- <-. by eexists.
  - destruct (decide _); [|discriminate]. injection H as <- <-. by eexists.
Qed.

Lemma py_random_shuffle_shuffle_event data :
  emits shuffle_event (py_random_shuffle data).
Proof. by apply py_random_shuffle_emits. Qed.

(** A setup that returns: what it has read, loaded and opened. *)
Lemma generation_setup_Ok k inp logs w model tok n entries w0 :
  generation_setup k inp logs w = (Ok (model, tok, n, entries), w0) ->
  exists hf base e1 e2 e3 text data pre,
    dict_get hf_directories_gen k = Some hf /\
    handle (AutoModelForCausalLM_from_pretrained hf
              (ModelLoad.mk true "auto" (BitsAndBytesConfig.mk true None)))
           (disk w) (env w) = (Ok base, e1) /\
    handle (AutoTokenizer_from_pretrained hf) (disk w) e1 = (Ok tok, e2) /\
    handle (PeftModel_from_pretrained base (adapter_dir k)) (disk w) e2 = (Ok model, e3) /\
    disk w !! inp = Some (File text) /\
    json_loads text = Ok data /\
    py_len data = Ok n /\
    (shuffle_permutes ->
     forall records, py_iter data = Ok records -> entries ≡ₚ records) /\
    disk w0 = <[logs := File ""]> (disk w) /\
    trace w0 = trace w ++ pre /\
    Forall setup_event pre /\
    Forall (writes_at_most logs) pre /\
    length (filter (fun ev => is_adapter_load (adapter_dir k) ev = true) pre) = 1.
Proof.
  intros H. unfold generation_setup in H.
  apply mbind_Ok in H as (hf & w1 & [Hhf ->]%resolve_Ok & H).
  apply mbind_Ok in H as ([] & w1 & [_ ->]%print_inv & H).
  apply mbind_Ok in H as (base & w1 & (e1 & Hbase & ->)%call_inv & H).
  apply mbind_Ok in H as (tok' & w1 & (e2 & Htok & ->)%call_inv & H).
  apply mbind_Ok in H as (model' & w1 & (e3 & Hmodel & ->)%call_inv & H).
  apply mbind_Ok in H as (text & w1 & Hread & H).
  apply read_text_inv in Hread as [-> Hread].
  specialize (Hread _ eq_refl). simpl in Hread.
  apply mbind_Ok in H as (data & w1 & [Hdata ->]%lift_inv & H).
  apply mbind_Ok in H as (n' & w1 & [Hlen ->]%lift_inv & H).
  apply mbind_Ok in H as (data' & w_sh & Hshuffle & H).
  pose proof (keeps_disk_py_random_shuffle data) as Hd.
  pose proof (py_random_shuffle_shuffle_event data) as Hext.
  match type of Hshuffle with _ ?W = _ => specialize (Hd W); specialize (Hext W) end.
  rewrite Hshuffle in Hd, Hext. simpl in Hd, Hext.
  destruct Hext as (evs_sh & Htr & Hev_sh).
  apply mbind_Ok in H as ([] & w1 & ->%open_w_Ok & H).
  apply mbind_Ok in H as (entries' & w1 & [Hiter' ->]%lift_inv & H).
  injection H as <- <- <- <- <-. simpl in *.
  exists hf, base, e1, e2, e3, text, data,
    ([EvPrint ("Using model: " +:+ hf);
      EvCall (AutoModelForCausalLM_from_pretrained hf
                (ModelLoad.mk true "auto" (BitsAndBytesConfig.mk true None)));
      EvCall (AutoTokenizer_from_pretrained hf);
      EvCall (PeftModel_from_pretrained base (adapter_dir k));
      EvOpen inp "r"] ++ evs_sh ++ [EvOpen logs "w"]).
  split_and!; try done.
  - intros Hperm records Hiter.
    destruct (py_random_shuffle_Ok _ _ _ _ _ Hperm Hshuffle Hiter) as (sh & Hsh & Hp).
    rewrite Hiter' in Hsh. by injection Hsh as <-.
  - by rewrite Hd.
  - rewrite Htr. simpl. by rewrite <- !app_assoc.
  - repeat first [ apply Forall_app; split | apply Forall_cons; split
                 | apply Forall_nil_2 | done ].
    eapply Forall_impl; [exact Hev_sh|]. intros [|A c| | | |]; simpl; try done.
    by destruct c.
  - repeat first [ apply Forall_app; split | apply Forall_cons; split
                 | apply Forall_nil_2 | done ].
    eapply Forall_impl; [exact Hev_sh|]. intros [|A c| | | |]; simpl; try done.
  - generalize (adapter_dir k). intros dir.
    rewrite !filter_app, !length_app.
    rewrite (filter_none _ evs_sh).
    + rewrite !filter_cons, filter_nil. cbn [is_adapter_load].
      rewrite (bool_decide_eq_true_2 (dir = dir) eq_refl). reflexivity.
    + eapply Forall_impl; [exact Hev_sh|]. intros [|A c| | | |]; simpl; try done.
      by destruct c.
Qed.

(** A setup that raises has changed no file. *)
Lemma generation_setup_Raise k inp logs w e w' :
  generation_setup k inp logs w = (Raise e, w') ->
  disk w' = disk w /\ extends (writes_at_most logs) w w'.
Proof.
  intros H.
  assert (Hext : extends (writes_at_most logs) w w').
  { assert (Hem : emits (writes_at_most logs) (generation_setup k inp logs)).
    { unfold generation_setup.
      repeat first
        [ apply emits_mbind; [|intros ?]
        | apply py_random_shuffle_emits; done
        | apply emits_lift | apply emits_resolve | apply emits_mret
        | apply emits_print; done | apply emits_call; done
        | apply emits_read_text; done | apply emits_open_w; done ]. }
    specialize (Hem w). by rewrite H in Hem. }
  split; [|done]. clear Hext.
  unfold generation_setup in H.
  apply mbind_Raise in H as [H|(hf & w1 & ->%resolve_inv & H)].
  { by apply resolve_inv in H as ->. }
  apply mbind_Raise in H as [H|([] & w1 & [_ ->]%print_inv & H)].
  { by apply print_inv in H as [? _]. }
  apply mbind_Raise in H as [H|(model & w1 & (? & _ & ->)%call_inv & H)].
  { by apply call_inv in H as (? & _ & ->). }
  apply mbind_Raise in H as [H|(tok & w1 & (? & _ & ->)%call_inv & H)].
  { by apply call_inv in H as (? & _ & ->). }
  apply mbind_Raise in H as [H|(model' & w1 & (? & _ & ->)%call_inv & H)].
  { by apply call_inv in H as (? & _ & ->). }
  apply mbind_Raise in H as [H|(text & w1 & [-> _]%read_text_inv & H)].
  { by apply read_text_inv in H as [-> _]. }
  apply mbind_Raise in H as [H|(data & w1 & [_ ->]%lift_inv & H)].
  { by apply lift_inv in H as [_ ->]. }
  apply mbind_Raise in H as [H|(n & w1 & [Hlen ->]%lift_inv & H)].
  { by apply lift_inv in H as [_ ->]. }
  apply mbind_Raise in H as [H|(data' & w_sh & Hshuffle & H)].
  { pose proof (keeps_disk_py_random_shuffle data) as Hd.
    match type of H with _ ?W = _ => specialize (Hd W) end. by rewrite H in Hd. }
  pose proof (keeps_disk_py_random_shuffle data) as Hd.
  match type of Hshuffle with _ ?W = _ => specialize (Hd W) end.
  rewrite Hshuffle in Hd. simpl in Hd.
  apply mbind_Raise in H as [H|([] & w1 & ->%open_w_Ok & H)].
  { apply open_w_Raise in H as ->. done. }
  exfalso.
  destruct (py_random_shuffle_iter _ _ _ _ _ Hlen Hshuffle) as [entries Hiter].
  apply mbind_Raise in H as [H|(? & ? & _ & H)]; [|discriminate].
  apply lift_inv in H as [H _]. congruence.
Qed.

(** A turn that raises has asked the model at most once. *)
Lemma loop_body_Raise_requests model tok logs n i entry w e w' :
  loop_body model tok logs n i entry w = (Raise e, w') ->
  exists evs, trace w' = trace w ++ evs /\
              length (filter (fun ev => is_generate ev = true) evs) <= 1.
Proof.
  intros H. unfold loop_body in H.
  apply mbind_Raise in H as [H|(eval_prompt & w1 & [Hprompt ->]%lift_inv & H)].
  { apply lift_inv in H as (_ & ->). exists []. split; [by rewrite app_nil_r|simpl; lia]. }
  apply mbind_Raise in H as [H|(response_text & w1 & H1 & H)].
  - unfold generate_response in H.
    apply mbind_Raise in H as [H|(batch & w2 & [_ ->]%lift_inv & H)].
    { apply lift_inv in H as (_ & ->). exists [].
      split; [by rewrite app_nil_r|simpl; lia]. }
    apply mbind_Raise in H as [H|(model_input & w2 & (? & _ & ->)%call_inv & H)].
    { apply call_inv in H as (? & _ & ->). eexists. split; [done|]. simpl. lia. }
    apply mbind_Raise in H as [H|(output & w2 & (? & _ & ->)%call_inv & H)].
    { apply call_inv in H as (? & _ & ->). eexists. split; [simpl; by rewrite <- app_assoc|].
      simpl. lia. }
    assert (Hdone : forall w2 : World,
               w2 = mkWorld (disk w) x0
                      ((trace w ++ [EvCall (BatchEncoding_to batch "cuda")]) ++
                       [EvCall (Model_generate model model_input 150 (pad_token_id tok))]) ->
               exists evs, trace w2 = trace w ++ evs /\
                 length (filter (fun ev => is_generate ev = true) evs) <= 1).
    { intros ? ->. eexists. split; [simpl; by rewrite <- app_assoc|]. simpl. lia. }
    apply mbind_Raise in H as [H|(row & w2 & [_ ->]%lift_inv & H)].
    { apply lift_inv in H as (_ & ->). by apply Hdone. }
    apply mbind_Raise in H as [H|(decoded & w2 & [_ ->]%lift_inv & H)].
    { apply lift_inv in H as (_ & ->). by apply Hdone. }
    apply lift_inv in H as (_ & ->). by apply Hdone.
  - exfalso.
    apply mbind_Raise in H as [H|(? & ? & _ & H)]; [by apply write_inv in H as [? _]|].
    apply mbind_Raise in H as [H|(? & ? & _ & H)]; [by apply write_inv in H as [? _]|].
    apply mbind_Raise in H as [H|(? & ? & _ & H)]; [by apply write_inv in H as [? _]|].
    destruct (render_eval_prompt_dict _ _ Hprompt) as [fields ->].
    apply mbind_Raise in H as [H|(? & ? & _ & H)]; [by apply lift_inv in H as [? _]|].
    apply mbind_Raise in H as [H|(? & ? & _ & H)]; [by apply print_inv in H as [? _]|].
    discriminate.
Qed.

(** The loop stops at the first turn that raises. *)
Lemma generation_loop_stops model tok logs n handled failing rest :
  forall i acc w res_mid w_mid e w',
    generation_loop model tok logs n i handled acc w = (Ok res_mid, w_mid) ->
    loop_body model tok logs n (i + length handled) failing w_mid = (Raise e, w') ->
    generation_loop model tok logs n i (handled ++ failing :: rest) acc w = (Raise e, w').
Proof.
  induction handled as [|entry handled IH]; intros i acc w res_mid w_mid e w' Hok Hfail;
    simpl in *.
  - injection Hok as _ <-. rewrite Nat.add_0_r in Hfail. unfold mbind. by rewrite Hfail.
  - apply mbind_Ok in Hok as (out & w1 & Hbody & Hok).
    unfold mbind at 1. rewrite Hbody.
    eapply IH; [exact Hok|]. by rewrite Nat.add_succ_comm.
Qed.

(** C7: an exception stops the run where it is raised.  Raised before the
    loop, it is the outcome of the driver and no file has changed.  Raised in
    the turn of a record (the records being those of the input file, in
    shuffled order), after the turns of the records before it have returned,
    it is the outcome of the driver, in the very state that turn left: the
    turn asked the model at most once and wrote nothing, no later record is
    handled, the log file holds exactly the blocks of the records handled
    before it, and the output file is neither opened nor written.  And every
    exception of the driver is one of these two, or the failure to open the
    output file after the loop; in each case the output file is as it was
    before the run (for an output path other than the log path). *)
Theorem generation_failure_aborts (k : version_key)
    (input_file_path output_file_path logs_file : string) (w : World) :
  (forall e w',
      generation_setup k input_file_path logs_file w = (Raise e, w') ->
      generating_response_cycle_model_finetuned
        k input_file_path output_file_path logs_file w = (Raise e, w') /\
      disk w' = disk w) /\
  (forall model tok n entries w0,
      generation_setup k input_file_path logs_file w = (Ok (model, tok, n, entries), w0) ->
      (exists text data,
          disk w !! input_file_path = Some (File text) /\
          json_loads text = Ok data /\
          py_len data = Ok n /\
          (shuffle_permutes ->
           forall records, py_iter data = Ok records -> entries ≡ₚ records)) /\
      forall handled failing rest res_mid w_mid e w',
        entries = handled ++ failing :: rest ->
        generation_loop model tok logs_file n 0 handled [] w0 = (Ok res_mid, w_mid) ->
        loop_body model tok logs_file n (length handled) failing w_mid = (Raise e, w') ->
        generating_response_cycle_model_finetuned
          k input_file_path output_file_path logs_file w = (Raise e, w') /\
        (exists evs, trace w' = trace w_mid ++ evs /\
           length (filter (fun ev => is_generate ev = true) evs) <= 1) /\
        disk w' = disk w_mid /\
        (exists blocks,
            log_blocks 0 handled blocks /\
            length blocks = length handled /\
            disk w' = <[logs_file := File (join_blocks blocks)]> (disk w)) /\
        extends (writes_at_most logs_file) w w' /\
        (output_file_path <> logs_file ->
           disk w' !! output_file_path = disk w !! output_file_path)) /\
  (forall e w',
      generating_response_cycle_model_finetuned
        k input_file_path output_file_path logs_file w = (Raise e, w') ->
      (output_file_path <> logs_file ->
         disk w' !! output_file_path = disk w !! output_file_path /\
         extends (no_write_to output_file_path) w w') /\
      (generation_setup k input_file_path logs_file w = (Raise e, w') \/
       exists model tok n entries w0,
         generation_setup k input_file_path logs_file w
           = (Ok (model, tok, n, entries), w0) /\
         ((exists handled failing rest res_mid w_mid,
              entries = handled ++ failing :: rest /\
              generation_loop model tok logs_file n 0 handled [] w0 = (Ok res_mid, w_mid) /\
              loop_body model tok logs_file n (length handled) failing w_mid
                = (Raise e, w')) \/
          (exists outs w1,
              generation_loop model tok logs_file n 0 entries [] w0 = (Ok outs, w1) /\
              open_w output_file_path
                (after w1 [EvPrint ("All responses are saved in " +:+ logs_file)])
                = (Raise e, w'))))).
Proof.
  split_and!.
  - intros e w' Hsetup. split.
    + rewrite generation_decomposed. unfold mbind at 1. by rewrite Hsetup.
    + by apply generation_setup_Raise in Hsetup as [? _].
  - intros model tok n entries w0 Hsetup.
    destruct (generation_setup_Ok _ _ _ _ _ _ _ _ _ Hsetup)
      as (hf & base & e1 & e2 & e3 & text & data & pre & _ & _ & _ & _
          & Hread & Hdata & Hlen & Hperm & Hd0 & Htr0 & _ & Hpre & _).
    split; [by exists text, data|].
    intros handled failing rest res_mid w_mid e w' -> Hok Hfail.
    pose proof (generation_loop_stops _ _ _ _ _ _ rest _ _ _ _ _ _ _ Hok Hfail) as Hloop.
    eapply (generation_loop_Ok _ _ _ _ _ _ _ _ "") in Hok
      as (outs & blocks & evs & _ & _ & Hblocks & Hd1 & Htr1 & Hev1);
      [|by rewrite Hd0, lookup_insert_eq].
    destruct (loop_body_Raise _ _ _ _ _ _ _ _ _ Hfail) as [Hd2 Hext2].
    assert (Hdisk : disk w' = <[logs_file := File (join_blocks blocks)]> (disk w)).
    { by rewrite Hd2, Hd1, Hd0, insert_insert_eq. }
    split_and!.
    + rewrite generation_decomposed. unfold mbind at 1. rewrite Hsetup. simpl.
      unfold mbind at 1. by rewrite Hloop.
    + by eapply loop_body_Raise_requests.
    + done.
    + exists blocks. split_and!; [done|by eapply log_blocks_length|done].
    + eapply extends_trans; [by exists pre|].
      eapply extends_trans; [by exists evs|done].
    + intros Hne. by rewrite Hdisk, lookup_insert_ne.
  - intros e w' H. split.
    { by apply (proj2 generation_raise_shape) in H as [? _]. }
    rewrite generation_decomposed in H.
    apply mbind_Raise in H as [H|([[[model tok] n] entries] & w0 & Hsetup & H)];
      [by left|].
    right. exists model, tok, n, entries, w0. split; [done|]. simpl in H.
    destruct (generation_setup_Ok _ _ _ _ _ _ _ _ _ Hsetup)
      as (hf & base & e1 & e2 & e3 & text & data & pre & _ & _ & _ & _
          & _ & _ & _ & _ & Hd0 & _).
    apply mbind_Raise in H as [H|(outs & w1 & Hloop & H)].
    + left.
      eapply (generation_loop_Raise _ _ _ _ _ _ _ _ "") in H
        as (handled & failing & rest & blocks & res_mid & w_mid
            & -> & Hok & Hfail & _);
        [|by rewrite Hd0, lookup_insert_eq].
      by exists handled, failing, rest, res_mid, w_mid.
    + right. exists outs, w1. split; [done|].
      unfold generation_finish in H.
      apply mbind_Raise in H as [H|([] & w2 & [_ ->]%print_inv & H)].
      { by apply print_inv in H as [? _]. }
      apply mbind_Raise in H as [H|([] & w2 & ->%open_w_Ok & H)]; [done|].
      exfalso.
      apply mbind_Raise in H as [H|([] & w2 & [_ ->]%write_inv & H)].
      { by apply write_inv in H as [? _]. }
      by apply print_inv in H as [? _].
Qed.

(** One turn of the loop: one input sent to "cuda", no adapter loaded, and
    the request made to the model the loop was given. *)
Lemma loop_body_requests dir model tok logs n i entry w out w' :
  loop_body model tok logs n i entry w = (Ok out, w') ->
  exists evs, trace w' = trace w ++ evs /\
    length (filter (fun ev => is_to_cuda ev = true) evs) = 1 /\
    length (filter (fun ev => is_adapter_load dir ev = true) evs) = 0 /\
    Forall (generates_with model) evs.
Proof.
  intros H. unfold loop_body in H.
  apply mbind_Ok in H as (eval_prompt & w1 & [_ ->]%lift_inv & H).
  apply mbind_Ok in H as (response_text & w1 & Hgen & H).
  unfold generate_response in Hgen.
  apply mbind_Ok in Hgen as (batch & w2 & [_ ->]%lift_inv & Hgen).
  apply mbind_Ok in Hgen as (model_input & w2 & (? & _ & ->)%call_inv & Hgen).
  apply mbind_Ok in Hgen as (output & w2 & (? & _ & ->)%call_inv & Hgen).
  apply mbind_Ok in Hgen as (row & w2 & [_ ->]%lift_inv & Hgen).
  apply mbind_Ok in Hgen as (decoded & w2 & [_ ->]%lift_inv & Hgen).
  apply lift_inv in Hgen as [_ ->].
  apply mbind_Ok in H as ([] & w1 & [_ ->]%write_inv & H).
  apply mbind_Ok in H as ([] & w1 & [_ ->]%write_inv & H).
  apply mbind_Ok in H as ([] & w1 & [_ ->]%write_inv & H).
  apply mbind_Ok in H as (entry' & w1 & [_ ->]%lift_inv & H).
  apply mbind_Ok in H as ([] & w1 & [_ ->]%print_inv & H).
  injection H as _ <-. simpl.
  eexists. split; [by rewrite <- !app_assoc|].
  split_and!; [reflexivity|reflexivity|].
  repeat (apply Forall_cons; split; [done|]). apply Forall_nil_2.
Qed.

Lemma generation_loop_requests dir model tok logs n entries :
  forall i acc w res w',
    generation_loop model tok logs n i entries acc w = (Ok res, w') ->
    exists evs, trace w' = trace w ++ evs /\
      length (filter (fun ev => is_to_cuda ev = true) evs) = length entries /\
      length (filter (fun ev => is_adapter_load dir ev = true) evs) = 0 /\
      Forall (generates_with model) evs.
Proof.
  induction entries as [|entry rest IH]; intros i acc w res w' H; simpl in H.
  - injection H as _ <-. exists []. rewrite app_nil_r. split_and!; try done.
  - apply mbind_Ok in H as (out & w1 & Hbody & H).
    apply (loop_body_requests dir) in Hbody as (evs1 & Htr1 & Hc1 & Ha1 & Hg1).
    apply IH in H as (evs2 & Htr2 & Hc2 & Ha2 & Hg2).
    exists (evs1 ++ evs2). split_and!.
    + by rewrite Htr2, Htr1, app_assoc.
    + rewrite filter_app, length_app, Hc1, Hc2. done.
    + rewrite filter_app, length_app, Ha1, Ha2. done.
    + by apply Forall_app.
Qed.

Lemma setup_event_quiet model pre :
  Forall setup_event pre ->
  filter (fun ev => is_to_cuda ev = true) pre = [] /\ Forall (generates_with model) pre.
Proof.
  induction 1 as [|ev pre Hev _ [IH1 IH2]]; [done|].
  rewrite filter_cons, IH1. split.
  - destruct ev as [|A c| | | |]; simpl in *; try done. by destruct c.
  - apply Forall_cons. split; [|done].
    destruct ev as [|A c| | | |]; simpl in *; try done. by destruct c.
Qed.

(** The shape of a run of the generation driver that returns: the setup,
    the loop over all records, the four last steps. *)
Lemma generation_Ok_parts k inp out logs w w' :
  generating_response_cycle_model_finetuned k inp out logs w = (Ok tt, w') ->
  exists model tok n entries w0 outs w1,
    generation_setup k inp logs w = (Ok (model, tok, n, entries), w0) /\
    generation_loop model tok logs n 0 entries [] w0 = (Ok outs, w1) /\
    trace w' = trace w1 ++
      [ EvPrint ("All responses are saved in " +:+ logs);
        EvOpen out "w";
        EvWrite out (json_dumps (Some 4) (JArr outs));
        EvPrint ("All hyperparameters have been successfully saved to " +:+ out) ].
Proof.
  intros H. rewrite generation_decomposed in H.
  apply mbind_Ok in H as ([[[model tok] n] entries] & w0 & Hsetup & H). simpl in H.
  apply mbind_Ok in H as (outs & w1 & Hloop & H).
  unfold generation_finish in H.
  apply mbind_Ok in H as ([] & w2 & [_ ->]%print_inv & H).
  apply mbind_Ok in H as ([] & w2 & ->%open_w_Ok & H).
  apply mbind_Ok in H as ([] & w2 & [_ ->]%write_inv & H).
  apply print_inv in H as [_ ->].
  exists model, tok, n, entries, w0, outs, w1. split_and!; [done..|].
  simpl. by rewrite <- !app_assoc.
Qed.

(** A returning run of the generation driver has loaded the adapter once,
    and every request went to the model that load returned. *)
Lemma generation_Ok_adapter k inp out logs w w' :
  generating_response_cycle_model_finetuned k inp out logs w = (Ok tt, w') ->
  exists evs base e e' model,
    trace w' = trace w ++ evs /\
    length (filter (fun ev => is_adapter_load (adapter_dir k) ev = true) evs) = 1 /\
    handle (PeftModel_from_pretrained base (adapter_dir k)) (disk w) e = (Ok model, e') /\
    Forall (generates_with model) evs.
Proof.
  intros H.
  apply generation_Ok_parts in H
    as (model & tok & n & entries & w0 & outs & w1 & Hsetup & Hloop & Htr').
  destruct (generation_setup_Ok _ _ _ _ _ _ _ _ _ Hsetup)
    as (hf & base & e1 & e2 & e3 & text' & data' & pre & _ & _ & _ & Hmodel
        & _ & _ & _ & _ & _ & Htr0 & Hpre & _ & Hload).
  apply (generation_loop_requests (adapter_dir k)) in Hloop
    as (evs_loop & Htr1 & _ & Hnoload & Hgen).
  destruct (setup_event_quiet model pre Hpre) as [_ Hq2].
  eexists _, base, e2, e3, model. split_and!.
  - rewrite Htr', Htr1, Htr0, <- !app_assoc. reflexivity.
  - generalize dependent (adapter_dir k). intros dir **.
    rewrite !filter_app, !length_app, Hload, Hnoload. reflexivity.
  - done.
  - repeat first [apply Forall_app; split | done].
    repeat (apply Forall_cons; split; [done|]). apply Forall_nil_2.
Qed.

(** X7: a run of the generation driver that returns has loaded the adapter
    exactly once, from the model directory of its version and before the
    loop; it has then, for each input record, sent one input to the device
    "cuda" and asked for one continuation, capped at 150 new tokens, of the
    model that the loading of the adapter returned; and the run contains no
    call that trains, loads or saves a dataset, or saves a model. *)
Theorem generation_one_request_per_record (k : version_key)
    (input_file_path output_file_path logs_file : string) (w w' : World) :
  shuffle_permutes ->
  generating_response_cycle_model_finetuned
    k input_file_path output_file_path logs_file w = (Ok tt, w') ->
  exists text data records evs,
    disk w !! input_file_path = Some (File text) /\
    json_loads text = Ok data /\
    py_iter data = Ok records /\
    trace w' = trace w ++ evs /\
    length (filter (fun ev => is_generate ev = true) evs) = length records /\
    Forall (gen_event k) evs /\
    length (filter (fun ev => is_adapter_load (adapter_dir k) ev = true) evs) = 1 /\
    length (filter (fun ev => is_to_cuda ev = true) evs) = length records /\
    exists model tok n entries w0 base e e' pre rest,
      generation_setup k input_file_path logs_file w = (Ok (model, tok, n, entries), w0) /\
      handle (PeftModel_from_pretrained base (adapter_dir k)) (disk w) e = (Ok model, e') /\
      trace w0 = trace w ++ pre /\
      evs = pre ++ rest /\
      Forall setup_event pre /\
      length (filter (fun ev => is_adapter_load (adapter_dir k) ev = true) pre) = 1 /\
      Forall (generates_with model) evs.
Proof.
  intros Hperm H.
  destruct (generation_requests_counted _ _ _ _ _ _ Hperm H)
    as (text & data & records & evs & Hread & Hdata & Hiter & Htr & Hcount & Hall).
  exists text, data, records, evs. split_and!; try done.
  all: apply generation_Ok_parts in H
      as (model & tok & n & entries & w0 & outs & w1 & Hsetup & Hloop & Htr').
  all: destruct (generation_setup_Ok _ _ _ _ _ _ _ _ _ Hsetup)
      as (hf & base & e1 & e2 & e3 & text' & data' & pre & _ & _ & _ & Hmodel
          & Hread' & Hdata' & Hlen & Hsh & _ & Htr0 & Hpre & _ & Hload).
  all: apply (generation_loop_requests (adapter_dir k)) in Hloop
      as (evs_loop & Htr1 & Hcuda & Hnoload & Hgen).
  all: rewrite Htr', Htr1, Htr0, <- !app_assoc in Htr; apply app_inv_head in Htr.
  all: destruct (setup_event_quiet model pre Hpre) as [Hq1 Hq2].
  - rewrite <- Htr. generalize dependent (adapter_dir k). intros dir **.
    rewrite !filter_app, !length_app, Hload, Hnoload. reflexivity.
  - rewrite <- Htr. rewrite !filter_app, !length_app, Hq1, Hcuda. simpl.
    rewrite Hread in Hread'. injection Hread' as <-.
    rewrite Hdata in Hdata'. injection Hdata' as <-.
    rewrite Nat.add_0_r. apply Permutation_length. by apply Hsh.
  - exists model, tok, n, entries, w0, base, e2, e3, pre. eexists.
    split_and!; [done|done|done|by rewrite <- Htr|done|done|].
    rewrite <- Htr. repeat first [apply Forall_app; split | done].
    repeat (apply Forall_cons; split; [done|]). apply Forall_nil_2.
Qed.

End GenerationParts.

(** ** More on the fine-tuning driver *)

Section FineTuningMore.
Context {FT : FrameworkTypes} {F : Framework}.

Lemma mbind_inv {A B} (m : M A) (f : A -> M B) w r w' :
  mbind m f w = (r, w') ->
  (exists e, m w = (Raise e, w') /\ r = Raise e) \/
  (exists a w1, m w = (Ok a, w1) /\ f a w1 = (r, w')).
Proof.
  unfold mbind. destruct (m w) as [[a|e] w1]; [eauto|].
  intros [= <- <-]. left. eauto.
Qed.

Lemma save_to_disk_inv rows path w r w' :
  save_to_disk rows path w = (r, w') ->
  (r = Ok tt /\ disk w' = <[path := DatasetDir rows]> (disk w)) \/
  (exists e, r = Raise e /\ disk w' = disk w).
Proof.
  unfold save_to_disk. destruct (disk w !! path) as [[]|]; intros [= <- <-]; eauto.
Qed.

(** What the fallback can have done to the disk, whatever its outcome. *)
Lemma build_datasets_disk_effect tok k path w r w' :
  build_datasets tok k path w = (r, w') ->
  disk w' = disk w \/
  (exists e tr, r = Raise e /\
     disk w' = <[train_cache_path k := DatasetDir tr]> (disk w)) \/
  (exists tr va, r = Ok (tr, va) /\
     disk w' = <[val_cache_path k := DatasetDir va]>
                 (<[train_cache_path k := DatasetDir tr]> (disk w))).
Proof.
  intros H. unfold build_datasets in H.
  do 11 (let Hs := fresh "Hs" in
         apply mbind_inv in H as [(? & H & ->)|(? & ? & Hs & H)];
         [ first [ apply call_inv in H as (? & _ & ->)
                 | apply lift_inv in H as (_ & ->) ]; by left
         | first [ apply call_inv in Hs as (? & _ & ->)
                 | apply lift_inv in Hs as (_ & ->) ] ]).
  apply mbind_inv in H as [(e & H & ->)|([] & w1 & Hs1 & H)].
  { apply save_to_disk_inv in H as [[? _]|(? & _ & Hd)]; [done|]. by left. }
  apply save_to_disk_inv in Hs1 as [[_ Hd1]|(? & ? & _)]; [|done]. simpl in Hd1.
  apply mbind_inv in H as [(e & H & ->)|([] & w2 & Hs2 & H)].
  { apply save_to_disk_inv in H as [[? _]|(? & _ & Hd)]; [done|].
    right; left. do 2 eexists. split; [done|]. by rewrite Hd, Hd1. }
  apply save_to_disk_inv in Hs2 as [[_ Hd2]|(? & ? & _)]; [|done].
  apply mbind_inv in H as [(e & H & ->)|([] & w3 & [_ ->]%print_inv & H)].
  { by apply print_inv in H as [? _]. }
  injection H as <- <-. right; right. do 2 eexists. split; [done|].
  simpl. by rewrite Hd2, Hd1.
Qed.

(** X10: whatever its outcome, dataset preparation changes nothing on disk
    but the two cache directories of its version: with both caches present
    it writes nothing; otherwise it leaves the disk as it was, or with the
    training cache alone (and then it raised), or with both caches holding
    the collections it returns.  The validation cache is never written
    without the training cache, and a raw dataset file is never written. *)
Theorem prepare_datasets_disk_effect (tok : Tokenizer) (k : version_key)
    (dataset_path : string) (w : World) (r : result (TokenizedDataset * TokenizedDataset))
    (w' : World) :
  prepare_datasets tok k dataset_path w = (r, w') ->
  ((exists tr va, cached (disk w) k tr va) -> disk w' = disk w) /\
  (disk w' = disk w \/
   (exists e tr, r = Raise e /\
      disk w' = <[train_cache_path k := DatasetDir tr]> (disk w)) \/
   (exists tr va, r = Ok (tr, va) /\
      disk w' = <[val_cache_path k := DatasetDir va]>
                  (<[train_cache_path k := DatasetDir tr]> (disk w)))) /\
  (forall p, p <> train_cache_path k -> p <> val_cache_path k ->
             disk w' !! p = disk w !! p).
Proof.
  intros H.
  assert (Hhit : (exists tr va, cached (disk w) k tr va) -> disk w' = disk w).
  { intros (tr & va & Hc). rewrite (prepare_datasets_hit _ _ _ _ _ _ Hc) in H.
    by injection H as _ <-. }
  assert (Hcases :
    disk w' = disk w \/
    (exists e tr, r = Raise e /\
       disk w' = <[train_cache_path k := DatasetDir tr]> (disk w)) \/
    (exists tr va, r = Ok (tr, va) /\
       disk w' = <[val_cache_path k := DatasetDir va]>
                   (<[train_cache_path k := DatasetDir tr]> (disk w)))).
  { match goal with
    | |- ?G => assert (Hmiss : (forall tr va, ~ cached (disk w) k tr va) -> G)
    end.
    { intros Hno. destruct (prepare_datasets_miss tok k dataset_path w Hno)
        as (evs & _ & Heq).
      rewrite Heq in H. exact (build_datasets_disk_effect _ _ _ _ _ _ H). }
    destruct (disk w !! train_cache_path k) as [[text|tr0]|] eqn:Htr.
    - apply Hmiss. intros ?? [??]. congruence.
    - destruct (disk w !! val_cache_path k) as [[text|va0]|] eqn:Hva.
      + apply Hmiss. intros ?? [??]. congruence.
      + left. apply Hhit. by exists tr0, va0.
      + apply Hmiss. intros ?? [??]. congruence.
    - apply Hmiss. intros ?? [??]. congruence. }
  split_and!; [done|done|].
  intros p Hp1 Hp2.
  destruct Hcases as [->|[(e & tr & _ & ->)|(tr & va & _ & ->)]]; [done|..].
  - by rewrite lookup_insert_ne.
  - by rewrite !lookup_insert_ne.
Qed.

Lemma prepare_datasets_emits_no_trainer P tok k path :
  (forall ev, ~ constructs_trainer ev -> P ev) ->
  emits P (prepare_datasets tok k path).
Proof.
  intros HP. unfold prepare_datasets, load_cached_datasets, build_datasets.
  emits_structure; apply HP; try (simpl; tauto).
Qed.

Lemma trainer_datasets_impl (Q Q' : TokenizedDataset -> TokenizedDataset -> Prop) ev :
  (forall tr va, Q tr va -> Q' tr va) -> trainer_datasets Q ev -> trainer_datasets Q' ev.
Proof.
  intros HQ. destruct ev as [|A c| | | |]; simpl; try done.
  destruct c; try done. apply HQ.
Qed.

Lemma no_trainer_datasets Q ev : ~ constructs_trainer ev -> trainer_datasets Q ev.
Proof.
  destruct ev as [|A c| | | |]; simpl; try done.
  destruct c; done.
Qed.

(** X11: every trainer that [main] builds is given exactly the two
    collections that the cache directories of its version hold when [main]
    ends, be they loaded from the cache or just regenerated: what was
    trained on is what a later run will load. *)
Theorem trainer_receives_cached_datasets (k : version_key) (dataset_path : string)
    (w : World) :
  extends (trainer_datasets (cached (disk (main k dataset_path w).2) k))
          w (main k dataset_path w).2.
Proof.
  destruct (main k dataset_path w) as [r w'] eqn:H. simpl.
  unfold main in H.
  assert (Hquiet : forall evs,
             Forall (fun ev => ~ constructs_trainer ev) evs ->
             Forall (trainer_datasets (cached (disk w') k)) evs).
  { intros evs Hall. eapply Forall_impl; [exact Hall|].
    intros ev. apply no_trainer_datasets. }
  apply mbind_inv in H as [(e & H & ->)|(hf & w1 & ->%resolve_inv & H)].
  { apply resolve_inv in H as ->. apply extends_refl. }
  apply mbind_inv in H as [(e & H & ->)|([] & w1 & [_ ->]%print_inv & H)].
  { by apply print_inv in H as [? _]. }
  apply mbind_inv in H as [(e & H & ->)|(tok & w1 & (? & _ & ->)%call_inv & H)].
  { apply call_inv in H as (? & _ & ->).
    eexists. split; [simpl; rewrite <- ?app_assoc; reflexivity|].
    apply Hquiet. repeat constructor; simpl; tauto. }
  apply mbind_inv in H as [(e & H & ->)|(model & w1 & (? & _ & ->)%call_inv & H)].
  { apply call_inv in H as (? & _ & ->).
    eexists. split; [simpl; rewrite <- ?app_assoc; reflexivity|].
    apply Hquiet. repeat constructor; simpl; tauto. }
  match type of H with
  | mbind _ _ ?W = _ =>
      assert (Hpre : extends (fun ev => ~ constructs_trainer ev) w W)
  end.
  { eexists. split; [simpl; rewrite <- ?app_assoc; reflexivity|].
    repeat constructor; simpl; tauto. }
  apply mbind_inv in H as [(e & H & ->)|(datasets & w1 & Hprep & H)].
  { match type of H with
    | prepare_datasets ?t _ _ ?W = _ =>
        pose proof (prepare_datasets_emits_no_trainer
                      (fun ev => ~ constructs_trainer ev) t k dataset_path
                      (fun _ Hev => Hev) W) as Hext
    end.
    rewrite H in Hext. simpl in Hext.
    destruct (extends_trans _ _ _ _ Hpre Hext) as (evs & Htr & Hall).
    exists evs. split; [done|by apply Hquiet]. }
  match type of Hprep with
  | prepare_datasets ?t _ _ ?W = _ =>
      pose proof (prepare_datasets_emits_no_trainer
                    (fun ev => ~ constructs_trainer ev) t k dataset_path
                    (fun _ Hev => Hev) W) as Hext
  end.
  rewrite Hprep in Hext. simpl in Hext.
  pose proof (extends_trans _ _ _ _ Hpre Hext) as Hpre1. clear Hpre Hext.
  destruct datasets as [tr va]. apply prepare_datasets_Ok in Hprep. simpl in H.
  match type of H with
  | ?m w1 = _ =>
      assert (Hkeep : keeps_disk m);
      [|assert (Hrest : emits (trainer_datasets (fun a b => a = tr /\ b = va)) m)]
  end.
  { repeat first [ apply keeps_disk_mbind; [|intros ?]
                 | apply keeps_disk_call | apply keeps_disk_print ]. }
  { emits_structure; done. }
  specialize (Hkeep w1). specialize (Hrest w1). rewrite H in Hkeep, Hrest.
  simpl in Hkeep, Hrest.
  eapply extends_trans.
  - eapply extends_impl; [|exact Hpre1]. intros ev. apply no_trainer_datasets.
  - eapply extends_impl; [|exact Hrest]. intros ev.
    apply trainer_datasets_impl. intros ?? [-> ->]. by rewrite Hkeep.
Qed.

Lemma generation_emits_any k inp out logs :
  emits (fun _ => True) (generating_response_cycle_model_finetuned k inp out logs).
Proof.
  intros w. eapply extends_impl; [|apply generation_emits_gen_event]. done.
Qed.

Lemma gen_event_loads_adapter k ev :
  gen_event k ev -> loads_adapter_from (adapter_dir k) ev.
Proof.
  destruct ev as [|A c| | | |]; simpl; try done. by destruct c.
Qed.

(** A run of [main] that returns has saved the model into the adapter
    directory of its version. *)
Lemma main_performs_save k path : performs (saves_model_to (adapter_dir k)) (main k path).
Proof.
  unfold main.
  do 13 (apply performs_mbind_r;
         [first [apply prepare_datasets_emits_any|emits_structure; done]|intros ?]).
  apply performs_mbind_l; [by apply performs_call|].
  intros ?. emits_structure; done.
Qed.

(** X12: the two drivers meet in one directory and on one model.  A run of
    [main] for version [k] that returns has ended by training a trainer,
    evaluating it and saving, into [./Finetuned_models/tuned_model_v<k>/model],
    the very model that [get_peft_model] returned and that the trainer was
    built over.  The generation driver for the same version loads an adapter
    from that directory and from no other; a run of it that returns has
    loaded it exactly once, and all its requests went to the model that load
    returned. *)
Theorem adapter_saved_where_loaded (k : version_key) :
  (forall dataset_path w w',
      main k dataset_path w = (Ok tt, w') ->
      (exists evs, trace w' = trace w ++ evs /\
                   Exists (saves_model_to (adapter_dir k)) evs) /\
      exists tokenizer model trainer w_t prepared d e e' tr va eval_results,
        main_until_training k dataset_path w = (Ok (tokenizer, model, trainer), w_t) /\
        handle (get_peft_model prepared peft_config) d e = (Ok model, e') /\
        handle (Trainer_new model (training_args k) tr va tokenizer
                  (DataCollatorForSeq2Seq.mk 8 "pt" true) [EarlyStoppingCallback 2])
               d e' = (Ok trainer, env w_t) /\
        trace w' = trace w_t ++
          [ EvCall (Trainer_train trainer);
            EvCall (Trainer_evaluate trainer);
            EvPrint ("Evaluation results: " +:+ metrics_str eval_results);
            EvCall (Model_save_pretrained model (adapter_dir k));
            EvCall (Tokenizer_save_pretrained tokenizer
                      ("./" +:+ cache_dir k +:+ "/tokenizer")) ]) /\
  (forall input_file_path output_file_path logs_file w,
      extends (loads_adapter_from (adapter_dir k)) w
        (generating_response_cycle_model_finetuned
           k input_file_path output_file_path logs_file w).2) /\
  (forall input_file_path output_file_path logs_file w w',
      generating_response_cycle_model_finetuned
        k input_file_path output_file_path logs_file w = (Ok tt, w') ->
      exists evs base e e' model,
        trace w' = trace w ++ evs /\
        length (filter (fun ev => is_adapter_load (adapter_dir k) ev = true) evs) = 1 /\
        handle (PeftModel_from_pretrained base (adapter_dir k)) (disk w) e = (Ok model, e') /\
        Forall (generates_with model) evs).
Proof.
  split_and!.
  - intros path w w' H. split; [by eapply main_performs_save|].
    apply main_Ok_parts in H as (tok & model & trainer & w_t & Hsetup & Hrest).
    destruct (main_until_training_Ok _ _ _ _ _ _ _ Hsetup)
      as (hf & tok0 & e1 & base & e2 & w_p & tr & va & w_d & e3 & prepared & e4 & e5
          & _ & _ & _ & _ & _ & _ & _ & _ & _ & _ & Hpeft & Htrainer & _).
    apply main_from_training_Ok in Hrest as (w_a & eval_results & _ & Htr).
    exists tok, model, trainer, w_t, prepared, (disk w_d), e4.
    by exists e5, tr, va, eval_results.
  - intros inp out logs w.
    eapply extends_impl; [apply gen_event_loads_adapter|].
    apply generation_emits_gen_event.
  - intros inp out logs w w'. apply generation_Ok_adapter.
Qed.

Lemma string_app_inv_tail (a b c : string) : a +:+ c = b +:+ c -> a = b.
Proof.
  intros H. apply (f_equal PyStr.of_string) in H.
  rewrite !PyStrFacts.of_string_app in H. apply app_inv_tail in H.
  apply (f_equal PyStr.to_string) in H. by rewrite !PyStrFacts.to_of_string in H.
Qed.

Lemma cache_dir_int_inj a b : cache_dir (VInt a) = cache_dir (VInt b) -> a = b.
Proof.
  unfold cache_dir. simpl. intros H%String.app_inj. by apply pretty_Z_inj in H.
Qed.

(** X13: versions do not meet on disk.  No training cache path of any
    version is the validation cache path of any version; and two different
    integer versions have different training caches, validation caches and
    adapter directories. *)
Theorem version_directories_separate :
  (forall k1 k2, train_cache_path k1 <> val_cache_path k2) /\
  (forall a b, a <> b ->
      train_cache_path (VInt a) <> train_cache_path (VInt b) /\
      val_cache_path (VInt a) <> val_cache_path (VInt b) /\
      adapter_dir (VInt a) <> adapter_dir (VInt b)).
Proof.
  split.
  - intros k1 k2 H. unfold train_cache_path, val_cache_path in H.
    apply (f_equal PyStr.of_string) in H. rewrite !PyStrFacts.of_string_app in H.
    apply (f_equal (@rev _)) in H. rewrite !rev_app_distr in H.
    set (x := rev (PyStr.of_string (cache_dir k1))) in H.
    set (y := rev (PyStr.of_string (cache_dir k2))) in H.
    clearbody x y. vm_compute in H. discriminate.
  - intros a b Hne. split_and!; intros H; apply Hne, cache_dir_int_inj.
    + by apply string_app_inv_tail in H.
    + by apply string_app_inv_tail in H.
    + unfold adapter_dir in H. apply String.app_inj in H.
      by apply string_app_inv_tail in H.
Qed.

End FineTuningMore.

(** ** Gradient checkpointing *)

Section GradientCheckpointing.
Context {FT : FrameworkTypes} {F : Framework}.
Implicit Types P : Env -> Prop.

Lemma env_keeps_same {A} P (m : M A) : (forall w, env (m w).2 = env w) -> env_keeps P m.
Proof. intros H w HP. by rewrite H. Qed.

Lemma env_keeps_mbind {A B} P (m : M A) (f : A -> M B) :
  env_keeps P m -> (forall a, env_keeps P (f a)) -> env_keeps P (mbind m f).
Proof.
  intros Hm Hf w HP. unfold mbind. specialize (Hm w HP).
  destruct (m w) as [[a|e] w1]; simpl in *; [|done]. by apply Hf.
Qed.

Lemma env_keeps_try_except {A} P (body : M A) handler :
  env_keeps P body -> (forall e, env_keeps P (handler e)) ->
  env_keeps P (try_except body handler).
Proof.
  intros Hm Hf w HP. unfold try_except. specialize (Hm w HP).
  destruct (body w) as [[a|e] w1]; simpl in *; [done|]. by apply Hf.
Qed.

Lemma env_keeps_call {A} P (c : fcall A) :
  (forall d e r e', handle c d e = (r, e') -> P e -> P e') -> env_keeps P (call c).
Proof.
  intros Hc w HP. unfold call.
  destruct (handle c (disk w) (env w)) as [r e'] eqn:E. simpl. by eapply Hc.
Qed.

Lemma env_keeps_load_from_disk P path : env_keeps P (load_from_disk path).
Proof.
  apply env_keeps_same. intros w. unfold load_from_disk.
  by destruct (disk w !! path) as [[]|].
Qed.

Lemma env_keeps_save_to_disk P rows path : env_keeps P (save_to_disk rows path).
Proof.
  apply env_keeps_same. intros w. unfold save_to_disk.
  by destruct (disk w !! path) as [[]|].
Qed.

(** Dataset preparation keeps what the dataset calls keep. *)
Lemma prepare_datasets_env_keeps P tok k path :
  (forall A (c : fcall A) d e r e',
      data_or_mode_call c -> handle c d e = (r, e') -> P e -> P e') ->
  env_keeps P (prepare_datasets tok k path).
Proof.
  intros Hc. unfold prepare_datasets, load_cached_datasets, build_datasets.
  repeat first
    [ apply env_keeps_mbind; [|intros ?]
    | apply env_keeps_try_except; [|intros ?]
    | apply env_keeps_load_from_disk
    | apply env_keeps_save_to_disk
    | apply env_keeps_call; intros ? ? ? ?; by apply Hc
    | by apply env_keeps_same ].
Qed.

(** C4: [main] runs the training loop with gradient checkpointing enabled,
    and not through its training arguments, which say
    [gradient_checkpointing=False]: [main] is its first part followed by
    [trainer.train()] and the rest; whenever the first part returns, the
    trainer was built, in the state it left, over a model that has gradient
    checkpointing enabled in the state in which [trainer.train()] is
    called; and a run of [main] that returns has made that call.  The model
    has it from [prepare_model_for_kbit_training], which [main] calls with
    its defaults on the model it loaded in 8 bit (line 124); that this call
    enables checkpointing, and that the adapter and the trainer leave it on,
    is the behaviour of peft and transformers, assumed as [peft_defaults]. *)
Theorem main_trains_with_gradient_checkpointing (attrs : ModelAttributes)
    (k : version_key) (dataset_path : string) (w : World) :
  peft_defaults attrs ->
  main k dataset_path w
    = mbind (main_until_training k dataset_path)
            (fun x => main_from_training k x.1.1 x.1.2 x.2) w /\
  (forall tokenizer model trainer w_t,
      main_until_training k dataset_path w = (Ok (tokenizer, model, trainer), w_t) ->
      is_gradient_checkpointing attrs model (env w_t) = true /\
      exists tr va e,
        handle (Trainer_new model (training_args k) tr va tokenizer
                  (DataCollatorForSeq2Seq.mk 8 "pt" true) [EarlyStoppingCallback 2])
               (disk w_t) e = (Ok trainer, env w_t)) /\
  (forall w',
      main k dataset_path w = (Ok tt, w') ->
      exists tokenizer model trainer w_t w_a,
        main_until_training k dataset_path w = (Ok (tokenizer, model, trainer), w_t) /\
        call (Trainer_train trainer) w_t = (Ok tt, w_a) /\
        is_gradient_checkpointing attrs model (env w_t) = true) /\
  TrainingArguments.gradient_checkpointing (training_args k) = false.
Proof.
  intros Hpeft.
  assert (Hset : forall tokenizer model trainer w_t,
      main_until_training k dataset_path w = (Ok (tokenizer, model, trainer), w_t) ->
      is_gradient_checkpointing attrs model (env w_t) = true /\
      exists tr va e,
        handle (Trainer_new model (training_args k) tr va tokenizer
                  (DataCollatorForSeq2Seq.mk 8 "pt" true) [EarlyStoppingCallback 2])
               (disk w_t) e = (Ok trainer, env w_t)).
  { intros tok model trainer w_t Hsetup.
    destruct (main_until_training_Ok _ _ _ _ _ _ _ Hsetup)
      as (hf & tok0 & e1 & base & e2 & w_p & tr & va & w_d & e3 & prepared & e4 & e5
          & _ & _ & _ & Hbase & _ & Hep & _ & Hprep & Hmode & Hprepare & Hadapter
          & Htrainer & Hdt & _).
    split; [|exists tr, va, e5; by rewrite Hdt].
    apply (load_in_8bit_marks _ Hpeft) in Hbase; [|done].
    assert (H8 : is_loaded_in_8bit attrs base (env w_d) = true).
    { pose proof (prepare_datasets_env_keeps
                    (fun e => is_loaded_in_8bit attrs base e = true) tok k dataset_path
                    (fun A c d e r e' => data_calls_keep_8bit _ Hpeft A c d e r e' base)
                    w_p) as Hkeep.
      rewrite Hprep, Hep in Hkeep. by apply Hkeep. }
    pose proof (data_calls_keep_8bit _ Hpeft _ (Model_train_mode base)
                  _ _ _ _ base I Hmode H8) as H8'.
    pose proof (prepare_enables_checkpointing _ Hpeft _ _ _ _ _ Hprepare H8') as Hgc.
    pose proof (adapter_keeps_checkpointing _ Hpeft _ _ _ _ _ _ Hadapter Hgc) as Hgc'.
    exact (trainer_keeps_checkpointing _ Hpeft _ _ _ _ _ _ _ _ _ _ _ Htrainer Hgc'). }
  split_and!; [apply main_decomposed|exact Hset| |done].
  intros w' H.
  apply main_Ok_parts in H as (tok & model & trainer & w_t & Hsetup & Hrest).
  apply main_from_training_Ok in Hrest as (w_a & eval_results & Htrain & _).
  exists tok, model, trainer, w_t, w_a. split_and!; [done|done|].
  by apply Hset in Hsetup as [? _].
Qed.

End GradientCheckpointing.

(** ** Further runs on the executable framework *)

Section MoreRuns.
Import Ref.

Lemma extract_response_of_prompt_continuation_witness :
  exists eval_prompt,
    render_eval_prompt (record_of_char "a") = Ok eval_prompt /\
    extract_response (eval_prompt +:+ " lr=0.01 ") = Ok "lr=0.01" /\
    trimmed " lr=0.01 " "lr=0.01".
Proof.
  assert (Hp : exists p, render_eval_prompt (record_of_char "a") = Ok p)
    by (eexists; vm_compute; reflexivity).
  destruct Hp as [p Hp]. exists p. split; [exact Hp|].
  assert (Hfree : ~ str_contains response_marker " lr=0.01 ")
    by (apply py_in_false; vm_compute; reflexivity).
  exact (extract_response_of_prompt_continuation _ _ _ Hp Hfree).
Defined.

Lemma extract_response_of_training_prompt_witness :
  exists prompt,
    create_prompt (JObj [("question", JStr "2+2?"); ("answer", JStr " 4 ")]) = Ok prompt /\
    extract_response prompt = Ok "4" /\
    trimmed " 4 " "4".
Proof.
  assert (Hp : exists p,
             create_prompt (JObj [("question", JStr "2+2?"); ("answer", JStr " 4 ")])
             = Ok p) by (eexists; vm_compute; reflexivity).
  destruct Hp as [p Hp]. exists p. split; [exact Hp|].
  assert (Hfree : ~ str_contains response_marker (py_format (JStr " 4 ")))
    by (apply py_in_false; vm_compute; reflexivity).
  exact (extract_response_of_training_prompt _ (JStr " 4 ") _ Hp eq_refl Hfree).
Defined.

Lemma generation_touches_only_its_outputs_witness :
  disk (generating_response_cycle_model_finetuned
          (VInt 1) "Dataset/LEMUR_raw_2_500.json" "out.json" "log.txt" (world0 1)).2
    !! "Dataset/LEMUR_raw_2_500.json"
  = Some (File "xyz").
Proof.
  rewrite generation_touches_only_its_outputs by discriminate.
  vm_compute. reflexivity.
Defined.

Lemma generation_log_complete_witness :
  exists w' blocks,
    generating_response_cycle_model_finetuned
      (VInt 1) "Dataset/LEMUR_raw_2_500.json" "out.json" "log.txt" (world0 1)
      = (Ok tt, w') /\
    length blocks = 3 /\
    disk w' !! "log.txt" = Some (File (join_blocks blocks)).
Proof.
  pose (run := generating_response_cycle_model_finetuned
                 (VInt 1) "Dataset/LEMUR_raw_2_500.json" "out.json" "log.txt" (world0 1)).
  assert (H : run = (Ok tt, run.2)) by (vm_compute; reflexivity).
  destruct (generation_log_complete _ _ _ _ _ _ ref_shuffle_permutes H)
    as (text & data & records & shuffled & blocks & processed
        & Hread & Hdata & Hiter & _ & _ & Hlen & Hlog & _).
  exists run.2, blocks. split_and!; [exact H| |apply Hlog; discriminate].
  vm_compute in Hread. injection Hread as <-.
  injection Hdata as <-. injection Hiter as <-. exact Hlen.
Defined.

Lemma generation_keeps_other_fields_witness :
  exists w' shuffled processed_data,
    generating_response_cycle_model_finetuned
      (VInt 1) "Dataset/LEMUR_raw_2_500.json" "out.json" "log.txt" (world0 1)
      = (Ok tt, w') /\
    Forall2 same_other_fields shuffled processed_data /\
    disk w' !! "out.json" = Some (File (json_dumps (Some 4) (JArr processed_data))).
Proof.
  pose (run := generating_response_cycle_model_finetuned
                 (VInt 1) "Dataset/LEMUR_raw_2_500.json" "out.json" "log.txt" (world0 1)).
  assert (H : run = (Ok tt, run.2)) by (vm_compute; reflexivity).
  destruct (generation_keeps_other_fields _ _ _ _ _ _ ref_shuffle_permutes H)
    as (text & data & records & shuffled & processed & _ & _ & _ & _ & Hall & Hout).
  exists run.2, shuffled, processed. split_and!; [exact H|exact Hall|exact Hout].
Defined.

Lemma generation_one_request_per_record_witness :
  exists w' evs,
    generating_response_cycle_model_finetuned
      (VInt 1) "Dataset/LEMUR_raw_2_500.json" "out.json" "log.txt" (world0 1)
      = (Ok tt, w') /\
    trace w' = evs /\
    length (filter (fun ev => is_generate ev = true) evs) = 3 /\
    length (filter (fun ev => is_to_cuda ev = true) evs) = 3 /\
    length (filter (fun ev => is_adapter_load (adapter_dir (VInt 1)) ev = true) evs) = 1.
Proof.
  pose (run := generating_response_cycle_model_finetuned
                 (VInt 1) "Dataset/LEMUR_raw_2_500.json" "out.json" "log.txt" (world0 1)).
  assert (H : run = (Ok tt, run.2)) by (vm_compute; reflexivity).
  destruct (generation_one_request_per_record _ _ _ _ _ _ ref_shuffle_permutes H)
    as (text & data & records & evs & Hread & Hdata & Hiter & Htr & Hcount & _
        & Hload & Hcuda & _).
  exists run.2, evs. split_and!; [exact H|exact Htr| | |exact Hload].
  - vm_compute in Hread. injection Hread as <-.
    injection Hdata as <-. injection Hiter as <-. exact Hcount.
  - vm_compute in Hread. injection Hread as <-.
    injection Hdata as <-. injection Hiter as <-. exact Hcuda.
Defined.

Lemma generation_requires_well_formed_records_witness :
  exists w',
    generating_response_cycle_model_finetuned
      (VInt 1) "Dataset/LEMUR_raw_2_500.json" "out.json" "log.txt" (world0 1)
      = (Ok tt, w') /\
    Forall well_formed_entry (parse "xyz").
Proof.
  pose (run := generating_response_cycle_model_finetuned
                 (VInt 1) "Dataset/LEMUR_raw_2_500.json" "out.json" "log.txt" (world0 1)).
  assert (H : run = (Ok tt, run.2)) by (vm_compute; reflexivity).
  destruct (generation_requires_well_formed_records _ _ _ _ _ _ ref_shuffle_permutes H)
    as (_ & text & data & records & Hread & Hdata & Hiter & Hall).
  exists run.2. split; [exact H|].
  vm_compute in Hread. injection Hread as <-.
  injection Hdata as <-. injection Hiter as <-. exact Hall.
Defined.

Lemma generation_unusable_input_keeps_disk_witness :
  exists e w',
    generating_response_cycle_model_finetuned
      (VInt 1) "Dataset/missing.json" "out.json" "log.txt" (world0 0) = (Raise e, w') /\
    disk w' = disk0.
Proof.
  apply (generation_unusable_input_keeps_disk
           (VInt 1) "Dataset/missing.json" "out.json" "log.txt" (world0 0)).
  vm_compute. exact I.
Defined.

Lemma prepare_datasets_disk_effect_witness :
  exists r w',
    prepare_datasets tokenizer0 (VInt 1) "Dataset/LEMUR_prepared_2.json" (world0 0)
      = (r, w') /\
    disk w' !! "Dataset/LEMUR_prepared_2.json" = Some (File "abcde").
Proof.
  pose (run := prepare_datasets tokenizer0 (VInt 1) "Dataset/LEMUR_prepared_2.json"
                 (world0 0)).
  assert (H : run = (run.1, run.2)) by (by destruct run).
  exists run.1, run.2. split; [exact H|].
  destruct (prepare_datasets_disk_effect _ _ _ _ _ _ H) as (_ & _ & Hother).
  rewrite Hother.
  - vm_compute. reflexivity.
  - intros Heq. vm_compute in Heq. discriminate.
  - intros Heq. vm_compute in Heq. discriminate.
Defined.

Lemma generation_failure_aborts_witness :
  exists model tok w0 res_mid w_mid w',
    generation_setup (VInt 1) "Dataset/incomplete.json" "log.txt" (world0 0)
      = (Ok (model, tok, 4, parse "ab!c"), w0) /\
    generation_loop model tok "log.txt" 4 0 (parse "ab") [] w0 = (Ok res_mid, w_mid) /\
    loop_body model tok "log.txt" 4 2 (record_of_char "!") w_mid
      = (Raise (KeyError "task"), w') /\
    generating_response_cycle_model_finetuned
      (VInt 1) "Dataset/incomplete.json" "out.json" "log.txt" (world0 0)
      = (Raise (KeyError "task"), w') /\
    disk w' !! "out.json" = None.
Proof.
  pose (setup := generation_setup (VInt 1) "Dataset/incomplete.json" "log.txt" (world0 0)).
  assert (Hsetup : setup = (Ok ("deepseek-ai/DeepSeek-Coder-V2-Lite-Base",
                                mkTokenizer tt false None "left" 4096, 4, parse "ab!c"),
                            setup.2)) by (vm_compute; reflexivity).
  pose (mid := generation_loop "deepseek-ai/DeepSeek-Coder-V2-Lite-Base"
                 (mkTokenizer tt false None "left" 4096) "log.txt" 4 0 (parse "ab") []
                 setup.2).
  assert (Hmid : mid = (mid.1, mid.2)) by (by destruct mid).
  assert (Hmid1 : exists res, mid.1 = Ok res) by (eexists; vm_compute; reflexivity).
  destruct Hmid1 as [res_mid Hres]. rewrite Hres in Hmid.
  pose (fail := loop_body "deepseek-ai/DeepSeek-Coder-V2-Lite-Base"
                 (mkTokenizer tt false None "left" 4096) "log.txt" 4 2
                 (record_of_char "!") mid.2).
  assert (Hfail : fail = (Raise (KeyError "task"), fail.2)) by (vm_compute; reflexivity).
  destruct (proj2 (proj1 (proj2 (generation_failure_aborts (VInt 1)
              "Dataset/incomplete.json" "out.json" "log.txt" (world0 0)))
              _ _ _ _ _ Hsetup)
              (parse "ab") (record_of_char "!") (parse "c") _ _ _ _ eq_refl Hmid Hfail)
    as (Hrun & _ & _ & _ & _ & Hout).
  do 6 eexists. split_and!; [exact Hsetup|exact Hmid|exact Hfail|exact Hrun|].
  rewrite Hout by discriminate. reflexivity.
Defined.

Lemma adapter_saved_where_loaded_witness :
  exists w' evs,
    main (VInt 1) "Dataset/LEMUR_prepared_2.json" (world0 0) = (Ok tt, w') /\
    trace w' = evs /\
    Exists (saves_model_to "./Finetuned_models/tuned_model_v1/model") evs.
Proof.
  pose (run := main (VInt 1) "Dataset/LEMUR_prepared_2.json" (world0 0)).
  assert (H : run = (Ok tt, run.2)) by (vm_compute; reflexivity).
  destruct (proj1 (proj1 (adapter_saved_where_loaded (VInt 1)) _ _ _ H))
    as (evs & Htr & Hsave).
  exists run.2, evs. split_and!; [exact H|exact Htr|exact Hsave].
Defined.

End MoreRuns.

(** ** Runs on the framework with model attributes *)

Section PeftRuns.
Import PeftRef.

(** The second framework behaves as [peft_defaults] says. *)
Lemma peft_ref_defaults : peft_defaults attributes.
Proof.
  split.
  - intros name opts d e m e' [= <- _] H8. exact H8.
  - intros A c d e r e' m _ _ H8. exact H8.
  - intros m d e m' e' [= <- _] H8. simpl in *. rewrite H8. apply orb_true_r.
  - intros m c d e m' e' [= <- _] Hgc. exact Hgc.
  - intros m args tr va tok collator callbacks d e t e' _ Hgc. exact Hgc.
Qed.

(** In it a model comes out of [from_pretrained] without gradient
    checkpointing, also when loaded in 8 bit. *)
Example peft_ref_loaded_without_checkpointing :
  peft_handle
    (AutoModelForCausalLM_from_pretrained "deepseek-ai/deepseek-coder-1.3b-base"
       (ModelLoad.mk true "auto" (BitsAndBytesConfig.mk true (Some "float16"))))
    ∅ 0
  = (Ok (mk_model "deepseek-ai/deepseek-coder-1.3b-base" true false None), 0).
Proof. reflexivity. Qed.

Lemma main_trains_with_gradient_checkpointing_witness :
  exists tokenizer model trainer w_t w',
    main_until_training (VInt 1) "Dataset/LEMUR_prepared_2.json" peft_world0
      = (Ok (tokenizer, model, trainer), w_t) /\
    main (VInt 1) "Dataset/LEMUR_prepared_2.json" peft_world0 = (Ok tt, w') /\
    gradient_checkpointing model = true /\
    TrainingArguments.gradient_checkpointing (training_args (VInt 1)) = false.
Proof.
  pose (setup := main_until_training (VInt 1) "Dataset/LEMUR_prepared_2.json" peft_world0).
  assert (Hsetup : exists x, setup = (Ok x, setup.2))
    by (eexists; vm_compute; reflexivity).
  destruct Hsetup as [[[tokenizer model] trainer] Hsetup].
  pose (run := main (VInt 1) "Dataset/LEMUR_prepared_2.json" peft_world0).
  assert (Hrun : run = (Ok tt, run.2)) by (vm_compute; reflexivity).
  destruct (main_trains_with_gradient_checkpointing attributes (VInt 1)
              "Dataset/LEMUR_prepared_2.json" peft_world0 peft_ref_defaults)
    as (_ & Hgc & _ & Hargs).
  destruct (Hgc _ _ _ _ Hsetup) as [Hmodel _].
  exists tokenizer, model, trainer, setup.2, run.2.
  split_and!; [exact Hsetup|exact Hrun|exact Hmodel|exact Hargs].
Defined.

End PeftRuns.
